(** * minorbit2: the propagation engine, embedded and verified

    A shallow embedding of [minorbit2.py]: the gravity model ([grav_accel]),
    the 8th-order Yoshida step ([stepYoshida8]), the state-vector retrieval
    ([parseMPJPL], [getMPJPL]), the configuration reader ([read_config]) and
    the driver ([main]) with its set-up, cycle loop and validation.

    Numbers.  The program computes with Python/numpy double-precision
    numbers.  The embedding is written once, over a type class [Scalar] of
    the arithmetic the program uses, and has two instances:
    - [float_Scalar]: IEEE-754 binary64 (Rocq's primitive floats), which is
      what the program runs on, and on which the embedding is executable;
    - [R_Scalar]: the real numbers, the exact arithmetic that binary64
      rounds, used only to say what a sum of rounded terms approximates.
    A date is the number of its seconds; adding a timedelta rounds to whole
    microseconds, and a date outside the years 1 to 9999 raises
    OverflowError where the program forms it.

    Objects.  [MP] and [MainBody] instances are mutable Python objects that
    the functions share by reference.  They live in a store ([world]): the
    lists [mps] and [bodies] of main, whose elements are distinct objects;
    the code is written in a state-and-exception monad [M] over that store.
    Every attribute assignment and every call of [grav_accel] is recorded in
    the store's [w_trace], so that orderings can be stated.  numpy arrays
    are never updated in place by the program (every assignment rebinds an
    attribute to a fresh array), so a 3-vector is a value.

    Outside world.  The library and network calls ([datetime.strptime],
    [float], [re], [requests.get], [spice.spkezr]) are the fields of an
    environment [Env], over which everything is quantified.  [print] and
    [input] append to the store's [w_out], one entry per call; the text
    [result_str] is kept as the list of its lines' fields ([w_result]).
    Not modelled: the loading and unloading of the SPICE kernels, and the
    writing of the result file. *)

From Stdlib Require Import ZArith QArith Qround List String Ascii Bool Lia.
From Stdlib Require Import Reals Qreals Lra Floats Permutation.
Import ListNotations.

(** ** Arithmetic *)

(** The exceptions that the modelled code raises; [SystemExit] is [quit()]
    and [exit()]. *)
Inductive exn : Type :=
| IndexError | ValueError | AttributeError | ZeroDivisionError | SystemExit
| OverflowError.

(** The operations of Python [float] / numpy [float64] that the program
    uses, and those of [datetime] on the dates, which are held as their
    number of seconds since the day before 0001-01-01.
    - [s_floordiv] is [x // y] ([None]: ZeroDivisionError);
    - [s_to_int] is [int(x)], which raises ValueError on a NaN and
      OverflowError on an infinity;
    - [s_date_plus d x] is [d + timedelta(seconds=x)], the seconds rounded
      to whole microseconds as [timedelta] does, and [s_date_ok] tells
      whether a date lies in the years 1 to 9999: forming a date outside
      raises OverflowError. *)
Class Scalar (T : Type) : Type := {
  s_add : T -> T -> T;
  s_sub : T -> T -> T;
  s_mul : T -> T -> T;
  s_div : T -> T -> T;
  s_sqrt : T -> T;
  s_lit : Q -> T;
  s_of_int : Z -> T;
  s_floordiv : T -> T -> option T;
  s_to_int : T -> exn + Z;
  s_date_plus : T -> T -> T;
  s_date_ok : T -> bool
}.

Declare Scope scalar_scope.
Delimit Scope scalar_scope with sc.
Infix "+" := s_add : scalar_scope.
Infix "-" := s_sub : scalar_scope.
Infix "*" := s_mul : scalar_scope.
Infix "/" := s_div : scalar_scope.

(** *** Binary64 *)

Definition float_of_Z (z : Z) : float :=
  SF2Prim (binary_normalize prec emax z 0 false).

(** The exact value of a finite double. *)
Definition float_to_Q (x : float) : option Q :=
  match Prim2SF x with
  | S754_zero _ => Some 0%Q
  | S754_finite s m e =>
      let v := if (0 <=? e)%Z then inject_Z (Z.pos m * 2 ^ e)
               else Z.pos m # Pos.shiftl 1 (Z.to_N (- e)) in
      Some (if s then Qopp v else v)
  | S754_infinity _ => None
  | S754_nan => None
  end.

(** A decimal literal denotes the double nearest to it (ties to even).  The
    quotient is computed to more than 64 bits with a sticky bit and then
    rounded once. *)
Definition float_lit (q : Q) : float :=
  let n := Qnum q in
  let d := Z.pos (Qden q) in
  let k := Z.max 0 (64 + Z.log2 d - Z.log2 (Z.abs n)) in
  let a := (Z.abs n * 2 ^ k)%Z in
  let m := (2 * (a / d) + (if (a mod d =? 0)%Z then 0 else 1))%Z in
  let r := SF2Prim (binary_normalize prec emax m (- k - 1) false) in
  if (n <? 0)%Z then (- r)%float else r.

(** [x // y] on Python floats: the floor of the exact quotient (CPython
    computes it through [fmod]; the two agree while the quotient is below
    2^53); a zero divisor raises. *)
Definition float_floordiv (x y : float) : option float :=
  if PrimFloat.is_zero y then None
  else match float_to_Q x, float_to_Q y with
       | Some qx, Some qy => Some (float_of_Z (Qfloor (qx / qy)))
       | Some qx, None =>
           if PrimFloat.is_nan y then Some PrimFloat.nan
           else if Qeq_bool qx 0 then Some PrimFloat.zero
           else if Bool.eqb (Qle_bool 0 qx) (PrimFloat.ltb 0 y)
                then Some PrimFloat.zero
                else Some (-1)%float
       | None, _ => Some PrimFloat.nan
       end.

(** [int(x)]: truncation towards zero; ValueError on a NaN, OverflowError
    on an infinity. *)
Definition float_to_int (x : float) : exn + Z :=
  match float_to_Q x with
  | Some q => inr (Z.quot (Qnum q) (Z.pos (Qden q)))
  | None => if PrimFloat.is_nan x then inl ValueError else inl OverflowError
  end.

(** The nearest integer, ties to the even one. *)
Definition Qround_half_even (q : Q) : Z :=
  let f := Qfloor q in
  match Qcompare (q - inject_Z f) (1 # 2) with
  | Lt => f
  | Gt => (f + 1)%Z
  | Eq => if Z.even f then f else (f + 1)%Z
  end.

(** The microseconds of [timedelta(seconds=x)] for a finite [x], as CPython
    computes them: the whole seconds, and the fraction times 1e6 (a product
    of doubles) rounded to the nearest integer, ties to even. *)
Definition float_timedelta_us (x : float) : option Z :=
  match float_to_Q x with
  | Some q =>
      let whole := Z.quot (Qnum q) (Z.pos (Qden q)) in
      let frac := float_lit (q - inject_Z whole) in
      match float_to_Q (frac * float_of_Z 1000000)%float with
      | Some us => Some (Qround_half_even (inject_Z (whole * 1000000) + us))
      | None => None
      end
  | None => None
  end.

(** [d + timedelta(seconds=x)]: the double nearest to the seconds of the
    date that results (a date of whole seconds is held exactly; one with
    microseconds to within 2^-15 s); not finite when [d] or [x] is not. *)
Definition float_date_plus (d x : float) : float :=
  match float_to_Q d, float_timedelta_us x with
  | Some qd, Some us => float_lit (qd + (us # 1000000))
  | _, _ => (d + x)%float
  end.

(** The seconds of 0001-01-01 and of the day after 9999-12-31. *)
Definition date_first : Z := 86400.
Definition date_end : Z := 3652060 * 86400.

Definition float_date_ok (d : float) : bool :=
  PrimFloat.leb (float_of_Z date_first) d && PrimFloat.ltb d (float_of_Z date_end).

#[export] Instance float_Scalar : Scalar float := {
  s_add := PrimFloat.add;
  s_sub := PrimFloat.sub;
  s_mul := PrimFloat.mul;
  s_div := PrimFloat.div;
  s_sqrt := PrimFloat.sqrt;
  s_lit := float_lit;
  s_of_int := float_of_Z;
  s_floordiv := float_floordiv;
  s_to_int := float_to_int;
  s_date_plus := float_date_plus;
  s_date_ok := float_date_ok
}.

(** *** Real numbers *)

Definition R_floordiv (x y : R) : option R :=
  if Req_dec_T y 0 then None else Some (IZR (Zfloor (x / y))).

Definition R_to_int (x : R) : exn + Z :=
  inr (if Rle_dec 0 x then Zfloor x else Zceil x).

Definition R_date_ok (d : R) : bool :=
  (if Rle_dec (IZR date_first) d then true else false)
  && (if Rlt_dec d (IZR date_end) then true else false).

#[export] Instance R_Scalar : Scalar R := {
  s_add := Rplus;
  s_sub := Rminus;
  s_mul := Rmult;
  s_div := Rdiv;
  s_sqrt := R_sqrt.sqrt;
  s_lit := Q2R;
  s_of_int := IZR;
  s_floordiv := R_floordiv;
  s_to_int := R_to_int;
  s_date_plus := Rplus;
  s_date_ok := R_date_ok
}.

(** ** The source's literals *)

Module Lit.
(* stepYoshida8, "CONSTANTS" *)
Definition w1 : Q := 0.311790812418427.
Definition w2 : Q := -1.55946803821447.
Definition w3 : Q := -1.67896928259640.
Definition w4 : Q := 1.66335809963315.
Definition w5 : Q := -1.06458714789183.
Definition w6 : Q := 1.36934946416871.
Definition w7 : Q := 0.629030650210433.
Definition w0 : Q := 1.65899088454396.

Definition ds : list Q :=
  [w7; w6; w5; w4; w3; w2; w1; w0; w1; w2; w3; w4; w5; w6; w7].

Definition cs : list Q :=
  [0.3145153251052165; 0.9991900571895715; 0.15238115813844;
   0.29938547587066; -0.007805591481624963;
   -1.619218660405435; -0.6238386128980216; 0.9853908484811935;
   0.9853908484811935; -0.6238386128980216;
   -1.619218660405435; -0.007805591481624963; 0.29938547587066;
   0.15238115813844; 0.9991900571895715;
   0.3145153251052165].

(* AU = 1.495979e8 # km *)
Definition AU : Q := 1.495979e8.

(* body_GMs in main *)
Definition body_GMs : list Q :=
  [2.2031780000000021E+04;
   3.2485859200000006E+05;
   4.0350323550225981E+05;
   4.2828375214000022E+04;
   1.2671276480000021E+08;
   3.7940585200000003E+07;
   5.7945486000000080E+06;
   6.8365271005800236E+06;
   1.3271244004193938e11].
End Lit.

Close Scope R_scope.
Close Scope Q_scope.

Definition body_names : list string :=
  ["MERCURY BARYCENTER"; "VENUS BARYCENTER"; "EARTH BARYCENTER";
   "MARS BARYCENTER"; "JUPITER BARYCENTER"; "SATURN BARYCENTER";
   "URANUS BARYCENTER"; "NEPTUNE BARYCENTER"; "SUN"]%string.


(** ** Vectors, objects, the store *)

Section Model.
Context {T : Type} {ST : Scalar T}.
Local Open Scope scalar_scope.

(** A numpy array of three components. *)
Record vec : Type := V3 { vx : T; vy : T; vz : T }.

Definition vadd (a b : vec) : vec := V3 (vx a + vx b) (vy a + vy b) (vz a + vz b).
Definition vsub (a b : vec) : vec := V3 (vx a - vx b) (vy a - vy b) (vz a - vz b).
(** array * scalar, array / scalar, scalar * array *)
Definition vmuls (a : vec) (k : T) : vec := V3 (vx a * k) (vy a * k) (vz a * k).
Definition vdivs (a : vec) (k : T) : vec := V3 (vx a / k) (vy a / k) (vz a / k).
Definition smulv (k : T) (a : vec) : vec := V3 (k * vx a) (k * vy a) (k * vz a).
(** np.array([0, 0, 0]) *)
Definition vzero : vec := V3 (s_of_int 0) (s_of_int 0) (s_of_int 0).
(** np.linalg.norm on a 1-d array: sqrt of the dot product with itself *)
Definition norm (a : vec) : T := s_sqrt (vx a * vx a + vy a * vy a + vz a * vz a).

(** class MainBody *)
Record MainBody : Type := mkMainBody { body_name : string; body_pos : vec; body_GM : T }.

(** class MP *)
Record MP : Type := mkMP { mp_des : string; mp_pos : vec; mp_vel : vec }.

(** What a run does to the objects, in order: [EvSetPos i imp] is the
    assignment to [mps[imp].pos] that uses [cs[i]], [EvSetVel i imp] the
    one to [mps[imp].vel] that uses [ds[i]], [EvAccel i imp bodies] the call
    [grav_accel(mps[imp], bodies)] in sub-step [i] with the bodies as they
    are at the call, and [EvSetBodyPos ib] the assignment to
    [bodies[ib].pos]. *)
Inductive event : Type :=
| EvSetPos (i imp : nat)
| EvAccel (i imp : nat) (bodies : list MainBody)
| EvSetVel (i imp : nat)
| EvSetBodyPos (ib : nat).

(** What the user sees: [print] of a text, [print] of a label and a number,
    and the prompts of [input]. *)
Inductive output : Type :=
| Print (s : string)
| PrintVal (label : string) (v : T)
| Input (prompt : string).

(** One line of [result_str]: the cycle's date, elapsed seconds, the
    positions of the bodies and of the minor planets. *)
Record record : Type := mkRecord {
  rec_date : T; rec_elapsed : T; rec_bodies : list vec; rec_mps : list vec }.

Record world : Type := mkWorld {
  w_mps : list MP;
  w_bodies : list MainBody;
  w_trace : list event;
  w_out : list output;
  w_result : list record
}.

Definition empty_world : world := mkWorld [] [] [] [] [].

Definition with_mps (l : list MP) (w : world) : world :=
  mkWorld l (w_bodies w) (w_trace w) (w_out w) (w_result w).
Definition with_bodies (l : list MainBody) (w : world) : world :=
  mkWorld (w_mps w) l (w_trace w) (w_out w) (w_result w).
Definition with_trace (l : list event) (w : world) : world :=
  mkWorld (w_mps w) (w_bodies w) l (w_out w) (w_result w).
Definition with_out (l : list output) (w : world) : world :=
  mkWorld (w_mps w) (w_bodies w) (w_trace w) l (w_result w).
Definition with_result (l : list record) (w : world) : world :=
  mkWorld (w_mps w) (w_bodies w) (w_trace w) (w_out w) l.

(** ** The monad *)

Definition M (A : Type) : Type := world -> (exn + A) * world.

Definition ret {A} (a : A) : M A := fun w => (inr a, w).
Definition raise {A} (e : exn) : M A := fun w => (inl e, w).
Definition bind {A B} (m : M A) (f : A -> M B) : M B :=
  fun w => match m w with
           | (inl e, w') => (inl e, w')
           | (inr a, w') => f a w'
           end.

Notation "x <- m ;; k" := (bind m (fun x => k))
  (at level 61, m at next level, right associativity).
Notation "m ;; k" := (bind m (fun _ => k))
  (at level 61, right associativity).

Definition get : M world := fun w => (inr w, w).
Definition modify (f : world -> world) : M unit := fun w => (inr tt, f w).
Definition log (e : event) : M unit := modify (fun w => with_trace (w_trace w ++ [e]) w).
Definition print (s : string) : M unit := modify (fun w => with_out (w_out w ++ [Print s]) w).
Definition print_val (l : string) (v : T) : M unit :=
  modify (fun w => with_out (w_out w ++ [PrintVal l v]) w).
Definition input (s : string) : M unit := modify (fun w => with_out (w_out w ++ [Input s]) w).

(** [l[i]] for a non-negative [i]. *)
Definition index {A} (l : list A) (i : nat) : M A :=
  match nth_error l i with Some a => ret a | None => raise IndexError end.

(** [for i in range(lo, lo + n)] *)
Fixpoint for_range (n lo : nat) (body : nat -> M unit) : M unit :=
  match n with
  | O => ret tt
  | S n' => body lo ;; for_range n' (S lo) body
  end.

(** [for x in l] *)
Fixpoint for_each {A} (l : list A) (body : A -> M unit) : M unit :=
  match l with
  | [] => ret tt
  | x :: l' => body x ;; for_each l' body
  end.

(** Replacing the element at an index that exists. *)
Fixpoint list_set {A} (l : list A) (i : nat) (a : A) : list A :=
  match l, i with
  | [], _ => []
  | _ :: l', O => a :: l'
  | x :: l', S i' => x :: list_set l' i' a
  end.

(** The objects of the list [mps], by position. *)
Definition len_mps : M nat := w <- get ;; ret (List.length (w_mps w)).
Definition get_mp (imp : nat) : M MP := w <- get ;; index (w_mps w) imp.
Definition get_bodies : M (list MainBody) := w <- get ;; ret (w_bodies w).

(** mp.pos = v, mp.vel = v, body.pos = v *)
Definition set_pos (i imp : nat) (v : vec) : M unit :=
  mp <- get_mp imp ;;
  modify (fun w => with_mps (list_set (w_mps w) imp (mkMP (mp_des mp) v (mp_vel mp))) w) ;;
  log (EvSetPos i imp).
Definition set_vel (i imp : nat) (v : vec) : M unit :=
  mp <- get_mp imp ;;
  modify (fun w => with_mps (list_set (w_mps w) imp (mkMP (mp_des mp) (mp_pos mp) v)) w) ;;
  log (EvSetVel i imp).
Definition set_body_pos (ib : nat) (v : vec) : M unit :=
  w <- get ;;
  b <- index (w_bodies w) ib ;;
  modify (fun w => with_bodies (list_set (w_bodies w) ib (mkMainBody (body_name b) v (body_GM b))) w) ;;
  log (EvSetBodyPos ib).

(** ** grav_accel (lines 146-156) *)

Definition grav_accel (mp : MP) (bodies : list MainBody) : vec :=
  fold_left
    (fun accel body =>
       let dist := norm (vsub (body_pos body) (mp_pos mp)) in
       let grav_dir := vdivs (vsub (body_pos body) (mp_pos mp)) dist in
       let grav_mag := body_GM body / (dist * dist) in
       vadd accel (smulv grav_mag grav_dir))
    bodies vzero.

(** ** stepYoshida8 (lines 158-189) *)

Definition w1 : T := s_lit Lit.w1.
Definition w2 : T := s_lit Lit.w2.
Definition w3 : T := s_lit Lit.w3.
Definition w4 : T := s_lit Lit.w4.
Definition w5 : T := s_lit Lit.w5.
Definition w6 : T := s_lit Lit.w6.
Definition w7 : T := s_lit Lit.w7.
Definition w0 : T := s_lit Lit.w0.

Definition ds : list T := [w7; w6; w5; w4; w3; w2; w1; w0; w1; w2; w3; w4; w5; w6; w7].
Definition cs : list T := map s_lit Lit.cs.

(** accels = []; for mp in mps: accels.append(grav_accel(mp, bodies)) *)
Fixpoint collect_accels (i n imp : nat) (accels : list vec) : M (list vec) :=
  match n with
  | O => ret accels
  | S n' =>
      mp <- get_mp imp ;;
      bodies <- get_bodies ;;
      log (EvAccel i imp bodies) ;;
      collect_accels i n' (S imp) (accels ++ [grav_accel mp bodies])
  end.

(** for mp in mps: mp.pos = mp.pos + mp.vel * cs[i] * dt *)
Definition drift_all (i : nat) (dt : T) : M unit :=
  n <- len_mps ;;
  for_range n 0 (fun imp =>
    mp <- get_mp imp ;;
    c <- index cs i ;;
    set_pos i imp (vadd (mp_pos mp) (vmuls (vmuls (mp_vel mp) c) dt))).

(** for imp, mp in enumerate(mps): mp.vel = mp.vel + accels[imp] * ds[i] * dt *)
Definition kick_all (i : nat) (accels : list vec) (dt : T) : M unit :=
  n <- len_mps ;;
  for_range n 0 (fun imp =>
    mp <- get_mp imp ;;
    a <- index accels imp ;;
    d <- index ds i ;;
    set_vel i imp (vadd (mp_vel mp) (vmuls (vmuls a d) dt))).

(** The lists [mps] and [bodies] the caller passes are the store's. *)
Definition stepYoshida8 (dt : T) : M unit :=
  for_range 15 0 (fun i =>
    drift_all i dt ;;
    n <- len_mps ;;
    accels <- collect_accels i n 0 [] ;;
    kick_all i accels dt) ;;
  drift_all 15 dt.

(** ** Strings *)

(** line.startswith(p) *)
Definition startswith (line p : string) : bool := String.prefix p line.

(** s.split(sep)[0] for a one-character separator *)
Fixpoint split_head (sep : ascii) (s : string) : string :=
  match s with
  | EmptyString => EmptyString
  | String c s' => if Ascii.eqb c sep then EmptyString else String c (split_head sep s')
  end.

(** s.replace of every space by nothing *)
Fixpoint remove_spaces (s : string) : string :=
  match s with
  | EmptyString => EmptyString
  | String c s' => if Ascii.eqb c " " then remove_spaces s' else String c (remove_spaces s')
  end.

(** s[n:] *)
Fixpoint drop_chars (n : nat) (s : string) : string :=
  match n, s with
  | O, _ => s
  | S n', EmptyString => EmptyString
  | S n', String _ s' => drop_chars n' s'
  end.

(** The characters str.strip() removes (within the 8-bit range modelled). *)
Definition is_space (c : ascii) : bool :=
  let n := nat_of_ascii c in
  ((9 <=? n) && (n <=? 13) || (28 <=? n) && (n <=? 32))%nat.

Fixpoint lstrip (s : string) : string :=
  match s with
  | EmptyString => EmptyString
  | String c s' => if is_space c then lstrip s' else s
  end.

Fixpoint rstrip (s : string) : string :=
  match s with
  | EmptyString => EmptyString
  | String c s' =>
      match rstrip s' with
      | EmptyString => if is_space c then EmptyString else String c EmptyString
      | r => String c r
      end
  end.

Definition strip (s : string) : string := rstrip (lstrip s).

(** ** The outside world *)

Record response : Type := mkResponse { status_code : Z; text : string }.

(** The library and network calls of the program.  Dates are [datetime]
    values; they are held as their number of seconds since the day before
    0001-01-01, so [strptime] yields a [T], and
    the calls that the program makes with a formatted date take the date.
    - [strptime s]: datetime.strptime(s, "%Y-%m-%d"); [None] is ValueError;
    - [float_of_string s]: float(s); [None] is ValueError;
    - [pattern_search line]: the groups 1 and 2 of pattern.search(line);
    - [requests_get bodyid start stop]: requests.get(url) for the url built
      from the body id and the two dates (the answer is a function of the
      request);
    - [position_findall], [velocity_findall]: the two findall of parseMPJPL;
    - [spkezr name date]: state[:3] of spice.spkezr at str2et of the date. *)
Record Env : Type := mkEnv {
  strptime : string -> option T;
  float_of_string : string -> option T;
  pattern_search : string -> option (string * string);
  requests_get : string -> T -> T -> response;
  position_findall : string -> list (string * string * string);
  velocity_findall : string -> list (string * string * string);
  spkezr : string -> T -> vec
}.

Variable env : Env.

Definition verbose : bool := false.
Definition AU : T := s_lit Lit.AU.

(** vprint (lines 84-87) *)
Definition vprint (s : string) : M unit := if verbose then print s else ret tt.

Definition float_ (s : string) : M T :=
  match float_of_string env s with Some x => ret x | None => raise ValueError end.

Definition floats3 (m : string * string * string) : M vec :=
  let '(a, b, c) := m in
  x <- float_ a ;; y <- float_ b ;; z <- float_ c ;; ret (V3 x y z).

(** ** parseMPJPL (lines 89-105) *)
Definition parseMPJPL (input_string : string) : M (vec * vec) :=
  let position_matches := position_findall env input_string in
  let velocity_matches := velocity_findall env input_string in
  if ((2 <=? List.length position_matches) && (2 <=? List.length velocity_matches))%nat then
    pm <- index position_matches 1 ;;
    position_array <- floats3 pm ;;
    vm <- index velocity_matches 1 ;;
    velocity_array <- floats3 vm ;;
    ret (position_array, velocity_array)
  else raise ValueError.

(** ** getMPJPL (lines 107-144) *)

(** One turn of the loop over enumerate(designations). *)
Definition getMPJPL_body (n i : nat) (des : string) (start_time stop_time : T)
    (state_vectors : list (vec * vec)) : M (list (vec * vec)) :=
  let bodyid := ("DES=" ++ des)%string in
  let response := requests_get env bodyid start_time stop_time in
  state_vectors' <-
    (if (status_code response =? 200)%Z then
       sv <- parseMPJPL (text response) ;;
       vprint (text response) ;;
       ret (state_vectors ++ [sv])
     else if (status_code response =? 400)%Z then
       print "Error 400 Bad Request" ;; ret state_vectors
     else if (status_code response =? 405)%Z then
       print "Error 400 Method Not Allowed" ;; ret state_vectors
     else if (status_code response =? 500)%Z then
       print "Error 400 Internal Server Error" ;; ret state_vectors
     else if (status_code response =? 503)%Z then
       print "Error 400 Server Unavailable" ;; ret state_vectors
     else ret state_vectors) ;;
  (if ((1 <? i) && (i mod 20 =? 0))%nat then
     print_val "Getting minor planet state vectors: %"
       (s_of_int (Z.of_nat i) / s_of_int (Z.of_nat n) * s_of_int 100)
   else ret tt) ;;
  ret state_vectors'.

Fixpoint getMPJPL_loop (n i : nat) (designations : list string) (start_time stop_time : T)
    (state_vectors : list (vec * vec)) : M (list (vec * vec)) :=
  match designations with
  | [] => ret state_vectors
  | des :: rest =>
      state_vectors' <- getMPJPL_body n i des start_time stop_time state_vectors ;;
      getMPJPL_loop n (S i) rest start_time stop_time state_vectors'
  end.

Definition getMPJPL (designations : list string) (start_time : T) : M (list (vec * vec)) :=
  let stop_time := start_time + s_of_int 86400 in
  (if s_date_ok stop_time then ret tt else raise OverflowError) ;;
  state_vectors <- getMPJPL_loop (List.length designations) 0 designations start_time stop_time [] ;;
  vprint "OK! Got minor planet state vectors from JPL!" ;;
  ret state_vectors.

(** ** read_config (lines 191-335)

    The part after the file has been opened and read: [lines] is what
    f.readlines() gave for [filename], [enter_to_quit] tells whether the
    name was asked for interactively.  Choosing the file name (arguments,
    help keys, the retry on FileNotFoundError) is not modelled. *)

(** The local variables that the loop over the lines may leave unbound. *)
Record locals : Type := mkLocals {
  l_t_0 : option T;
  l_t_f : option T;
  l_dt : option T;
  l_MPdes : list string;
  l_result_filename : option string
}.

Definition day : Z := 60 * 60 * 24.

Definition strptime_ (s : string) : M T :=
  match strptime env s with Some t => ret t | None => raise ValueError end.

(** The body of [for line in lines]. *)
Definition read_line (st : locals) (line : string) : M locals :=
  if startswith line "T0 " then
    t <- strptime_ (remove_spaces (remove_spaces (substring 3 10 (split_head ";" line)))) ;;
    ret (mkLocals (Some t) (l_t_f st) (l_dt st) (l_MPdes st) (l_result_filename st))
  else if startswith line "TF " then
    t <- strptime_ (remove_spaces (remove_spaces
           (split_head " " (substring 3 10 (split_head ";" line))))) ;;
    ret (mkLocals (l_t_0 st) (Some t) (l_dt st) (l_MPdes st) (l_result_filename st))
  else if startswith line "DT " then
    x <- float_ (remove_spaces (remove_spaces
           (split_head " " (split_head ";" (drop_chars 3 line))))) ;;
    ret (mkLocals (l_t_0 st) (l_t_f st) (Some (x * s_of_int day)) (l_MPdes st)
           (l_result_filename st))
  else if startswith line "MP " then
    match pattern_search env line with
    | Some (g1, g2) =>
        ret (mkLocals (l_t_0 st) (l_t_f st) (l_dt st)
               (l_MPdes st ++ [(g1 ++ " " ++ g2)%string]) (l_result_filename st))
    | None => raise AttributeError
    end
  else if startswith line "RF " then
    ret (mkLocals (l_t_0 st) (l_t_f st) (l_dt st) (l_MPdes st)
           (Some (strip (split_head ";" (drop_chars 3 line)))))
  else ret st.

Fixpoint read_lines (st : locals) (lines : list string) : M locals :=
  match lines with
  | [] => ret st
  | line :: rest => st' <- read_line st line ;; read_lines st' rest
  end.

(** quit() after the message of an unassigned directive *)
Definition not_assigned {A} (enter_to_quit : bool) (name : string) : M A :=
  print ("ERROR: " ++ name ++ " not assigned!") ;;
  (if enter_to_quit then input "Press Enter to quit." else ret tt) ;;
  raise SystemExit.

Record config : Type := mkConfig {
  cfg_t_0 : T; cfg_t_f : T; cfg_dt : T; cfg_MPdes : list string;
  cfg_result_filename : string; cfg_enter_to_quit : bool }.

(** Lines 279-335: what follows the loop over the lines. *)
Definition report_inputs (enter_to_quit : bool) (filename : string) (st : locals)
    : M config :=
  print ("Loading inputs from " ++ filename ++ " ...") ;;
  let MPdes := l_MPdes st in
  (match MPdes with
   | [] => print "Warning: No minor planet designations found in input file."
   | _ => ret tt
   end) ;;
  print EmptyString ;;
  print "Inputs:" ;;
  t_0 <- (match l_t_0 st with
          | Some t => print_val "T0" t ;; ret t
          | None => not_assigned enter_to_quit "T0"
          end) ;;
  t_f <- (match l_t_f st with
          | Some t => print_val "TF" t ;; ret t
          | None => not_assigned enter_to_quit "TF"
          end) ;;
  dt <- (match l_dt st with
         | Some t => print_val "DT seconds" t ;; ret t
         | None => not_assigned enter_to_quit "DT"
         end) ;;
  result_filename <- (match l_result_filename st with
                      | Some f => print ("RF " ++ f) ;; ret f
                      | None => not_assigned enter_to_quit "RF"
                      end) ;;
  (match MPdes with
   | [] => print "INFO: No minor planets found in input file."
   | _ =>
       if (List.length MPdes <? 20)%nat then
         print "DES" ;;
         for_each (removelast MPdes) print ;;
         print (last MPdes EmptyString)
       else print "There are lots of designations. Not printing them all for performance."
   end) ;;
  print EmptyString ;;
  ret (mkConfig t_0 t_f dt MPdes result_filename enter_to_quit).

Definition read_config (enter_to_quit : bool) (filename : string) (lines : list string)
    : M config :=
  print EmptyString ;;
  print ("Reading inputs from " ++ filename ++ "...") ;;
  st <- read_lines (mkLocals None None None [] None) lines ;;
  report_inputs enter_to_quit filename st.

(** ** main (lines 337-463) *)

Definition program_version : string := "2.2.0".
Definition authors : list string := ["H. A. Guler"%string].

Definition banner : M unit :=
  print " = = = MINORBIT = = =" ;;
  print ("Version " ++ program_version) ;;
  print "Authors: " ;;
  for_each (removelast authors) print ;;
  print (last authors EmptyString) ;;
  print EmptyString.

Definition append_mp (mp : MP) : M unit :=
  modify (fun w => with_mps (w_mps w ++ [mp]) w).
Definition append_body (b : MainBody) : M unit :=
  modify (fun w => with_bodies (w_bodies w ++ [b]) w).
Definition append_result (r : record) : M unit :=
  modify (fun w => with_result (w_result w ++ [r]) w).

(** SETUP, lines 358-363: the minor planets from their state vectors. *)
Definition setup_mps (MP_des : list string) (date_init : T) : M unit :=
  modify (with_mps []) ;;
  MP_statevectors <- getMPJPL MP_des date_init ;;
  for_range (List.length MP_des) 0 (fun i =>
    sv <- index MP_statevectors i ;;
    des <- index MP_des i ;;
    append_mp (mkMP des (fst sv) (snd sv))).

(** Lines 365-367: N_cycles and date_final_actual.  The difference of
    the two dates is the difference of their seconds.  A zero [dt] makes the
    floor division raise ZeroDivisionError, [int] raises on a NaN or an
    infinity, and the addition of the timedelta raises OverflowError when
    the final date lies outside the years 1 to 9999 (or is not finite). *)
Definition cycles (date_init date_final dt : T) : M (Z * T) :=
  let time_interval := date_final - date_init in
  q <- (match s_floordiv time_interval dt with
        | Some q => ret q
        | None => raise ZeroDivisionError
        end) ;;
  n <- (match s_to_int q with inr n => ret n | inl e => raise e end) ;;
  let N_cycles := (n + 1)%Z in
  let date_final_actual := s_date_plus date_init (s_of_int N_cycles * dt) in
  (if s_date_ok date_final_actual then ret tt else raise OverflowError) ;;
  ret (N_cycles, date_final_actual).

(** Lines 369-392: the nine bodies, at the origin until the first cycle. *)
Definition setup_bodies : M unit :=
  modify (with_bodies []) ;;
  for_range 9 0 (fun i =>
    name <- index body_names i ;;
    GM <- index (map s_lit Lit.body_GMs) i ;;
    append_body (mkMainBody name vzero GM)).

(** One turn of the MAIN LOOP, lines 400-424. *)
Definition cycle_body (date_init dt : T) (N_cycles : Z) (cycle : nat) : M unit :=
  let cycle_date := s_date_plus date_init (s_of_int (Z.of_nat cycle) * dt) in
  bodies <- get_bodies ;;
  for_range (List.length bodies) 0 (fun ib =>
    body <- index bodies ib ;;
    set_body_pos ib (spkezr env (body_name body) cycle_date)) ;;
  stepYoshida8 dt ;;
  w <- get ;;
  append_result (mkRecord cycle_date (s_of_int (Z.of_nat cycle) * dt)
                   (map body_pos (w_bodies w)) (map mp_pos (w_mps w))) ;;
  (if (cycle mod 200 =? 0)%nat then
     print_val "%" (s_of_int (Z.of_nat cycle) / s_of_int N_cycles * s_of_int 100)
   else ret tt).

Definition main_loop (date_init dt : T) (N_cycles : Z) : M unit :=
  modify (with_result []) ;;
  print EmptyString ;;
  print "Propagation starts..." ;;
  for_range (Z.to_nat N_cycles) 0 (cycle_body date_init dt N_cycles) ;;
  print "Propagation complete.".

(** "check accuracy", lines 435-446 *)
Fixpoint collect_errors (n i : nat) (MP_statevectors_final : list (vec * vec))
    (mp_pos_errors : list T) : M (list T) :=
  match n with
  | O => ret mp_pos_errors
  | S n' =>
      mp <- get_mp i ;;
      sv <- index MP_statevectors_final i ;;
      let error := norm (vsub (mp_pos mp) (fst sv)) / AU in
      collect_errors n' (S i) MP_statevectors_final (mp_pos_errors ++ [error])
  end.

Definition validation (MP_des : list string) (date_final_actual : T) : M unit :=
  MP_statevectors_final <- getMPJPL MP_des date_final_actual ;;
  n <- len_mps ;;
  mp_pos_errors <- collect_errors n 0 MP_statevectors_final [] ;;
  print EmptyString ;;
  print "Validation - Minor planet final position errors:" ;;
  for_each mp_pos_errors (print_val "AU").

(** "file output" and the end of the program, lines 448-463; the write of
    [result_str] to the file is shown as a line of output. *)
Definition file_output (result_filename : string) (enter_to_quit : bool) : M unit :=
  print EmptyString ;;
  print ("Writing results to " ++ result_filename ++ " ...") ;;
  print "Results exported." ;;
  print EmptyString ;;
  print "END PROGRAM" ;;
  (if enter_to_quit then input "Press Enter to quit." else ret tt).

Definition main (enter_to_quit : bool) (filename : string) (lines : list string) : M unit :=
  banner ;;
  cfg <- read_config enter_to_quit filename lines ;;
  let date_init := cfg_t_0 cfg in
  let date_final := cfg_t_f cfg in
  let dt := cfg_dt cfg in
  setup_mps (cfg_MPdes cfg) date_init ;;
  c <- cycles date_init date_final dt ;;
  let '(N_cycles, date_final_actual) := c in
  setup_bodies ;;
  main_loop date_init dt N_cycles ;;
  validation (cfg_MPdes cfg) date_final_actual ;;
  file_output (cfg_result_filename cfg) (cfg_enter_to_quit cfg).

End Model.

Notation "x <- m ;; k" := (bind m (fun x => k))
  (at level 61, m at next level, right associativity).
Notation "m ;; k" := (bind m (fun _ => k))
  (at level 61, right associativity).

(** ** Stand-ins for the libraries

    Executable versions of the library calls, for running the model:
    the calendar of [datetime], [strptime] with the format "%Y-%m-%d",
    [float] on plain decimals, and the search of the designation pattern. *)

Definition is_digit (c : ascii) : bool :=
  let n := nat_of_ascii c in ((48 <=? n) && (n <=? 57))%nat.

Definition is_alnum (c : ascii) : bool :=
  let n := nat_of_ascii c in
  (is_digit c || (65 <=? n) && (n <=? 90) || (97 <=? n) && (n <=? 122))%nat.

Fixpoint digits_value (s : string) (acc : Z) : option Z :=
  match s with
  | EmptyString => Some acc
  | String c s' =>
      if is_digit c then digits_value s' (10 * acc + Z.of_nat (nat_of_ascii c) - 48)%Z
      else None
  end.

Definition number (s : string) : option Z :=
  match s with
  | EmptyString => None
  | _ => digits_value s 0
  end.

Definition is_leap (y : Z) : bool :=
  ((y mod 4 =? 0) && (negb (y mod 100 =? 0) || (y mod 400 =? 0)))%Z.

Definition days_in_month (y m : Z) : Z :=
  if (m =? 2)%Z then (if is_leap y then 29 else 28)
  else if ((m =? 4) || (m =? 6) || (m =? 9) || (m =? 11))%Z then 30 else 31.

Definition days_before_year (y : Z) : Z :=
  let p := (y - 1)%Z in (p * 365 + p / 4 - p / 100 + p / 400)%Z.

Fixpoint days_before_month (y : Z) (m : nat) : Z :=
  match m with
  | O => 0
  | S m' => (days_before_month y m' + days_in_month y (Z.of_nat m))%Z
  end.

(** The proleptic Gregorian ordinal of a date, 0001-01-01 being day 1. *)
Definition ymd2ord (y m d : Z) : Z :=
  (days_before_year y + days_before_month y (Z.to_nat (m - 1)) + d)%Z.

(** Midnight of a date, in seconds. *)
Definition date {T} {ST : Scalar T} (y m d : Z) : T := s_of_int (ymd2ord y m d * 86400).

Definition strptime_ymd {T} {ST : Scalar T} (s : string) : option T :=
  let ys := split_head "-" s in
  let r1 := drop_chars (S (String.length ys)) s in
  let ms := split_head "-" r1 in
  let dd := drop_chars (S (String.length ms)) r1 in
  match number ys, number ms, number dd with
  | Some y, Some m, Some d =>
      if ((String.length ys =? 4)%nat && (String.length ms <=? 2)%nat
          && (String.length dd <=? 2)%nat
          && (1 <=? y) && (1 <=? m) && (m <=? 12) && (1 <=? d)
          && (d <=? days_in_month y m))%Z
      then Some (date y m d) else None
  | _, _, _ => None
  end.

(** float(s) for an optional sign, digits and an optional fraction. *)
Definition float_decimal {T} {ST : Scalar T} (s : string) : option T :=
  let s := strip s in
  let '(neg, s) := match s with
                   | String "-" r => (true, r)
                   | String "+" r => (false, r)
                   | _ => (false, s)
                   end in
  let ip := split_head "." s in
  let fp := drop_chars (S (String.length ip)) s in
  match digits_value ip 0, digits_value fp 0 with
  | Some a, Some b =>
      if ((String.length ip + String.length fp =? 0)%nat) then None
      else
        let q := match fp with
                 | EmptyString => inject_Z a
                 | _ => Qplus (inject_Z a) (Qmake b (Pos.pow 10 (Pos.of_nat (String.length fp))))
                 end in
        Some (s_lit (if neg then Qopp q else q))
  | _, _ => None
  end.

Fixpoint take_while (p : ascii -> bool) (s : string) : string :=
  match s with
  | EmptyString => EmptyString
  | String c s' => if p c then String c (take_while p s') else EmptyString
  end.

(** The match of four digits, a space character and a run of letters and
    digits at the start of [s]. *)
Definition designation_at (s : string) : option (string * string) :=
  match s with
  | String a (String b (String c (String d (String e r)))) =>
      if is_digit a && is_digit b && is_digit c && is_digit d && is_space e then
        match take_while is_alnum r with
        | EmptyString => None
        | g2 => Some (String a (String b (String c (String d EmptyString))), g2)
        end
      else None
  | _ => None
  end.

(** pattern.search: the leftmost match. *)
Fixpoint designation_search (s : string) : option (string * string) :=
  match designation_at s with
  | Some g => Some g
  | None => match s with
            | EmptyString => None
            | String _ s' => designation_search s'
            end
  end.

(** ** The integrator step, in the specification's words *)

Section Specification.
Context {T : Type} {ST : Scalar T}.

(** [c[i]] and [d[i]] *)
Definition coef (l : list T) (i : nat) : T := nth i l (s_of_int 0).

(** Drift: position += velocity * c * dt. *)
Definition drift (c dt : T) (mp : MP) : MP :=
  mkMP (mp_des mp) (vadd (mp_pos mp) (vmuls (vmuls (mp_vel mp) c) dt)) (mp_vel mp).

(** Kick: velocity += accel * d * dt. *)
Definition kick (d dt : T) (mp : MP) (accel : vec) : MP :=
  mkMP (mp_des mp) (mp_pos mp) (vadd (mp_vel mp) (vmuls (vmuls accel d) dt)).

(** Sub-step [i]: every particle drifts; then every acceleration is taken
    at the drifted positions, from the given bodies; then every particle is
    kicked with its acceleration. *)
Definition substep_spec (bodies : list MainBody) (dt : T) (mps : list MP) (i : nat)
    : list MP :=
  let drifted := map (drift (coef cs i) dt) mps in
  let accels := map (fun mp => grav_accel mp bodies) drifted in
  map (fun ma => kick (coef ds i) dt (fst ma) (snd ma)) (combine drifted accels).

(** Sub-steps 0..14 in order, then the final drift with [c[15]]. *)
Definition yoshida8_spec (bodies : list MainBody) (dt : T) (mps : list MP) : list MP :=
  map (drift (coef cs 15) dt) (fold_left (substep_spec bodies dt) (seq 0 15) mps).

(** What sub-step [i] does to [n] particles, in order. *)
Definition substep_trace (n : nat) (bodies : list MainBody) (i : nat)
    : list (event (T:=T)) :=
  map (EvSetPos i) (seq 0 n)
  ++ map (fun imp => EvAccel i imp bodies) (seq 0 n)
  ++ map (EvSetVel i) (seq 0 n).

Definition yoshida8_trace (n : nat) (bodies : list MainBody) : list (event (T:=T)) :=
  flat_map (substep_trace n bodies) (seq 0 15) ++ map (EvSetPos 15) (seq 0 n).



(** The element-wise update of a list with the position of each element. *)
Fixpoint mapi_from {A B} (f : nat -> A -> B) (lo : nat) (l : list A) : list B :=
  match l with
  | [] => []
  | x :: l' => f lo x :: mapi_from f (S lo) l'
  end.

End Specification.

(** ** Notions used in the statements *)

(** [before e1 e2 l]: in [l], an occurrence of [e1] precedes one of [e2]. *)
Definition before {A} (e1 e2 : A) (l : list A) : Prop :=
  exists l1 l2 l3, l = l1 ++ e1 :: l2 ++ e2 :: l3.

(** [respects_bodies bodies e]: the event [e] writes no attribute of a body
    and, if it is a call of grav_accel, the call sees exactly [bodies]. *)
Definition respects_bodies {T} (bodies : list (MainBody (T:=T))) (e : event (T:=T)) : Prop :=
  match e with
  | EvSetBodyPos _ => False
  | EvAccel _ _ seen => seen = bodies
  | EvSetPos _ _ => True
  | EvSetVel _ _ => True
  end.

Section CycleSpecification.
Context {T : Type} {ST : Scalar T}.
Variable env : Env (T:=T).

(** A body after its position has been resolved for a date. *)
Definition resolve (cycle_date : T) (body : MainBody) : MainBody :=
  mkMainBody (body_name body) (spkezr env (body_name body) cycle_date) (body_GM body).

Definition cycle_date_of (date_init dt : T) (cycle : nat) : T :=
  s_date_plus date_init (s_of_int (Z.of_nat cycle) * dt)%sc.

Definition progress_line (N_cycles : Z) (cycle : nat) : list (output (T:=T)) :=
  if cycle mod 200 =? 0
  then [PrintVal "%" (s_of_int (Z.of_nat cycle) / s_of_int N_cycles * s_of_int 100)%sc]
  else [].

End CycleSpecification.

(** *** Uniform motion, in exact arithmetic *)


(** The sum of the position weights with the given indices. *)
Definition coef_sum (l : list nat) : R :=
  fold_right (fun i s => (coef cs i + s)%R) 0%R l.

(** sum(c[0..15]), over the real numbers *)
Definition sigma_c : R := coef_sum (seq 0 16).


Definition sum_Q (l : list Q) : Q := fold_right Qplus 0%Q l.


(** *** Binary64 values *)

(** The double is a number: neither an infinity nor a NaN. *)
Definition finite (x : float) : bool :=
  match float_to_Q x with Some _ => true | None => false end.


(** *** Inputs on binary64 *)

(** The end of a line of the configuration file. *)
Definition nl : string := String (ascii_of_nat 10) EmptyString.

(** A world in which every request to the state-vector service gets the
    status [status], every successful answer parses to the position
    (1, 0, 0) and the velocity (0, 1, 0), and every body is at (0, 0, 1). *)
Definition stub_env (status : Z) : Env (T:=float) :=
  mkEnv strptime_ymd float_decimal designation_search
    (fun _ _ _ => mkResponse status "$$SOE ... $$EOE")
    (fun _ => [("0", "0", "0"); ("1", "0", "0")]%string)
    (fun _ => [("0", "0", "0"); ("0", "1", "0")]%string)
    (fun _ _ => V3 (float_of_Z 0) (float_of_Z 0) (float_of_Z 1)).

(** T0 2024-01-01, TF 2024-01-11, DT 2, RF out.txt and one minor planet *)
Definition config_2024 : list string :=
  ["T0 2024-01-01" ++ nl; "TF 2024-01-11" ++ nl; "DT 2 ; days" ++ nl;
   "RF out.txt" ++ nl; "MP 2017 BX232" ++ nl]%string.


(** A configuration without its T0 line. *)
Definition config_no_T0 : list string :=
  ["TF 2024-01-11" ++ nl; "DT 2" ++ nl; "RF out.txt" ++ nl; "MP 2017 BX232" ++ nl]%string.

Definition two_days : float := (float_of_Z 2 * float_of_Z day)%float.

(** *** Inputs over the real numbers *)


(** *** What a part of the run leaves alone *)

(** Nothing of a propagation has happened between two stores: no event,
    no record, the bodies as they were. *)
Definition untouched_run {T} (w w' : world (T:=T)) : Prop :=
  w_trace w' = w_trace w /\ w_result w' = w_result w /\ w_bodies w' = w_bodies w.

(** The objects of a store are as they were and nothing of a propagation
    has happened: only the output may differ. *)
Definition same_objects {T} (w w' : world (T:=T)) : Prop :=
  w_mps w' = w_mps w /\ untouched_run w w'.

(** A relation between stores that holds across printing. *)
Class Frame {T} (R : world (T:=T) -> world (T:=T) -> Prop) : Prop := {
  frame_refl : forall w, R w w;
  frame_trans : forall w1 w2 w3, R w1 w2 -> R w2 w3 -> R w1 w3;
  frame_out : forall w o, R w (with_out o w)
}.

(** Every run of the computation relates the store before to the store
    after. *)
Definition preserves {T A} (R : world (T:=T) -> world (T:=T) -> Prop) (m : M A) : Prop :=
  forall w, R w (snd (m w)).

(** The requests of a retrieval that succeed. *)
Definition succeeded {T} {ST : Scalar T} (env : Env (T:=T)) (start_time stop_time : T)
    (designations : list string) : list string :=
  filter (fun des =>
            (status_code (requests_get env ("DES=" ++ des) start_time stop_time) =? 200)%Z)
    designations.

(** *** The configuration *)

(** No line of the file starts with the directive. *)
Definition absent (directive : string) (lines : list string) : Prop :=
  Forall (fun line => startswith line directive = false) lines.

(** The lines other than a directive's leave its variable as it is. *)
Definition keeps {T} (P : string -> Prop) (st st' : locals (T:=T)) : Prop :=
  (P "T0 "%string -> l_t_0 st' = l_t_0 st)
  /\ (P "TF "%string -> l_t_f st' = l_t_f st)
  /\ (P "DT "%string -> l_dt st' = l_dt st)
  /\ (P "RF "%string -> l_result_filename st' = l_result_filename st).

Definition required : list string := ["T0"; "TF"; "DT"; "RF"]%string.

(** *** Validation *)

(** |propagated_position - true_position| / AU *)
Definition position_error {T} {ST : Scalar T} (mp : MP (T:=T)) (sv : vec (T:=T) * vec (T:=T))
    : T :=
  (norm (vsub (mp_pos mp) (fst sv)) / AU)%sc.

(** A truth source that places every particle at (1 + 1.495979e8, 0, 0). *)
Definition truth_env : Env (T:=float) :=
  mkEnv strptime_ymd float_decimal designation_search
    (fun _ _ _ => mkResponse 200 "$$SOE ... $$EOE")
    (fun _ => [("0", "0", "0"); ("149597901", "0", "0")]%string)
    (fun _ => [("0", "0", "0"); ("0", "1", "0")]%string)
    (fun _ _ => V3 (float_of_Z 0) (float_of_Z 0) (float_of_Z 1)).

(** One propagated particle, at (1, 0, 0). *)
Definition propagated_world : world (T:=float) :=
  mkWorld [mkMP "2017 BX232" (V3 (float_of_Z 1) (float_of_Z 0) (float_of_Z 0))
             (V3 (float_of_Z 0) (float_of_Z 1) (float_of_Z 0))]
    [] [] [] [].

Definition truth_vectors : list (vec (T:=float) * vec (T:=float)) :=
  [(V3 (float_of_Z 149597901) (float_of_Z 0) (float_of_Z 0),
    V3 (float_of_Z 0) (float_of_Z 1) (float_of_Z 0))].

(** What read_config returns for [config_2024], and the store it leaves. *)
Definition config_2024_read : config (T:=float) :=
  mkConfig (date 2024 1 1) (date 2024 1 11) two_days ["2017 BX232"%string] "out.txt" false.

Definition after_config_2024 : world (T:=float) :=
  snd (read_config (stub_env 503) false "minorbit.txt" config_2024 (snd (banner empty_world))).

(** ** read_config: the choice of the file (lines 196-281)

    [sys_args] is sys.argv, [answer] what is typed at the prompt for the
    file name (read only when no argument is given), and [files] the files
    that can be opened, with their lines; opening any other name raises
    FileNotFoundError. *)

Definition help_keys : list string := ["-h"; "--help"; "help"]%string.
Definition license_keys : list string := ["--license"; "license"]%string.
Definition citation_keys : list string := ["--citation"; "citation"]%string.

Definition help_text : string :=
  String.concat nl
    [EmptyString;
     "MINORBIT2 Help";
     "======================";
     "MINORBIT2 is an n-body propagator for minor planets.";
     EmptyString;
     "The inputs can be defined using a TXT file. Create a file containing the following";
     "lines:";
     EmptyString;
     "T0 YYYY-MM-DD";
     "TF YYYY-MM-DD";
     "DT XX";
     EmptyString;
     "The T0 line defines the simulation initial time, TF line defines the simulation";
     "end time, DT line defines the orbit propagator time step length in days. Then,";
     "define the minor planets that will be simulated, with one minor planet on each line,";
     "using MP lines as follows.";
     EmptyString;
     "MP 2017 BX232";
     "MP 2017 AC64";
     "MP 2017 BM230";
     EmptyString;
     "Save the TXT file and provide it as an argument to the program, i.e.:";
     "'minorbit2.py example.txt'";
     EmptyString;
     "If no files are provided as an argument, the program will ask for a filename at";
     "initialization. If still no filename is provided (Enter is pressed), it will,";
     "by default, attempt to read 'minorbit.txt'.";
     EmptyString;
     "COPYRIGHT AND CITATION";
     "======================";
     "Minorbit2 is licensed under the terms of MIT License.";
     "Please run the program with '--license' argument to print more details.";
     EmptyString;
     "If you use MINORBIT2 or any derived software for your research, I'd like to";
     "hear about it!";
     EmptyString;
     "Please run the program with '--citation' argument to print a citation example.";
     EmptyString;
     "ISSUES";
     "======================";
     "Bug reports should go to github.com/arda-guler/minorbit2";
     EmptyString]%string.

Definition citation_text : string :=
  String.concat nl
    [EmptyString;
     "Example APA citation:";
     EmptyString;
     "Guler, H. A., (2024). Minorbit2 (Version 2.2.0) [Source code].";
     "Retrieved from https://github.com/arda-guler/minorbit2";
     EmptyString]%string.

Definition license_text : string :=
  String.concat nl
    [EmptyString;
     "Minorbit2 is licensed under the terms of MIT License.";
     "See the license text at https://github.com/arda-guler/minorbit2/blob/master/LICENSE";
     EmptyString]%string.

(** s.lower(): the letters A to Z; the other characters are left as they
    are (no key has a character outside ASCII). *)
Definition lower_char (c : ascii) : ascii :=
  let n := nat_of_ascii c in
  if ((65 <=? n) && (n <=? 90))%nat then ascii_of_nat (n + 32) else c.

Fixpoint lower (s : string) : string :=
  match s with
  | EmptyString => EmptyString
  | String c s' => String (lower_char c) (lower s')
  end.

(** c in s, for a character *)
Fixpoint contains (c : ascii) (s : string) : bool :=
  match s with
  | EmptyString => false
  | String c' s' => Ascii.eqb c' c || contains c s'
  end.

(** s.endswith(suffix) *)
Definition endswith (s suffix : string) : bool :=
  (String.length suffix <=? String.length s)%nat
  && String.eqb (substring (String.length s - String.length suffix) (String.length suffix) s)
       suffix.

(** s in keys *)
Definition among (s : string) (keys : list string) : bool := existsb (String.eqb s) keys.

Section ChoiceOfFile.
Context {T : Type} {ST : Scalar T}.
Variable env : Env (T:=T).
Variable files : string -> option (list string).

(** print(text); input("Press Enter to quit..."); exit() *)
Definition show_and_exit {A} (text : string) : M (T:=T) A :=
  print text ;; input "Press Enter to quit..." ;; raise SystemExit.

(** The chain over help_keys, citation_keys and license_keys. *)
Definition check_keys (filename : string) : M (T:=T) unit :=
  if among (lower filename) help_keys then show_and_exit help_text
  else if among (lower filename) citation_keys then show_and_exit citation_text
  else if among (lower filename) license_keys then show_and_exit license_text
  else ret tt.

(** Lines 196-240: enter_to_quit and the file name. *)
Definition choose_file (sys_args : list string) (answer : string) : M (T:=T) (bool * string) :=
  if (List.length sys_args <? 2)%nat then
    input "Input filename (type 'help' for help): " ;;
    match answer with
    | EmptyString => ret (true, "minorbit.txt"%string)
    | _ => check_keys answer ;; ret (true, answer)
    end
  else
    filename <- index sys_args 1 ;;
    check_keys filename ;;
    ret (false, if negb (contains "." filename) then (filename ++ ".txt")%string else filename).

(** The loop of lines 248-280: [None] when the turns allowed by [fuel] are
    used up, else the name of the file that was read and the variables that
    its lines have set. *)
Fixpoint open_loop (fuel : nat) (enter_to_quit : bool) (filename : string)
    : M (T:=T) (option (string * locals)) :=
  match fuel with
  | O => ret None
  | S fuel' =>
      match files filename with
      | Some lines =>
          st <- read_lines env (mkLocals None None None [] None) lines ;;
          ret (Some (filename, st))
      | None =>
          print ("File '" ++ filename ++ "' not found!") ;;
          if negb (endswith filename ".txt") then
            open_loop fuel' enter_to_quit (filename ++ ".txt")%string
          else
            (if enter_to_quit then input "Press Enter to quit." else ret tt) ;;
            raise SystemExit
      end
  end.

(** read_config(sys_args), lines 191-335. *)
Definition read_config_args (fuel : nat) (sys_args : list string) (answer : string)
    : M (T:=T) (option config) :=
  choice <- choose_file sys_args answer ;;
  print EmptyString ;;
  print ("Reading inputs from " ++ snd choice ++ "...") ;;
  r <- open_loop fuel (fst choice) (snd choice) ;;
  match r with
  | None => ret None
  | Some (filename, st) =>
      cfg <- report_inputs (fst choice) filename st ;;
      ret (Some cfg)
  end.

End ChoiceOfFile.

(** ** Notions used in the further properties *)

Section StepNotions.
Context {T : Type} {ST : Scalar T}.

(** What a macro step does to one particle: sub-steps 0..14 (drift, then
    kick with the acceleration at the drifted position), then the last
    drift. *)
Definition step_particle (bodies : list MainBody) (dt : T) (mp : MP) : MP :=
  drift (coef cs 15) dt
    (fold_left
       (fun m i =>
          kick (coef ds i) dt (drift (coef cs i) dt m)
            (grav_accel (drift (coef cs i) dt m) bodies))
       (seq 0 15) mp).


End StepNotions.

(** Half the sum of the velocity weights on the two sides of the position
    weight [i] (none before the first and after the last). *)
Definition mean_of_neighbours (i : nat) : Q :=
  ((match i with O => 0 | S j => nth j Lit.ds 0 end) + nth i Lit.ds 0)%Q / 2%Q.

(** *** Retrieval *)

Section RetrievalNotions.
Context {T : Type} {ST : Scalar T}.
Variable env : Env (T:=T).

(** What parseMPJPL makes of the answer to the request for a designation at
    a start time. *)
Definition state_vector (start_time : T) (des : string) : exn + (vec * vec) :=
  fst (parseMPJPL env
         (text (requests_get env ("DES=" ++ des) start_time (start_time + s_of_int 86400)%sc))
         empty_world).

(** The particle that the set-up builds for a designation. *)
Definition particle_of (start_time : T) (des : string) : option MP :=
  match state_vector start_time des with
  | inr sv => Some (mkMP des (fst sv) (snd sv))
  | inl _ => None
  end.

(** The lines of output of a retrieval: a message that starts with
    Error 400, or a progress line. *)
Definition retrieval_line (o : output (T:=T)) : Prop :=
  match o with
  | Print s => startswith s "Error 400 " = true
  | PrintVal label _ => label = "Getting minor planet state vectors: %"%string
  | Input _ => False
  end.

(** Every run of the computation changes the store by adding lines of
    output that satisfy [P], and in no other way. *)
Definition says {A} (P : output (T:=T) -> Prop) (m : M (T:=T) A) : Prop :=
  forall w, exists lines, snd (m w) = with_out (w_out w ++ lines) w /\ Forall P lines.

(** The computation neither reads nor changes the store, and raises nothing
    but ValueError. *)
Definition parses {A} (m : M (T:=T) A) : Prop :=
  forall w, m w = (fst (m empty_world), w)
            /\ forall e, fst (m empty_world) = inl e -> e = ValueError.

(** The status codes that getMPJPL tells apart. *)
Definition known_status (status : Z) : bool :=
  existsb (Z.eqb status) [200; 400; 405; 500; 503]%Z.

End RetrievalNotions.

(** A service that answers every request with the status 200 and a text
    without state vectors. *)
Definition no_vectors_env : Env (T:=float) :=
  mkEnv strptime_ymd float_decimal designation_search
    (fun _ _ _ => mkResponse 200 "No ephemeris for target")
    (fun _ => []) (fun _ => [])
    (fun _ _ => V3 (float_of_Z 0) (float_of_Z 0) (float_of_Z 1)).

(** *** The number of cycles *)

(** The file of [config_2024] with a time step of zero days. *)
Definition config_zero_step : list string :=
  ["T0 2024-01-01" ++ nl; "TF 2024-01-11" ++ nl; "DT 0 ; days" ++ nl;
   "RF out.txt" ++ nl; "MP 2017 BX232" ++ nl]%string.

(** *** The main loop *)

Section LoopNotions.
Context {T : Type} {ST : Scalar T}.
Variable env : Env (T:=T).

(** The particles after [k] cycles: in the cycle [j] every particle makes
    one macro step among the bodies as they are at that cycle's date. *)
Fixpoint propagate (date_init dt : T) (bodies : list MainBody) (k : nat) (mps : list MP)
    : list MP :=
  match k with
  | O => mps
  | S j =>
      map (step_particle (map (resolve env (cycle_date_of date_init dt j)) bodies) dt)
        (propagate date_init dt bodies j mps)
  end.

(** The bodies after [k] cycles. *)
Definition bodies_after (date_init dt : T) (bodies : list MainBody) (k : nat)
    : list MainBody :=
  match k with
  | O => bodies
  | S j => map (resolve env (cycle_date_of date_init dt j)) bodies
  end.

End LoopNotions.

(** *** Motion without force *)

Section FreeMotion.
Context {T : Type} {ST : Scalar T}.




End FreeMotion.

(** On binary64.  The double is +0.0 or -0.0. *)
Definition zero_valued (x : float) : bool :=
  match Prim2SF x with S754_zero _ => true | _ => false end.












(** *** The lines of the configuration *)

(** The character does not occur in the string. *)
Fixpoint lacks (c : ascii) (s : string) : bool :=
  match s with
  | EmptyString => true
  | String c' s' => negb (Ascii.eqb c' c) && lacks c s'
  end.

(** The line is a T0, TF, DT or RF line. *)
Definition valued (line : string) : bool :=
  startswith line "T0 " || startswith line "TF " || startswith line "DT "
  || startswith line "RF ".

(** *** The choice of the file *)

(** Every key of the three lists. *)
Definition all_keys : list string := help_keys ++ citation_keys ++ license_keys.

(** A directory that holds the file of [config_2024] under the name
    run.txt, and nothing else. *)
Definition files_2024 (name : string) : option (list string) :=
  if String.eqb name "run.txt" then Some config_2024 else None.

(** A service that has 2017 BX232 at (1, 0, 0) and every other minor planet
    at (2, 0, 0), but answers the request for 2017 AC64 with the status
    503. *)
Definition mixed_env : Env (T:=float) :=
  mkEnv strptime_ymd float_decimal designation_search
    (fun bodyid _ _ =>
       if String.eqb bodyid "DES=2017 AC64" then mkResponse 503 EmptyString
       else mkResponse 200 bodyid)
    (fun text =>
       [("0", "0", "0");
        (if String.eqb text "DES=2017 BX232" then "1" else "2", "0", "0")]%string)
    (fun _ => [("0", "0", "0"); ("0", "1", "0")]%string)
    (fun _ _ => V3 (float_of_Z 0) (float_of_Z 0) (float_of_Z 1)).

(** Three minor planets, the second of which [mixed_env] does not deliver. *)
Definition three_designations : list string :=
  ["2017 BX232"; "2017 AC64"; "2017 BM230"]%string.

(** * Proofs *)

(** ** Checks of the model on concrete inputs *)

Example ymd2ord_2024 :
  ymd2ord 2024 1 1 = 738886%Z /\ ymd2ord 1 1 1 = 1%Z /\ ymd2ord 2024 3 1 = 738946%Z.
Proof. repeat split. Qed.

Example twelve_days :
  (date 2024 1 13 - date 2024 1 1)%float = float_of_Z (12 * day).
Proof. vm_compute. reflexivity. Qed.

(** Floor division and int() as Python has them: 1.0 // 0.1 is 9.0, because
    the double 0.1 is above one tenth; 7.0 // -2.0 is -4.0; int(-3.7) is
    -3; x // 0.0 raises. *)
Example python_floordiv :
  float_floordiv (float_of_Z 1) (float_lit 0.1) = Some (float_of_Z 9)
  /\ float_floordiv (float_of_Z 7) (float_of_Z (-2)) = Some (float_of_Z (-4))
  /\ float_to_int (float_lit (-3.7)) = inr (-3)%Z
  /\ float_floordiv (float_of_Z 1) (float_of_Z 0) = None.
Proof. vm_compute. repeat split. Qed.

Example directive_strings :
  split_head ";" "DT 2 ; days" = "DT 2 "%string
  /\ substring 3 10 ("T0 2024-01-01" ++ nl) = "2024-01-01"%string
  /\ strip (split_head ";" (drop_chars 3 ("RF  out.txt ; results" ++ nl))) = "out.txt"%string
  /\ designation_search ("MP 2017 BX232" ++ nl) = Some ("2017", "BX232")%string
  /\ designation_search "MP 17 BX232" = None.
Proof. vm_compute. repeat split. Qed.

Example read_config_2024 :
  fst (read_config (stub_env 200) false "minorbit.txt" config_2024 empty_world)
  = inr config_2024_read.
Proof. vm_compute. reflexivity. Qed.

Section MonadFacts.
Context {T : Type} {ST : Scalar T}.

Lemma bind_inr A B (m : M A) (f : A -> M B) (w w' : world (T:=T)) (a : A) :
  m w = (inr a, w') -> bind m f w = f a w'.
Proof. intros H. unfold bind. now rewrite H. Qed.

Lemma bind_inl A B (m : M A) (f : A -> M B) (w w' : world (T:=T)) (e : exn) :
  m w = (inl e, w') -> bind m f w = (inl e, w').
Proof. intros H. unfold bind. now rewrite H. Qed.

Lemma nth_error_middle A (done rest : list A) (x : A) :
  nth_error (done ++ x :: rest) (List.length done) = Some x.
Proof. induction done; simpl; auto. Qed.

Lemma list_set_middle A (done rest : list A) (x y : A) :
  list_set (done ++ x :: rest) (List.length done) y = done ++ y :: rest.
Proof. induction done; simpl; congruence. Qed.

Lemma list_set_length A (l : list A) (i : nat) (a : A) :
  List.length (list_set l i a) = List.length l.
Proof. revert i. induction l; intros [|i]; simpl; auto. Qed.

Lemma mapi_from_const A B (f : A -> B) (l : list A) (lo : nat) :
  mapi_from (fun _ => f) lo l = map f l.
Proof. revert lo. induction l; intros; simpl; congruence. Qed.

Lemma mapi_from_combine A B (f : A -> B -> A) (l : list A) :
  forall (pre accs : list B),
    List.length l <= List.length accs ->
    mapi_from (fun i x => match nth_error (pre ++ accs) i with
                          | Some a => f x a
                          | None => x
                          end) (List.length pre) l
    = map (fun xa => f (fst xa) (snd xa)) (combine l accs).
Proof.
  induction l as [|x l IH]; intros pre accs Hlen; simpl; [reflexivity|].
  destruct accs as [|a accs]; simpl in Hlen; [lia|].
  rewrite nth_error_middle. simpl. f_equal.
  specialize (IH (pre ++ [a]) accs).
  rewrite length_app, <- app_assoc in IH. simpl in IH.
  rewrite Nat.add_1_r in IH. apply IH. lia.
Qed.

(** A loop that updates the particles one by one, in place. *)
Lemma for_range_mps (body : nat -> M unit) (upd : nat -> MP -> MP)
    (ev : nat -> event (T:=T)) (bound : nat) :
  (forall done x rest b tr o r,
      List.length done < bound ->
      body (List.length done) (mkWorld (done ++ x :: rest) b tr o r)
      = (inr tt, mkWorld (done ++ upd (List.length done) x :: rest) b
                   (tr ++ [ev (List.length done)]) o r)) ->
  forall todo done b tr o r,
    List.length done + List.length todo <= bound ->
    for_range (List.length todo) (List.length done) body
      (mkWorld (done ++ todo) b tr o r)
    = (inr tt, mkWorld (done ++ mapi_from upd (List.length done) todo) b
                 (tr ++ map ev (seq (List.length done) (List.length todo))) o r).
Proof.
  intros Hbody todo.
  induction todo as [|x todo IH]; intros done b tr o r Hlen; simpl.
  - now rewrite !app_nil_r.
  - simpl in Hlen.
    erewrite bind_inr by (apply Hbody; lia).
    specialize (IH (done ++ [upd (List.length done) x]) b
                  (tr ++ [ev (List.length done)]) o r).
    rewrite length_app, <- !app_assoc in IH. simpl in IH.
    rewrite Nat.add_1_r in IH.
    rewrite IH by lia. reflexivity.
Qed.

End MonadFacts.

Section StepFacts.
Context {T : Type} {ST : Scalar T}.

Lemma cs_length : List.length (cs (T:=T)) = 16.
Proof. reflexivity. Qed.

Lemma ds_length : List.length (ds (T:=T)) = 15.
Proof. reflexivity. Qed.

Lemma index_coef (l : list T) (i : nat) (w : world (T:=T)) :
  i < List.length l -> index l i w = (inr (coef l i), w).
Proof.
  intros H. unfold index, coef.
  now rewrite (nth_error_nth' l (s_of_int 0) H).
Qed.

Lemma get_mp_middle (done rest : list MP) (x : MP) b tr o r :
  get_mp (List.length done) (mkWorld (T:=T) (done ++ x :: rest) b tr o r)
  = (inr x, mkWorld (done ++ x :: rest) b tr o r).
Proof.
  unfold get_mp, bind, get, index. simpl.
  now rewrite nth_error_middle.
Qed.

Lemma set_pos_middle (done rest : list MP) (x : MP) (i : nat) (v : vec) b tr o r :
  set_pos i (List.length done) v (mkWorld (T:=T) (done ++ x :: rest) b tr o r)
  = (inr tt, mkWorld (done ++ mkMP (mp_des x) v (mp_vel x) :: rest) b
               (tr ++ [EvSetPos i (List.length done)]) o r).
Proof.
  unfold set_pos. erewrite bind_inr by apply get_mp_middle.
  unfold bind, modify, log, with_mps, with_trace. simpl.
  now rewrite list_set_middle.
Qed.

Lemma set_vel_middle (done rest : list MP) (x : MP) (i : nat) (v : vec) b tr o r :
  set_vel i (List.length done) v (mkWorld (T:=T) (done ++ x :: rest) b tr o r)
  = (inr tt, mkWorld (done ++ mkMP (mp_des x) (mp_pos x) v :: rest) b
               (tr ++ [EvSetVel i (List.length done)]) o r).
Proof.
  unfold set_vel. erewrite bind_inr by apply get_mp_middle.
  unfold bind, modify, log, with_mps, with_trace. simpl.
  now rewrite list_set_middle.
Qed.

(** The drift loop moves every particle and nothing else. *)
Lemma drift_all_run (i : nat) (dt : T) (mps : list MP) b tr o r :
  i < 16 ->
  drift_all i dt (mkWorld mps b tr o r)
  = (inr tt, mkWorld (map (drift (coef cs i) dt) mps) b
               (tr ++ map (EvSetPos i) (seq 0 (List.length mps))) o r).
Proof.
  intros Hi. unfold drift_all, len_mps.
  unfold bind at 1. unfold bind at 1. unfold get, ret. simpl w_mps.
  rewrite <- (mapi_from_const _ _ (drift (coef cs i) dt) mps 0).
  apply (for_range_mps _ (fun _ => drift (coef cs i) dt) (EvSetPos i)
           (List.length mps)) with (done := @nil MP); [|simpl; lia].
  intros done x rest b' tr' o' r' _.
  erewrite bind_inr by apply get_mp_middle.
  erewrite bind_inr by (apply index_coef; rewrite cs_length; exact Hi).
  apply set_pos_middle.
Qed.

(** The acceleration loop reads the particles and the bodies, in order. *)
Lemma collect_accels_run (i : nat) (todo : list MP) :
  forall (done : list MP) (accels : list vec) b tr o r,
    collect_accels i (List.length todo) (List.length done) accels
      (mkWorld (T:=T) (done ++ todo) b tr o r)
    = (inr (accels ++ map (fun mp => grav_accel mp b) todo),
       mkWorld (done ++ todo) b
         (tr ++ map (fun imp => EvAccel i imp b)
                  (seq (List.length done) (List.length todo))) o r).
Proof.
  induction todo as [|x todo IH]; intros done accels b tr o r; simpl.
  - now rewrite !app_nil_r.
  - erewrite bind_inr by apply get_mp_middle.
    unfold bind at 1. unfold get_bodies at 1. unfold bind at 1. unfold get, ret.
    simpl w_bodies. unfold bind at 1. unfold log, modify, with_trace. simpl.
    specialize (IH (done ++ [x]) (accels ++ [grav_accel x b]) b
                  (tr ++ [EvAccel i (List.length done) b]) o r).
    rewrite length_app, <- !app_assoc in IH. simpl in IH.
    rewrite Nat.add_1_r in IH. exact IH.
Qed.

(** The kick loop gives every particle its own acceleration. *)
Lemma kick_all_run (i : nat) (dt : T) (mps : list MP) (accels : list vec) b tr o r :
  i < 15 ->
  List.length accels = List.length mps ->
  kick_all i accels dt (mkWorld mps b tr o r)
  = (inr tt, mkWorld (map (fun ma => kick (coef ds i) dt (fst ma) (snd ma))
                        (combine mps accels)) b
               (tr ++ map (EvSetVel i) (seq 0 (List.length mps))) o r).
Proof.
  intros Hi Hlen. unfold kick_all, len_mps.
  unfold bind at 1. unfold bind at 1. unfold get, ret. simpl w_mps.
  rewrite <- (mapi_from_combine _ _ (kick (coef ds i) dt) mps nil accels) by lia.
  simpl app.
  apply (for_range_mps _
           (fun imp x => match nth_error accels imp with
                         | Some a => kick (coef ds i) dt x a
                         | None => x
                         end) (EvSetVel i)
           (List.length mps)) with (done := @nil MP); [|simpl; lia].
  intros done x rest b' tr' o' r' Hdone.
  erewrite bind_inr by apply get_mp_middle.
  destruct (nth_error accels (List.length done)) as [a|] eqn:Ea.
  - unfold bind at 1. unfold index at 1. rewrite Ea. unfold ret.
    erewrite bind_inr by (apply index_coef; rewrite ds_length; exact Hi).
    apply set_vel_middle.
  - apply nth_error_None in Ea. lia.
Qed.

(** One turn of the loop over [i] is the sub-step of the specification. *)
Lemma substep_run (i : nat) (dt : T) (mps : list MP) b tr o r :
  i < 15 ->
  (drift_all i dt ;;
   n <- len_mps ;;
   accels <- collect_accels i n 0 [] ;;
   kick_all i accels dt) (mkWorld mps b tr o r)
  = (inr tt, mkWorld (substep_spec b dt mps i) b
               (tr ++ substep_trace (List.length mps) b i) o r).
Proof.
  intros Hi.
  erewrite bind_inr by (apply drift_all_run; lia).
  unfold bind at 1. unfold len_mps at 1. unfold bind at 1. unfold get, ret.
  simpl w_mps.
  erewrite bind_inr by apply (collect_accels_run i _ nil).
  rewrite kick_all_run by (simpl; rewrite ?length_map; auto).
  unfold substep_spec, substep_trace. simpl app.
  rewrite !length_map, <- !app_assoc. reflexivity.
Qed.

Lemma substep_spec_length (b : list MainBody) (dt : T) (mps : list MP) (i : nat) :
  List.length (substep_spec b dt mps i) = List.length mps.
Proof.
  unfold substep_spec.
  rewrite length_map, length_combine, !length_map. apply Nat.min_id.
Qed.

Lemma substeps_length (b : list MainBody) (dt : T) (l : list nat) :
  forall mps, List.length (fold_left (substep_spec b dt) l mps) = List.length mps.
Proof.
  induction l as [|i l IH]; intros mps; simpl; [reflexivity|].
  rewrite IH. apply substep_spec_length.
Qed.

Lemma substeps_run (dt : T) (n : nat) :
  forall (lo : nat) (mps : list MP) b tr o r,
    lo + n <= 15 ->
    for_range n lo (fun i =>
      drift_all i dt ;;
      k <- len_mps ;;
      accels <- collect_accels i k 0 [] ;;
      kick_all i accels dt) (mkWorld mps b tr o r)
    = (inr tt, mkWorld (fold_left (substep_spec b dt) (seq lo n) mps) b
                 (tr ++ flat_map (substep_trace (List.length mps) b) (seq lo n)) o r).
Proof.
  induction n as [|n IH]; intros lo mps b tr o r Hlo; simpl.
  - now rewrite app_nil_r.
  - erewrite bind_inr by (apply substep_run; lia).
    rewrite IH by lia.
    rewrite substep_spec_length, <- app_assoc. reflexivity.
Qed.

(** What a call of stepYoshida8 does to the store: it returns normally, the
    particles are those of the specification's composition, the bodies are
    untouched, and the run adds the expected sequence of events. *)
Lemma stepYoshida8_run (dt : T) (mps : list MP) b tr o r :
  stepYoshida8 dt (mkWorld mps b tr o r)
  = (inr tt, mkWorld (yoshida8_spec b dt mps) b
               (tr ++ yoshida8_trace (List.length mps) b) o r).
Proof.
  unfold stepYoshida8.
  erewrite bind_inr by (apply substeps_run; lia).
  rewrite drift_all_run by lia.
  unfold yoshida8_spec, yoshida8_trace.
  rewrite substeps_length, <- app_assoc. reflexivity.
Qed.

End StepFacts.

Section OrderFacts.
Context {T : Type} {ST : Scalar T}.

Lemma map_seq_split A (f : nat -> A) (n k : nat) :
  k < n ->
  map f (seq 0 n) = map f (seq 0 k) ++ f k :: map f (seq (S k) (n - S k)).
Proof.
  intros H. replace n with (k + S (n - S k)) at 1 by lia.
  rewrite seq_app, map_app. reflexivity.
Qed.

Lemma flat_map_seq_split A (f : nat -> list A) (n k : nat) :
  k < n ->
  flat_map f (seq 0 n)
  = flat_map f (seq 0 k) ++ f k ++ flat_map f (seq (S k) (n - S k)).
Proof.
  intros H. replace n with (k + S (n - S k)) at 1 by lia.
  rewrite seq_app, flat_map_app. reflexivity.
Qed.

Lemma before_app_l A (e1 e2 : A) (l l' : list A) : before e1 e2 l -> before e1 e2 (l ++ l').
Proof.
  intros (l1 & l2 & l3 & ->). exists l1, l2, (l3 ++ l').
  repeat (rewrite <- app_assoc; simpl). reflexivity.
Qed.

Lemma before_app_r A (e1 e2 : A) (l l' : list A) : before e1 e2 l -> before e1 e2 (l' ++ l).
Proof.
  intros (l1 & l2 & l3 & ->). exists (l' ++ l1), l2, l3.
  now rewrite <- app_assoc.
Qed.

Lemma before_blocks A (e1 e2 : A) (l1 l2 : list A) :
  In e1 l1 -> In e2 l2 -> before e1 e2 (l1 ++ l2).
Proof.
  intros H1 H2.
  apply in_split in H1 as (a1 & a2 & ->).
  apply in_split in H2 as (b1 & b2 & ->).
  exists a1, (a2 ++ b1), b2.
  repeat (rewrite <- app_assoc; simpl). reflexivity.
Qed.

(** Within sub-step [i], every position is written before any acceleration
    is taken, and every acceleration is taken before any velocity is
    written. *)
Lemma substep_trace_barrier (n : nat) (b : list (MainBody (T:=T))) (i imp imp' : nat) :
  imp < n -> imp' < n ->
  before (EvSetPos i imp') (EvAccel i imp b) (substep_trace n b i)
  /\ before (EvAccel i imp b) (EvSetVel i imp') (substep_trace n b i).
Proof.
  intros H H'. unfold substep_trace. split.
  - rewrite app_assoc. apply before_app_l. apply before_blocks.
    + apply in_map, in_seq. lia.
    + apply (in_map (fun k => EvAccel i k b)), in_seq. lia.
  - apply before_app_r. apply before_blocks.
    + apply (in_map (fun k => EvAccel i k b)), in_seq. lia.
    + apply in_map, in_seq. lia.
Qed.

Lemma yoshida8_trace_barrier (n : nat) (b : list (MainBody (T:=T))) (i imp imp' : nat) :
  i < 15 -> imp < n -> imp' < n ->
  before (EvSetPos i imp') (EvAccel i imp b) (yoshida8_trace n b)
  /\ before (EvAccel i imp b) (EvSetVel i imp') (yoshida8_trace n b).
Proof.
  intros Hi H H'. unfold yoshida8_trace.
  rewrite (flat_map_seq_split _ _ _ _ Hi).
  destruct (substep_trace_barrier n b i imp imp' H H') as [B1 B2].
  split; apply before_app_l, before_app_r, before_app_l; assumption.
Qed.

Lemma substep_trace_respects (n : nat) (b : list (MainBody (T:=T))) (i : nat) :
  Forall (respects_bodies b) (substep_trace n b i).
Proof.
  unfold substep_trace. rewrite !Forall_app. repeat split;
    apply Forall_forall; intros e He; apply in_map_iff in He as (k & <- & _);
    simpl; auto.
Qed.

Lemma yoshida8_trace_respects (n : nat) (b : list (MainBody (T:=T))) :
  Forall (respects_bodies b) (yoshida8_trace n b).
Proof.
  unfold yoshida8_trace. rewrite Forall_app. split.
  - apply Forall_flat_map, Forall_forall. intros i _. apply substep_trace_respects.
  - apply Forall_forall. intros e He. apply in_map_iff in He as (k & <- & _). exact I.
Qed.

End OrderFacts.

(** C1.  One call of stepYoshida8 returns normally and does exactly this:
    the particles become those obtained by the 15 sub-steps i = 0..14 in
    order (all drifts with c[i], then all accelerations at the drifted
    positions from the bodies of the call, then all kicks with d[i])
    followed by one drift with c[15]; the attribute writes and grav_accel
    calls occur in exactly that order; in particular, in sub-step i no
    acceleration is taken before every position is written, and no velocity
    is written before every acceleration is taken. *)
Theorem stepYoshida8_substep_order (T : Type) (ST : Scalar T) (dt : T) (w : world) :
  stepYoshida8 dt w
  = (inr tt,
     mkWorld (yoshida8_spec (w_bodies w) dt (w_mps w)) (w_bodies w)
       (w_trace w ++ yoshida8_trace (List.length (w_mps w)) (w_bodies w))
       (w_out w) (w_result w))
  /\ yoshida8_trace (List.length (w_mps w)) (w_bodies w)
     = flat_map (fun i =>
         map (EvSetPos i) (seq 0 (List.length (w_mps w)))
         ++ map (fun imp => EvAccel i imp (w_bodies w)) (seq 0 (List.length (w_mps w)))
         ++ map (EvSetVel i) (seq 0 (List.length (w_mps w)))) (seq 0 15)
       ++ map (EvSetPos 15) (seq 0 (List.length (w_mps w)))
  /\ forall i imp imp',
       i < 15 -> imp < List.length (w_mps w) -> imp' < List.length (w_mps w) ->
       before (EvSetPos i imp') (EvAccel i imp (w_bodies w))
         (yoshida8_trace (List.length (w_mps w)) (w_bodies w))
       /\ before (EvAccel i imp (w_bodies w)) (EvSetVel i imp')
            (yoshida8_trace (List.length (w_mps w)) (w_bodies w)).
Proof.
  split; [|split].
  - destruct w as [mps b tr o r]. apply stepYoshida8_run.
  - reflexivity.
  - intros i imp imp'. apply yoshida8_trace_barrier.
Qed.

(** C9.  A call of stepYoshida8 leaves every body as it was (name, position
    and GM), writes no attribute of a body, and every call of grav_accel it
    makes, in whatever sub-step, sees the bodies exactly as they were when
    the step was invoked. *)
Theorem stepYoshida8_bodies_fixed (T : Type) (ST : Scalar T) (dt : T) (w : world) :
  w_bodies (snd (stepYoshida8 dt w)) = w_bodies w
  /\ exists new,
       w_trace (snd (stepYoshida8 dt w)) = w_trace w ++ new
       /\ Forall (respects_bodies (w_bodies w)) new
       /\ (forall i imp, i < 15 -> imp < List.length (w_mps w) ->
             In (EvAccel i imp (w_bodies w)) new).
Proof.
  destruct w as [mps b tr o r]. rewrite stepYoshida8_run. simpl. split; [reflexivity|].
  exists (yoshida8_trace (List.length mps) b). split; [reflexivity|]. split.
  - apply yoshida8_trace_respects.
  - intros i imp Hi Himp. unfold yoshida8_trace.
    apply in_or_app. left. apply in_flat_map. exists i. split.
    + apply in_seq. lia.
    + unfold substep_trace. apply in_or_app. right. apply in_or_app. left.
      apply (in_map (fun k => EvAccel i k b)), in_seq. lia.
Qed.

(** ** The gravity model over the real numbers *)

Section GravityFacts.
Local Open Scope R_scope.









End GravityFacts.

Section Purity.
Context {T : Type} {ST : Scalar T}.




End Purity.


(** ** One macro cycle *)

Section CycleFacts.
Context {T : Type} {ST : Scalar T}.
Variable env : Env (T:=T).

Lemma set_body_pos_middle (done rest : list MainBody) (x : MainBody) (v : vec) mps tr o r :
  set_body_pos (List.length done) v (mkWorld (T:=T) mps (done ++ x :: rest) tr o r)
  = (inr tt, mkWorld mps (done ++ mkMainBody (body_name x) v (body_GM x) :: rest)
               (tr ++ [EvSetBodyPos (List.length done)]) o r).
Proof.
  cbv [set_body_pos bind get index w_bodies].
  rewrite nth_error_middle.
  cbv [ret modify log with_bodies with_trace w_bodies w_mps w_trace w_out w_result].
  now rewrite list_set_middle.
Qed.

(** The loop that re-resolves the bodies of a cycle. *)
Lemma resolve_bodies_run (cycle_date : T) (todo : list MainBody) :
  forall (sdone wdone : list MainBody) mps tr o r,
    List.length sdone = List.length wdone ->
    for_range (List.length todo) (List.length wdone)
      (fun ib =>
         body <- index (sdone ++ todo) ib ;;
         set_body_pos ib (spkezr env (body_name body) cycle_date))
      (mkWorld mps (wdone ++ todo) tr o r)
    = (inr tt, mkWorld mps (wdone ++ map (resolve env cycle_date) todo)
                 (tr ++ map EvSetBodyPos (seq (List.length wdone) (List.length todo))) o r).
Proof.
  induction todo as [|x todo IH]; intros sdone wdone mps tr o r Hlen; simpl.
  - now rewrite !app_nil_r.
  - erewrite bind_inr
      by (erewrite bind_inr
            by (unfold index; rewrite <- Hlen, nth_error_middle; reflexivity);
          apply set_body_pos_middle).
    specialize (IH (sdone ++ [x]) (wdone ++ [resolve env cycle_date x]) mps
                  (tr ++ [EvSetBodyPos (List.length wdone)]) o r).
    rewrite !length_app, <- !app_assoc in IH. simpl in IH.
    rewrite !Nat.add_1_r in IH. apply IH. lia.
Qed.

Lemma cycle_body_run (date_init dt : T) (N_cycles : Z) (cycle : nat)
    (mps : list MP) (b : list MainBody) tr o r :
  cycle_body env date_init dt N_cycles cycle (mkWorld mps b tr o r)
  = (inr tt,
     mkWorld
       (yoshida8_spec (map (resolve env (cycle_date_of date_init dt cycle)) b) dt mps)
       (map (resolve env (cycle_date_of date_init dt cycle)) b)
       (tr ++ map EvSetBodyPos (seq 0 (List.length b))
           ++ yoshida8_trace (List.length mps)
                (map (resolve env (cycle_date_of date_init dt cycle)) b))
       (o ++ progress_line N_cycles cycle)
       (r ++ [mkRecord (cycle_date_of date_init dt cycle)
                (s_of_int (Z.of_nat cycle) * dt)%sc
                (map body_pos (map (resolve env (cycle_date_of date_init dt cycle)) b))
                (map mp_pos
                   (yoshida8_spec (map (resolve env (cycle_date_of date_init dt cycle)) b)
                      dt mps))])).
Proof.
  unfold cycle_body, get_bodies.
  erewrite bind_inr by (cbv [bind get ret]; reflexivity).
  cbv [w_bodies].
  erewrite bind_inr
    by (apply (resolve_bodies_run (cycle_date_of date_init dt cycle) b nil nil);
        reflexivity).
  rewrite app_nil_l. change (List.length (@nil (MainBody (T:=T)))) with 0.
  erewrite bind_inr by apply stepYoshida8_run.
  erewrite bind_inr by (cbv [get]; reflexivity).
  erewrite bind_inr by (cbv [append_result modify with_result]; reflexivity).
  cbv [w_mps w_bodies w_trace w_out w_result].
  unfold progress_line. rewrite <- app_assoc.
  destruct (cycle mod 200 =? 0);
    cbv [print_val modify ret with_out w_mps w_bodies w_trace w_out w_result].
  - reflexivity.
  - now rewrite app_nil_r.
Qed.

(** A loop whose every turn returns normally and keeps an invariant. *)
Lemma for_range_inv (P : nat -> world (T:=T) -> Prop) (body : nat -> M unit) (n : nat) :
  forall (lo : nat) (w : world),
    P lo w ->
    (forall i w, lo <= i < lo + n -> P i w ->
                 exists w', body i w = (inr tt, w') /\ P (S i) w') ->
    exists w', for_range n lo body w = (inr tt, w') /\ P (lo + n) w'.
Proof.
  induction n as [|n IH]; intros lo w HP Hbody; simpl.
  - exists w. rewrite Nat.add_0_r. split; [reflexivity|assumption].
  - destruct (Hbody lo w ltac:(lia) HP) as (w1 & E1 & HP1).
    erewrite bind_inr by exact E1.
    destruct (IH (S lo) w1 HP1) as (w2 & E2 & HP2).
    + intros i w' Hi. apply Hbody. lia.
    + exists w2. split; [exact E2|].
      now rewrite Nat.add_succ_r.
Qed.

End CycleFacts.

(** ** The position weights and uniform motion, in exact arithmetic *)

Section FreeFlight.
Local Open Scope R_scope.

Lemma map_combine_self A B C (h : A -> B -> C) (g : A -> B) (l : list A) :
  map (fun ma => h (fst ma) (snd ma)) (combine l (map g l)) = map (fun x => h x (g x)) l.
Proof. induction l; simpl; congruence. Qed.





Lemma coef_cs_Q (i : nat) : coef cs i = Q2R (nth i Lit.cs 0%Q).
Proof.
  unfold coef, cs. cbn [s_lit s_of_int R_Scalar].
  rewrite <- RMicromega.Q2R_0. apply map_nth.
Qed.

Lemma coef_sum_Q (l : list nat) :
  coef_sum l = Q2R (sum_Q (map (fun i => nth i Lit.cs 0%Q) l)).
Proof.
  induction l as [|i l IH]; cbn [coef_sum sum_Q map fold_right].
  - now rewrite RMicromega.Q2R_0.
  - fold (coef_sum l). fold (sum_Q (map (fun i => nth i Lit.cs 0%Q) l)).
    now rewrite Q2R_plus, IH, coef_cs_Q.
Qed.

Lemma sigma_c_Q : sigma_c = Q2R (sum_Q Lit.cs).
Proof. unfold sigma_c. rewrite coef_sum_Q. reflexivity. Qed.

Lemma ulp_one_Q : Q2R (1 # 4503599627370496) = / 2 ^ 52.
Proof.
  unfold Q2R. cbn [Qnum Qden]. rewrite Rmult_1_l, pow_IZR. reflexivity.
Qed.

(** The position weights add up to one, to the last place. *)
Lemma sigma_c_close : Rabs (sigma_c - 1) <= / 2 ^ 52.
Proof.
  rewrite sigma_c_Q, <- ulp_one_Q.
  apply Rabs_le. split.
  - replace (- Q2R (1 # 4503599627370496)) with (Q2R (- (1 # 4503599627370496)))
      by apply Q2R_opp.
    replace (Q2R (sum_Q Lit.cs) - 1) with (Q2R (sum_Q Lit.cs - 1))
      by (rewrite Q2R_minus, RMicromega.Q2R_1; reflexivity).
    apply Qle_Rle. apply Qle_bool_iff. vm_compute. reflexivity.
  - replace (Q2R (sum_Q Lit.cs) - 1) with (Q2R (sum_Q Lit.cs - 1))
      by (rewrite Q2R_minus, RMicromega.Q2R_1; reflexivity).
    apply Qle_Rle. apply Qle_bool_iff. vm_compute. reflexivity.
Qed.




End FreeFlight.

(** ** The cycle loop *)

Section MainLoopFacts.
Context {T : Type} {ST : Scalar T}.
Variable env : Env (T:=T).

Lemma main_loop_start (date_init dt : T) (N_cycles : Z) mps b tr o r :
  main_loop env date_init dt N_cycles (mkWorld mps b tr o r)
  = (for_range (Z.to_nat N_cycles) 0 (cycle_body env date_init dt N_cycles) ;;
     print "Propagation complete.")
      (mkWorld mps b tr ((o ++ [Print EmptyString]) ++ [Print "Propagation starts..."]) []).
Proof. reflexivity. Qed.


End MainLoopFacts.

(** ** The integrator step, particle by particle *)

Section ParticleFacts.
Context {T : Type} {ST : Scalar T}.

Lemma substep_map (b : list MainBody) (dt : T) (mps : list MP) (i : nat) :
  substep_spec b dt mps i
  = map (fun m => kick (coef ds i) dt (drift (coef cs i) dt m)
                    (grav_accel (drift (coef cs i) dt m) b)) mps.
Proof.
  unfold substep_spec. cbv zeta.
  rewrite map_combine_self, map_map. reflexivity.
Qed.

Lemma substeps_map (b : list MainBody) (dt : T) (l : list nat) :
  forall mps,
    fold_left (substep_spec b dt) l mps
    = map (fold_left
             (fun m i => kick (coef ds i) dt (drift (coef cs i) dt m)
                           (grav_accel (drift (coef cs i) dt m) b)) l) mps.
Proof.
  induction l as [|i l IH]; intros mps; cbn [fold_left].
  - now rewrite map_id.
  - rewrite IH, substep_map, map_map. reflexivity.
Qed.

Lemma yoshida8_spec_map (b : list MainBody) (dt : T) (mps : list MP) :
  yoshida8_spec b dt mps = map (step_particle b dt) mps.
Proof.
  unfold yoshida8_spec, step_particle. rewrite substeps_map, map_map. reflexivity.
Qed.

Lemma step_particle_des (b : list MainBody) (dt : T) (mp : MP) :
  mp_des (step_particle b dt mp) = mp_des mp.
Proof.
  unfold step_particle. cbn [drift mp_des].
  generalize (seq 0 15) as l. intros l. revert mp.
  induction l as [|i l IH]; intros mp; cbn [fold_left]; [reflexivity|].
  rewrite IH. reflexivity.
Qed.

End ParticleFacts.

(** ** The particles and the records of the cycle loop *)

Section LoopResults.
Context {T : Type} {ST : Scalar T}.
Variable env : Env (T:=T).

Lemma resolve_again (d1 d2 : T) (b : list MainBody) :
  map (resolve env d2) (map (resolve env d1) b) = map (resolve env d2) b.
Proof. rewrite map_map. reflexivity. Qed.

Lemma resolve_after (date_init dt d : T) (b : list MainBody) (k : nat) :
  map (resolve env d) (bodies_after env date_init dt b k) = map (resolve env d) b.
Proof. destruct k; [reflexivity|apply resolve_again]. Qed.

Lemma resolved_positions (d : T) (b : list MainBody) :
  map body_pos (map (resolve env d) b) = map (fun body => spkezr env (body_name body) d) b.
Proof. rewrite map_map. reflexivity. Qed.

End LoopResults.

Section LoopRun.
Context {T : Type} {ST : Scalar T}.
Variable env : Env (T:=T).

Lemma main_loop_run (date_init dt : T) (N_cycles : Z) (w : world (T:=T)) :
  exists w',
    main_loop env date_init dt N_cycles w = (inr tt, w')
    /\ w_result w'
       = map (fun k =>
                mkRecord (cycle_date_of date_init dt k) (s_of_int (Z.of_nat k) * dt)%sc
                  (map (fun body =>
                          spkezr env (body_name body) (cycle_date_of date_init dt k))
                     (w_bodies w))
                  (map mp_pos (propagate env date_init dt (w_bodies w) (S k) (w_mps w))))
           (seq 0 (Z.to_nat N_cycles))
    /\ w_mps w' = propagate env date_init dt (w_bodies w) (Z.to_nat N_cycles) (w_mps w)
    /\ w_bodies w' = bodies_after env date_init dt (w_bodies w) (Z.to_nat N_cycles).
Proof.
  destruct w as [mps b tr o r]. rewrite main_loop_start. cbn [w_mps w_bodies].
  destruct (for_range_inv
              (fun k w =>
                 w_result w
                 = map (fun k =>
                          mkRecord (cycle_date_of date_init dt k)
                            (s_of_int (Z.of_nat k) * dt)%sc
                            (map (fun body =>
                                    spkezr env (body_name body)
                                      (cycle_date_of date_init dt k)) b)
                            (map mp_pos (propagate env date_init dt b (S k) mps)))
                     (seq 0 k)
                 /\ w_mps w = propagate env date_init dt b k mps
                 /\ w_bodies w = bodies_after env date_init dt b k)
              (cycle_body env date_init dt N_cycles) (Z.to_nat N_cycles) 0
              (mkWorld mps b tr ((o ++ [Print EmptyString])
                                 ++ [Print "Propagation starts..."]) []))
    as (w1 & E1 & H1 & H2 & H3).
  - repeat split.
  - intros i [mps' b' tr' o' r'] _ (Hr & Hm & Hb). rewrite cycle_body_run.
    eexists. split; [reflexivity|].
    cbn [w_result w_mps w_bodies] in *. subst r' mps' b'.
    rewrite resolve_after, yoshida8_spec_map, resolved_positions.
    split; [|split; reflexivity].
    rewrite seq_S, map_app. reflexivity.
  - erewrite bind_inr by exact E1.
    eexists. split; [reflexivity|]. cbn [w_result w_mps w_bodies print modify with_out snd].
    repeat split; assumption.
Qed.

End LoopRun.

(** ** Motion without force, on binary64 *)

Section Binary64Zeros.

Lemma finite_cases (x : float) :
  finite x = true ->
  (exists s, Prim2SF x = S754_zero s) \/ (exists s m e, Prim2SF x = S754_finite s m e).
Proof.
  unfold finite, float_to_Q. destruct (Prim2SF x) as [s|s| |s m e]; try discriminate.
  - left. now exists s.
  - right. now exists s, m, e.
Qed.



Lemma mul_zero (y z : float) :
  zero_valued z = true -> finite y = true -> zero_valued (y * z)%float = true.
Proof.
  unfold zero_valued. intros Hz Hy. rewrite mul_spec. unfold SF64mul.
  destruct (Prim2SF z) as [sz|sz| |sz mz ez]; try discriminate.
  destruct (finite_cases y Hy) as [(s & ->)|(s & m & e & ->)]; reflexivity.
Qed.










End Binary64Zeros.

Section ZeroForce.













Section Run.
Variable env : Env (T:=float).


End Run.
End ZeroForce.


(** ** The coefficients and the cycle count *)

(** C3.  The coefficient sequences have 16 and 15 entries.  As decimal
    numbers the d[i] add up to exactly 1 and the c[i] to 1 within 2^-52
    (one unit in the last place of 1.0); so do the real numbers they denote;
    and added up from left to right in binary64 both sums are exactly
    1.0. *)
Theorem coefficient_normalization :
  List.length Lit.cs = 16 /\ List.length Lit.ds = 15
  /\ (sum_Q Lit.ds == 1)%Q
  /\ (Qabs.Qabs (sum_Q Lit.cs - 1) <= 1 # 4503599627370496)%Q
  /\ (Rabs (sigma_c - 1) <= / 2 ^ 52)%R
  /\ fold_left s_add (cs (T:=float)) (s_of_int 0) = PrimFloat.one
  /\ fold_left s_add (ds (T:=float)) (s_of_int 0) = PrimFloat.one.
Proof.
  split; [reflexivity|]. split; [reflexivity|].
  split; [vm_compute; reflexivity|].
  split; [apply Qle_bool_iff; vm_compute; reflexivity|].
  split; [apply sigma_c_close|].
  split; vm_compute; reflexivity.
Qed.

(** ** The number of cycles *)

Section Binary64Integers.
Local Open Scope Q_scope.



Lemma digits2_bound (p : positive) : (Z.pos p < 2 ^ Z.pos (digits2_pos p))%Z.
Proof.
  induction p; cbn [digits2_pos]; rewrite ?Pos2Z.inj_succ, ?Z.pow_succ_r by lia; lia.
Qed.






End Binary64Integers.

Section CycleCount.


End CycleCount.




(** ** Runs of the gravity model and of the motion without force *)





(** ** Before the propagation: reading, retrieval, set-up *)

#[export] Instance untouched_run_Frame {T} : Frame (@untouched_run T).
Proof.
  split.
  - intros w. repeat split.
  - unfold untouched_run. intros w1 w2 w3 (a & b & c) (d & e & f).
    repeat split; congruence.
  - intros w o. repeat split.
Qed.

#[export] Instance same_objects_Frame {T} : Frame (@same_objects T).
Proof.
  split.
  - intros w. repeat split.
  - unfold same_objects, untouched_run. intros w1 w2 w3 (a & b & c & d) (e & f & g & h).
    repeat split; congruence.
  - intros w o. repeat split.
Qed.

Section SetupFacts.
Context {T : Type} {ST : Scalar T}.
Context (R : world (T:=T) -> world (T:=T) -> Prop) {FR : Frame R}.

Lemma idle_ret A (a : A) : preserves R (ret a).
Proof. intros w. apply frame_refl. Qed.

Lemma idle_raise A (e : exn) : preserves R (A:=A) (raise e).
Proof. intros w. apply frame_refl. Qed.

Lemma idle_print (s : string) : preserves R (print s).
Proof. intros w. apply frame_out. Qed.

Lemma idle_print_val (s : string) (v : T) : preserves R (print_val s v).
Proof. intros w. apply frame_out. Qed.

Lemma idle_input (s : string) : preserves R (input s).
Proof. intros w. apply frame_out. Qed.

Lemma idle_index A (l : list A) (i : nat) : preserves R (index l i).
Proof. intros w. unfold index. destruct (nth_error l i); apply frame_refl. Qed.

Lemma idle_bind A B (m : M A) (f : A -> M B) :
  preserves R m -> (forall a, preserves R (f a)) -> preserves R (bind m f).
Proof.
  intros Hm Hf w. unfold bind. specialize (Hm w).
  destruct (m w) as [[e|a] w1]; simpl in *; [exact Hm|].
  eapply frame_trans; [exact Hm|apply Hf].
Qed.

Lemma idle_for_each A (l : list A) (body : A -> M unit) :
  (forall a, preserves R (body a)) -> preserves R (for_each l body).
Proof.
  intros H. induction l; simpl; [apply idle_ret|].
  apply idle_bind; auto.
Qed.

Lemma idle_for_range (body : nat -> M unit) (n : nat) :
  (forall i, preserves R (body i)) -> forall lo, preserves R (for_range n lo body).
Proof.
  intros H. induction n; intros lo; simpl; [apply idle_ret|].
  apply idle_bind; auto.
Qed.

Lemma idle_snd A (m : M A) (w w' : world (T:=T)) (r : exn + A) :
  preserves R m -> m w = (r, w') -> R w w'.
Proof. intros Hm E. specialize (Hm w). now rewrite E in Hm. Qed.

End SetupFacts.

Lemma idle_with_mps T (l : list (MP (T:=T))) : preserves untouched_run (modify (with_mps l)).
Proof. intros w. repeat split. Qed.

Lemma idle_append_mp T (mp : MP (T:=T)) : preserves untouched_run (append_mp mp).
Proof. intros w. repeat split. Qed.

(** Decomposes a goal [preserves R m] along the structure of [m]. *)
Ltac idle_step :=
  match goal with
  | |- preserves ?R (bind _ _) => apply (idle_bind R); [|intro]
  | |- preserves ?R (ret _) => apply (idle_ret R)
  | |- preserves ?R (raise _) => apply (idle_raise R)
  | |- preserves ?R (print _) => apply (idle_print R)
  | |- preserves ?R (print_val _ _) => apply (idle_print_val R)
  | |- preserves ?R (input _) => apply (idle_input R)
  | |- preserves ?R (index _ _) => apply (idle_index R)
  | |- preserves _ (modify (with_mps _)) => apply idle_with_mps
  | |- preserves _ (append_mp _) => apply idle_append_mp
  | |- preserves ?R (for_each _ _) => apply (idle_for_each R); intro
  | |- preserves ?R (for_range _ _ _) => apply (idle_for_range R); intro
  | |- preserves _ (if ?c then _ else _) => destruct c
  | |- preserves _ (match ?x with _ => _ end) => destruct x
  end.

Section RetrievalFacts.
Context {T : Type} {ST : Scalar T}.
Variable env : Env (T:=T).
Context (R : world (T:=T) -> world (T:=T) -> Prop) {FR : Frame R}.

Lemma idle_float_ (s : string) : preserves R (float_ env s).
Proof. unfold float_. repeat idle_step. Qed.

Lemma idle_floats3 (m : string * string * string) : preserves R (floats3 env m).
Proof.
  destruct m as [[a b] c]. unfold floats3.
  repeat (idle_step || apply idle_float_).
Qed.

Lemma idle_parseMPJPL (s : string) : preserves R (parseMPJPL env s).
Proof. unfold parseMPJPL. repeat (idle_step || apply idle_floats3). Qed.

Lemma idle_getMPJPL_body (n i : nat) (des : string) (start_time stop_time : T)
    (acc : list (vec * vec)) :
  preserves R (getMPJPL_body env n i des start_time stop_time acc).
Proof.
  unfold getMPJPL_body, vprint, verbose.
  repeat (idle_step || apply idle_parseMPJPL).
Qed.

Lemma idle_getMPJPL_loop (n : nat) (start_time stop_time : T) (designations : list string) :
  forall (i : nat) (acc : list (vec * vec)),
    preserves R (getMPJPL_loop env n i designations start_time stop_time acc).
Proof.
  induction designations as [|des rest IH]; intros i acc; simpl.
  - apply (idle_ret R).
  - apply (idle_bind R); [apply idle_getMPJPL_body|]. intros acc'. apply IH.
Qed.

Lemma idle_getMPJPL (designations : list string) (start_time : T) :
  preserves R (getMPJPL env designations start_time).
Proof.
  unfold getMPJPL, vprint, verbose.
  repeat (idle_step || apply idle_getMPJPL_loop).
Qed.

Lemma bind_inr_inv A B (m : M A) (f : A -> M B) (w w' : world (T:=T)) (b : B) :
  bind m f w = (inr b, w') ->
  exists a w1, m w = (inr a, w1) /\ f a w1 = (inr b, w').
Proof.
  unfold bind. destruct (m w) as [[e|a] w1]; intros H; [discriminate|].
  exists a, w1. split; [reflexivity|exact H].
Qed.

(** One turn of the retrieval loop that returns has added an entry exactly
    when the status was 200. *)
Lemma getMPJPL_body_length (n i : nat) (des : string) (start_time stop_time : T)
    (acc acc' : list (vec * vec)) (w w' : world) :
  getMPJPL_body env n i des start_time stop_time acc w = (inr acc', w') ->
  List.length acc'
  = List.length acc + List.length (succeeded env start_time stop_time [des]).
Proof.
  unfold getMPJPL_body, succeeded. cbn [filter].
  intros H. apply bind_inr_inv in H as (a & w1 & H1 & H2).
  apply bind_inr_inv in H2 as (u & w2 & _ & H3).
  injection H3 as <- _.
  destruct (status_code (requests_get env ("DES=" ++ des) start_time stop_time) =? 200)%Z.
  - apply bind_inr_inv in H1 as (sv & w3 & _ & H4).
    apply bind_inr_inv in H4 as (u' & w4 & _ & H5).
    injection H5 as <- _. rewrite length_app. reflexivity.
  - assert (E : a = acc); [|subst a; simpl; lia].
    repeat match type of H1 with
           | (if ?c then _ else _) _ = _ => destruct c
           end;
      try (apply bind_inr_inv in H1 as (u' & w4 & _ & H5); injection H5 as <- _);
      try (injection H1 as <- _); reflexivity.
Qed.

Lemma succeeded_cons (start_time stop_time : T) (des : string) (rest : list string) :
  List.length (succeeded env start_time stop_time (des :: rest))
  = List.length (succeeded env start_time stop_time [des])
    + List.length (succeeded env start_time stop_time rest).
Proof.
  unfold succeeded. cbn [filter].
  destruct (status_code (requests_get env ("DES=" ++ des) start_time stop_time) =? 200)%Z;
    reflexivity.
Qed.

Lemma getMPJPL_loop_length (n : nat) (start_time stop_time : T) (designations : list string) :
  forall (i : nat) (acc svs : list (vec * vec)) (w w' : world),
    getMPJPL_loop env n i designations start_time stop_time acc w = (inr svs, w') ->
    List.length svs
    = List.length acc + List.length (succeeded env start_time stop_time designations).
Proof.
  induction designations as [|des rest IH]; intros i acc svs w w' H; simpl in H.
  - injection H as <- _. simpl. lia.
  - apply bind_inr_inv in H as (acc' & w1 & H1 & H2).
    apply IH in H2. apply getMPJPL_body_length in H1.
    rewrite succeeded_cons. lia.
Qed.

(** The list that getMPJPL returns has one entry per request that got the
    status 200, and none for any other. *)
Lemma getMPJPL_length (designations : list string) (start_time : T)
    (svs : list (vec * vec)) (w w' : world) :
  getMPJPL env designations start_time w = (inr svs, w') ->
  List.length svs
  = List.length (succeeded env start_time (start_time + s_of_int 86400)%sc designations).
Proof.
  unfold getMPJPL. intros H.
  apply bind_inr_inv in H as (u0 & w0 & _ & H).
  apply bind_inr_inv in H as (acc & w1 & H1 & H2).
  apply bind_inr_inv in H2 as (u & w2 & _ & H3).
  injection H3 as <- _.
  apply getMPJPL_loop_length in H1. simpl in H1. exact H1.
Qed.

Lemma succeeded_short (start_time stop_time : T) (designations : list string) (des : string) :
  In des designations ->
  status_code (requests_get env ("DES=" ++ des) start_time stop_time) <> 200%Z ->
  List.length (succeeded env start_time stop_time designations) < List.length designations.
Proof.
  intros Hin Hst. induction designations as [|d rest IH]; [contradiction|].
  rewrite succeeded_cons. unfold succeeded at 1. cbn [filter].
  assert (Hle : List.length (succeeded env start_time stop_time rest) <= List.length rest)
    by apply filter_length_le.
  destruct Hin as [->|Hin].
  - apply Z.eqb_neq in Hst. rewrite Hst. simpl. lia.
  - specialize (IH Hin).
    destruct (status_code (requests_get env ("DES=" ++ d) start_time stop_time) =? 200)%Z;
      simpl; lia.
Qed.

(** The set-up loop over range(len(MP_des)) raises IndexError when the list
    of state vectors is shorter than the list of designations. *)
Lemma setup_loop_fails (MP_des : list string) (svs : list (vec (T:=T) * vec (T:=T)))
    (k : nat) :
  forall (lo : nat) (w : world (T:=T)),
    lo <= List.length svs < lo + k ->
    lo + k <= List.length MP_des ->
    exists w',
      for_range k lo (fun i =>
        sv <- index svs i ;;
        des <- index MP_des i ;;
        append_mp (mkMP des (fst sv) (snd sv))) w = (inl IndexError, w').
Proof.
  induction k as [|k IH]; intros lo w Hlo Hk; [lia|]. simpl.
  destruct (nth_error svs lo) as [sv|] eqn:Esv.
  - assert (Hlt : lo < List.length svs) by (apply nth_error_Some; congruence).
    destruct (nth_error MP_des lo) as [des|] eqn:Edes;
      [|apply nth_error_None in Edes; lia].
    destruct (IH (S lo) (with_mps (w_mps w ++ [mkMP des (fst sv) (snd sv)]) w)
                ltac:(lia) ltac:(lia)) as (w' & E).
    exists w'. rewrite <- E.
    unfold bind at 1. unfold bind at 1. unfold index at 1. rewrite Esv.
    unfold ret at 1. unfold bind at 1. unfold index at 1. rewrite Edes.
    reflexivity.
  - exists w. unfold bind at 1. unfold bind at 1. unfold index at 1. rewrite Esv.
    reflexivity.
Qed.

End RetrievalFacts.

Section SetupIdle.
Context {T : Type} {ST : Scalar T}.
Variable env : Env (T:=T).

Lemma idle_setup_mps (MP_des : list string) (date_init : T) :
  preserves untouched_run (setup_mps env MP_des date_init).
Proof.
  unfold setup_mps. repeat (idle_step || apply (idle_getMPJPL env untouched_run)).
Qed.

End SetupIdle.

Section ConfigFacts.
Context {T : Type} {ST : Scalar T}.
Variable env : Env (T:=T).
Context (R : world (T:=T) -> world (T:=T) -> Prop) {FR : Frame R}.

Lemma read_line_spec (st : locals) (line : string) (w : world (T:=T)) :
  exists r,
    read_line env st line w = (r, w)
    /\ match r with
       | inl e => e = ValueError \/ e = AttributeError
       | inr st' => keeps (fun d => startswith line d = false) st st'
       end.
Proof.
  unfold read_line, keeps.
  destruct (startswith line "T0 ") eqn:E0.
  { unfold bind, strptime_. destruct (strptime env _); eexists; (split; [reflexivity|]);
      [repeat split; intros; simpl; congruence | left; reflexivity]. }
  destruct (startswith line "TF ") eqn:E1.
  { unfold bind, strptime_. destruct (strptime env _); eexists; (split; [reflexivity|]);
      [repeat split; intros; simpl; congruence | left; reflexivity]. }
  destruct (startswith line "DT ") eqn:E2.
  { unfold bind, float_. destruct (float_of_string env _); eexists; (split; [reflexivity|]);
      [repeat split; intros; simpl; congruence | left; reflexivity]. }
  destruct (startswith line "MP ") eqn:E3.
  { destruct (pattern_search env line) as [[g1 g2]|]; eexists; (split; [reflexivity|]);
      [repeat split; intros; simpl; congruence | right; reflexivity]. }
  destruct (startswith line "RF ") eqn:E4.
  { eexists; (split; [reflexivity|]); repeat split; intros; simpl; congruence. }
  eexists; (split; [reflexivity|]); repeat split.
Qed.

Lemma read_lines_spec (lines : list string) :
  forall (st : locals) (w : world (T:=T)),
  exists r,
    read_lines env st lines w = (r, w)
    /\ match r with
       | inl e => e = ValueError \/ e = AttributeError
       | inr st' => keeps (fun d => absent d lines) st st'
       end.
Proof.
  induction lines as [|line rest IH]; intros st w; simpl.
  - eexists. split; [reflexivity|]. repeat split.
  - destruct (read_line_spec st line w) as ([e|st1] & E1 & H1).
    + exists (inl e). split; [|exact H1]. unfold bind. now rewrite E1.
    + destruct (IH st1 w) as (r & E2 & H2).
      exists r. split; [unfold bind; rewrite E1; exact E2|].
      destruct r as [e|st2]; [exact H2|].
      destruct H1 as (a1 & b1 & c1 & d1), H2 as (a2 & b2 & c2 & d2).
      unfold absent.
      repeat split; intros H; inversion H; subst;
        [rewrite a2, a1|rewrite b2, b1|rewrite c2, c1|rewrite d2, d1]; auto.
Qed.

Lemma idle_not_assigned A (enter_to_quit : bool) (name : string) :
  preserves R (A:=A) (not_assigned enter_to_quit name).
Proof. unfold not_assigned. repeat idle_step. Qed.

Lemma idle_report_inputs (enter_to_quit : bool) (filename : string) (st : locals (T:=T)) :
  preserves R (report_inputs enter_to_quit filename st).
Proof. unfold report_inputs. repeat (idle_step || apply idle_not_assigned). Qed.

Lemma idle_read_config (enter_to_quit : bool) (filename : string) (lines : list string) :
  preserves R (read_config env enter_to_quit filename lines).
Proof.
  unfold read_config. repeat (idle_step || apply idle_report_inputs).
  intros w. destruct (read_lines_spec lines (mkLocals None None None [] None) w)
    as (r & E & _).
  rewrite E. apply frame_refl.
Qed.

Lemma idle_banner : preserves R banner.
Proof. unfold banner. repeat idle_step. Qed.

Lemma banner_returns (w : world (T:=T)) : banner w = (inr tt, snd (banner w)).
Proof. reflexivity. Qed.

(** The message of an unassigned directive is the last thing printed, but
    for the prompt. *)
Lemma not_assigned_said A (enter_to_quit : bool) (name : string) (w : world (T:=T)) :
  exists w',
    not_assigned (A:=A) enter_to_quit name w = (inl SystemExit, w')
    /\ In (Print ("ERROR: " ++ name ++ " not assigned!")) (w_out w').
Proof.
  destruct enter_to_quit; eexists; (split; [reflexivity|]); simpl.
  - apply in_or_app. left. apply in_or_app. right. left. reflexivity.
  - apply in_or_app. right. left. reflexivity.
Qed.

(** The run stops at the unassigned directive [name]. *)
Ltac stop_at ty etq name :=
  let w' := fresh "w'" in
  let E := fresh "E" in
  let Hin := fresh "Hin" in
  edestruct (not_assigned_said ty etq name) as (w' & E & Hin);
  exists w', name; erewrite bind_inl by exact E;
  split; [reflexivity|]; split; [simpl; auto 6|exact Hin].

(** With a required variable unbound, the report of the inputs ends the run. *)
Lemma report_inputs_missing (enter_to_quit : bool) (filename : string)
    (st : locals (T:=T)) (w : world (T:=T)) :
  l_t_0 st = None \/ l_t_f st = None \/ l_dt st = None \/ l_result_filename st = None ->
  exists w' name,
    report_inputs enter_to_quit filename st w = (inl SystemExit, w')
    /\ In name required
    /\ In (Print ("ERROR: " ++ name ++ " not assigned!")) (w_out w').
Proof.
  intros H. unfold report_inputs.
  destruct (l_MPdes st) as [|des0 rest];
    repeat (erewrite bind_inr by reflexivity); cbv beta;
    (destruct (l_t_0 st) as [t0|]; [|stop_at T enter_to_quit "T0"%string]);
    erewrite bind_inr by reflexivity;
    (destruct (l_t_f st) as [tf|]; [|stop_at T enter_to_quit "TF"%string]);
    erewrite bind_inr by reflexivity;
    (destruct (l_dt st) as [dt|]; [|stop_at T enter_to_quit "DT"%string]);
    erewrite bind_inr by reflexivity;
    (destruct (l_result_filename st) as [rf|]; [|stop_at string enter_to_quit "RF"%string]);
    destruct H as [H|[H|[H|H]]]; discriminate.
Qed.

End ConfigFacts.

Section MainFacts.
Context {T : Type} {ST : Scalar T}.
Variable env : Env (T:=T).

(** An exception in read_config ends main there. *)
Lemma main_stops_in_config (enter_to_quit : bool) (filename : string) (lines : list string)
    (w w' : world) (e : exn) :
  read_config env enter_to_quit filename lines (snd (banner w)) = (inl e, w') ->
  main env enter_to_quit filename lines w = (inl e, w') /\ untouched_run w w'.
Proof.
  intros H. split.
  - unfold main. erewrite bind_inr by apply banner_returns.
    erewrite bind_inl by exact H. reflexivity.
  - eapply frame_trans; [apply (idle_banner untouched_run)|].
    eapply (idle_snd untouched_run);
      [apply (idle_read_config env untouched_run)|exact H].
Qed.

(** An exception in the set-up of the particles ends main there. *)
Lemma main_stops_in_setup (enter_to_quit : bool) (filename : string) (lines : list string)
    (w w1 w' : world) (cfg : config) (e : exn) :
  read_config env enter_to_quit filename lines (snd (banner w)) = (inr cfg, w1) ->
  setup_mps env (cfg_MPdes cfg) (cfg_t_0 cfg) w1 = (inl e, w') ->
  main env enter_to_quit filename lines w = (inl e, w') /\ untouched_run w w'.
Proof.
  intros H1 H2. split.
  - unfold main. erewrite bind_inr by apply banner_returns.
    erewrite bind_inr by exact H1. cbv zeta.
    erewrite bind_inl by exact H2. reflexivity.
  - eapply frame_trans; [apply (idle_banner untouched_run)|].
    eapply frame_trans;
      [eapply (idle_snd untouched_run);
       [apply (idle_read_config env untouched_run)|exact H1]|].
    eapply (idle_snd untouched_run); [apply idle_setup_mps|exact H2].
Qed.

Lemma read_config_missing (enter_to_quit : bool) (filename : string) (lines : list string)
    (w : world) :
  absent "T0 " lines \/ absent "TF " lines \/ absent "DT " lines \/ absent "RF " lines ->
  exists e w',
    read_config env enter_to_quit filename lines w = (inl e, w')
    /\ (e = SystemExit
        /\ (exists name,
               In name required
               /\ In (Print ("ERROR: " ++ name ++ " not assigned!")) (w_out w'))
        \/ e = ValueError \/ e = AttributeError).
Proof.
  intros H. unfold read_config.
  erewrite bind_inr by reflexivity. erewrite bind_inr by reflexivity.
  match goal with
  | |- context [bind (read_lines env ?st lines) _ ?w0] =>
      destruct (read_lines_spec env lines st w0) as ([e|st'] & E & Hr)
  end.
  - exists e. eexists. erewrite bind_inl by exact E.
    split; [reflexivity|]. right. exact Hr.
  - erewrite bind_inr by exact E.
    destruct Hr as (a & b & c & d). cbn [l_t_0 l_t_f l_dt l_result_filename] in a, b, c, d.
    destruct (report_inputs_missing enter_to_quit filename st'
                (with_out ((w_out w ++ [Print EmptyString])
                           ++ [Print ("Reading inputs from " ++ filename ++ "...")]) w))
      as (w' & name & E' & Hn & Hin).
    + destruct H as [H|[H|[H|H]]]; auto.
    + exists SystemExit, w'. split; [exact E'|]. left. split; [reflexivity|].
      exists name. split; assumption.
Qed.

End MainFacts.

(** C8.  If no line of the configuration starts with one of the directives
    T0, TF, DT, RF, then main ends with an exception raised in read_config:
    either quit() after the message that the (first) missing directive is
    not assigned, or the ValueError / AttributeError of a malformed line
    met before; and until then nothing of the propagation has taken place
    (no attribute written, no record, the bodies not even created). *)
Theorem missing_directive_is_fatal (T : Type) (ST : Scalar T) (env : Env (T:=T))
    (enter_to_quit : bool) (filename : string) (lines : list string) (w : world (T:=T)) :
  absent "T0 " lines \/ absent "TF " lines \/ absent "DT " lines \/ absent "RF " lines ->
  exists e w',
    read_config env enter_to_quit filename lines (snd (banner w)) = (inl e, w')
    /\ main env enter_to_quit filename lines w = (inl e, w')
    /\ untouched_run w w'
    /\ (e = SystemExit
        /\ (exists name,
               In name required
               /\ In (Print ("ERROR: " ++ name ++ " not assigned!")) (w_out w'))
        \/ e = ValueError \/ e = AttributeError).
Proof.
  intros H.
  destruct (read_config_missing env enter_to_quit filename lines (snd (banner w)) H)
    as (e & w' & E & He).
  destruct (main_stops_in_config env enter_to_quit filename lines w w' e E) as [Hm Hu].
  exists e, w'. split; [exact E|]. split; [exact Hm|]. split; [exact Hu|exact He].
Qed.

(** A run of C8's statement: the configuration without its T0 line. *)
Lemma missing_directive_is_fatal_witness :
  absent "T0 " config_no_T0
  /\ exists e w',
       read_config (stub_env 200) false "minorbit.txt" config_no_T0
         (snd (banner empty_world)) = (inl e, w')
       /\ main (stub_env 200) false "minorbit.txt" config_no_T0 empty_world = (inl e, w')
       /\ untouched_run empty_world w'
       /\ (e = SystemExit
           /\ (exists name,
                  In name required
                  /\ In (Print ("ERROR: " ++ name ++ " not assigned!")) (w_out w'))
           \/ e = ValueError \/ e = AttributeError).
Proof.
  assert (H : absent "T0 " config_no_T0) by (repeat constructor).
  split; [exact H|].
  exact (missing_directive_is_fatal float float_Scalar (stub_env 200) false "minorbit.txt"
           config_no_T0 empty_world (or_introl H)).
Defined.

(** C10.  When getMPJPL returns and some request got a status other than
    200, the returned list is strictly shorter than the list of
    designations; the set-up loop of main then raises IndexError, main ends
    with it, and nothing of the propagation has taken place. *)
Theorem partial_retrieval_aborts_setup (T : Type) (ST : Scalar T) (env : Env (T:=T))
    (enter_to_quit : bool) (filename : string) (lines : list string)
    (w w1 w2 : world (T:=T)) (cfg : config) (svs : list (vec * vec)) :
  read_config env enter_to_quit filename lines (snd (banner w)) = (inr cfg, w1) ->
  getMPJPL env (cfg_MPdes cfg) (cfg_t_0 cfg) (with_mps [] w1) = (inr svs, w2) ->
  (exists des,
      In des (cfg_MPdes cfg)
      /\ status_code (requests_get env ("DES=" ++ des) (cfg_t_0 cfg)
                        (cfg_t_0 cfg + s_of_int 86400)%sc) <> 200%Z) ->
  List.length svs < List.length (cfg_MPdes cfg)
  /\ exists w',
       setup_mps env (cfg_MPdes cfg) (cfg_t_0 cfg) w1 = (inl IndexError, w')
       /\ main env enter_to_quit filename lines w = (inl IndexError, w')
       /\ untouched_run w w'.
Proof.
  intros Hcfg Hget (des & Hin & Hst).
  assert (Hlen : List.length svs < List.length (cfg_MPdes cfg)).
  { rewrite (getMPJPL_length env _ _ _ _ _ Hget).
    eapply succeeded_short; eassumption. }
  split; [exact Hlen|].
  destruct (setup_loop_fails (cfg_MPdes cfg) svs (List.length (cfg_MPdes cfg)) 0 w2
              ltac:(lia) ltac:(lia)) as (w' & E).
  assert (Hsetup : setup_mps env (cfg_MPdes cfg) (cfg_t_0 cfg) w1 = (inl IndexError, w')).
  { unfold setup_mps. erewrite bind_inr by reflexivity.
    erewrite bind_inr by exact Hget. exact E. }
  exists w'. split; [exact Hsetup|].
  apply (main_stops_in_setup env enter_to_quit filename lines w w1 w' cfg IndexError Hcfg Hsetup).
Qed.

(** ** Validation *)

Section ValidationFacts.
Context {T : Type} {ST : Scalar T}.
Variable env : Env (T:=T).

Lemma nth_error_skipn A (l : list A) :
  forall n, n < List.length l ->
            exists a, nth_error l n = Some a /\ skipn n l = a :: skipn (S n) l.
Proof.
  induction l as [|x l IH]; intros n Hn; simpl in Hn; [lia|].
  destruct n as [|n].
  - exists x. split; reflexivity.
  - destruct (IH n ltac:(lia)) as (a & E1 & E2). exists a. split; assumption.
Qed.

(** The error loop pairs the particles with the state vectors by position
    and changes nothing. *)
Lemma collect_errors_run (svs : list (vec (T:=T) * vec (T:=T))) (todo : list MP) :
  forall (done : list MP) (errs : list T) b tr o r,
    List.length done + List.length todo <= List.length svs ->
    collect_errors (List.length todo) (List.length done) svs errs
      (mkWorld (done ++ todo) b tr o r)
    = (inr (errs ++ map (fun ms => position_error (fst ms) (snd ms))
                      (combine todo (skipn (List.length done) svs))),
       mkWorld (done ++ todo) b tr o r).
Proof.
  induction todo as [|x todo IH]; intros done errs b tr o r Hlen; simpl.
  - now rewrite !app_nil_r.
  - simpl in Hlen.
    destruct (nth_error_skipn _ svs (List.length done) ltac:(lia)) as (sv & E1 & E2).
    erewrite bind_inr by apply get_mp_middle.
    erewrite bind_inr by (unfold index; rewrite E1; reflexivity).
    rewrite E2. simpl.
    specialize (IH (done ++ [x]) (errs ++ [position_error x sv]) b tr o r).
    rewrite length_app, <- !app_assoc in IH. simpl in IH.
    rewrite Nat.add_1_r in IH. apply IH. lia.
Qed.

Lemma for_each_print_val (label : string) (l : list T) :
  forall (w : world),
    for_each l (print_val label) w
    = (inr tt, with_out (w_out w ++ map (PrintVal label) l) w).
Proof.
  induction l as [|x l IH]; intros [mps b tr o r]; simpl.
  - unfold ret, with_out. simpl. now rewrite app_nil_r.
  - erewrite bind_inr by reflexivity. rewrite IH.
    unfold with_out. simpl. now rewrite <- app_assoc.
Qed.

Lemma validation_run (MP_des : list string) (date_final_actual : T)
    (w w1 : world) (svs : list (vec * vec)) :
  getMPJPL env MP_des date_final_actual w = (inr svs, w1) ->
  List.length (w_mps w) <= List.length svs ->
  validation env MP_des date_final_actual w
  = (inr tt,
     with_out
       (w_out w1
        ++ [Print EmptyString; Print "Validation - Minor planet final position errors:"]
        ++ map (PrintVal "AU")
             (map (fun ms => position_error (fst ms) (snd ms)) (combine (w_mps w) svs)))
       w1)
  /\ same_objects w w1.
Proof.
  intros Hget Hlen.
  assert (Hsame : same_objects w w1)
    by (eapply (idle_snd same_objects);
        [apply (idle_getMPJPL env same_objects)|exact Hget]).
  split; [|exact Hsame].
  destruct Hsame as [Hmps _].
  unfold validation. erewrite bind_inr by exact Hget.
  destruct w1 as [mps1 b1 tr1 o1 r1]. cbn [w_mps] in Hmps. subst mps1.
  erewrite bind_inr by reflexivity. cbn [w_mps].
  erewrite bind_inr
    by (apply (collect_errors_run svs (w_mps w) nil nil); simpl; lia).
  erewrite bind_inr by reflexivity.
  erewrite bind_inr by reflexivity.
  rewrite for_each_print_val.
  unfold with_out. cbn [w_mps w_bodies w_trace w_out w_result app skipn].
  now rewrite <- !app_assoc.
Qed.

End ValidationFacts.

(** C6.  When the truth source delivers a state vector for every particle,
    the validation returns normally, prints for every particle, in order,
    the value |propagated_position - true_position| / AU with
    AU = 1.495979e8, and leaves every particle, every body and every record
    as they were.  For the propagated position (1, 0, 0) and the true
    position (1 + 1.495979e8, 0, 0) the value is 1: exactly 1.0 on binary64,
    and 1 over the real numbers. *)
Theorem validation_reports_error :
  (forall (T : Type) (ST : Scalar T) (env : Env (T:=T)) (MP_des : list string)
          (date_final_actual : T) (w w1 : world (T:=T)) (svs : list (vec * vec)),
      getMPJPL env MP_des date_final_actual w = (inr svs, w1) ->
      List.length (w_mps w) <= List.length svs ->
      exists w',
        validation env MP_des date_final_actual w = (inr tt, w')
        /\ w_out w'
           = w_out w1
             ++ [Print EmptyString; Print "Validation - Minor planet final position errors:"]
             ++ map (PrintVal "AU")
                  (map (fun ms => (norm (vsub (mp_pos (fst ms)) (fst (snd ms)))
                                   / s_lit Lit.AU)%sc)
                     (combine (w_mps w) svs))
        /\ same_objects w w')
  /\ Lit.AU = 1.495979e8%Q
  /\ position_error (T:=float)
       (mkMP "2017 BX232" (V3 (s_of_int 1) (s_of_int 0) (s_of_int 0)) vzero)
       (V3 (s_of_int 1 + AU)%sc (s_of_int 0) (s_of_int 0), vzero)
     = PrimFloat.one
  /\ position_error (T:=R)
       (mkMP "2017 BX232" (V3 (s_of_int 1) (s_of_int 0) (s_of_int 0)) vzero)
       (V3 (s_of_int 1 + AU)%sc (s_of_int 0) (s_of_int 0), vzero)
     = 1%R.
Proof.
  split; [|split; [reflexivity|split; [vm_compute; reflexivity|]]].
  - intros T ST env MP_des date_final_actual w w1 svs Hget Hlen.
    destruct (validation_run env MP_des date_final_actual w w1 svs Hget Hlen) as [E Hs].
    eexists. split; [exact E|]. split.
    + destruct w1; reflexivity.
    + destruct Hs as (a & b & c & d). destruct w1; repeat split; assumption.
  - unfold position_error, norm, AU. cbn [mp_pos fst vsub vx vy vz s_sub s_add s_mul
      s_div s_sqrt s_of_int s_lit R_Scalar].
    assert (HAU : (0 < Q2R Lit.AU)%R)
      by (rewrite <- RMicromega.Q2R_0; apply Qlt_Rlt; reflexivity).
    replace ((1 - (1 + Q2R Lit.AU)) * (1 - (1 + Q2R Lit.AU)) + (0 - 0) * (0 - 0)
             + (0 - 0) * (0 - 0))%R
      with (Q2R Lit.AU * Q2R Lit.AU)%R by ring.
    rewrite sqrt_square by lra. field. lra.
Qed.

(** ** Runs of the set-up and of the validation on binary64 *)

(** A run of C6's statement: the particle at (1, 0, 0) against the truth
    (1 + 1.495979e8, 0, 0); the line printed is the error 1.0. *)
Lemma validation_reports_error_witness :
  getMPJPL truth_env ["2017 BX232"%string] (date 2024 1 13) propagated_world
  = (inr truth_vectors, propagated_world)
  /\ List.length (w_mps propagated_world) <= List.length truth_vectors
  /\ (exists w',
         validation truth_env ["2017 BX232"%string] (date 2024 1 13) propagated_world
         = (inr tt, w')
         /\ w_out w'
            = w_out propagated_world
              ++ [Print EmptyString; Print "Validation - Minor planet final position errors:"]
              ++ map (PrintVal "AU")
                   (map (fun ms => (norm (vsub (mp_pos (fst ms)) (fst (snd ms)))
                                    / s_lit Lit.AU)%sc)
                      (combine (w_mps propagated_world) truth_vectors))
         /\ same_objects propagated_world w')
  /\ map (fun ms => (norm (vsub (mp_pos (fst ms)) (fst (snd ms))) / s_lit Lit.AU)%sc)
       (combine (w_mps propagated_world) truth_vectors)
     = [PrimFloat.one].
Proof.
  assert (H1 : getMPJPL truth_env ["2017 BX232"%string] (date 2024 1 13) propagated_world
               = (inr truth_vectors, propagated_world)) by (vm_compute; reflexivity).
  assert (H2 : List.length (w_mps propagated_world) <= List.length truth_vectors)
    by (simpl; lia).
  split; [exact H1|]. split; [exact H2|]. split; [|vm_compute; reflexivity].
  exact (proj1 validation_reports_error float float_Scalar truth_env
           ["2017 BX232"%string] (date 2024 1 13) propagated_world propagated_world
           truth_vectors H1 H2).
Defined.

(** C7 at a failing input: one designation, and the service answers 503.
    The retrieval loop does not abort: it prints its message and returns
    the empty list.  The run does not proceed with it: main ends with the
    IndexError of the set-up loop, before any cycle. *)
Lemma partial_retrieval_stops_the_run :
  getMPJPL (stub_env 503) ["2017 BX232"%string] (date 2024 1 1) empty_world
  = (inr [], with_out [Print "Error 400 Server Unavailable"] empty_world)
  /\ exists w',
       main (stub_env 503) false "minorbit.txt" config_2024 empty_world
       = (inl IndexError, w')
       /\ w_mps w' = [] /\ w_trace w' = [] /\ w_result w' = []
       /\ last (w_out w') (Print EmptyString) = Print "Error 400 Server Unavailable".
Proof.
  split; [vm_compute; reflexivity|].
  eexists. split; [vm_compute; reflexivity|].
  repeat split.
Qed.

(** A run of C10's statement: the same input. *)
Lemma partial_retrieval_aborts_setup_witness :
  List.length (@nil (vec (T:=float) * vec (T:=float)))
  < List.length (cfg_MPdes config_2024_read)
  /\ exists w',
       setup_mps (stub_env 503) (cfg_MPdes config_2024_read) (cfg_t_0 config_2024_read)
         after_config_2024 = (inl IndexError, w')
       /\ main (stub_env 503) false "minorbit.txt" config_2024 empty_world
          = (inl IndexError, w')
       /\ untouched_run empty_world w'.
Proof.
  apply (partial_retrieval_aborts_setup float float_Scalar (stub_env 503) false
           "minorbit.txt" config_2024 empty_world after_config_2024
           (snd (getMPJPL (stub_env 503) (cfg_MPdes config_2024_read)
                   (cfg_t_0 config_2024_read) (with_mps [] after_config_2024)))
           config_2024_read []).
  - vm_compute. reflexivity.
  - vm_compute. reflexivity.
  - exists "2017 BX232"%string. split; [left; reflexivity|].
    vm_compute. discriminate.
Defined.

(** The zero-force motion on binary64: one massless body, three cycles of
    one day.  The velocity is bit for bit the initial one; each coordinate
    of the position is within 2^-50 of the displacement from the ideal
    one. *)
Example zero_force_binary64_run :
  let mp := mkMP "2017 BX232" (V3 1 2 3)%float (V3 0.5 (-0.25) 0.125)%float in
  let body := mkMainBody "SUN" (V3 10 0 0)%float 0%float in
  let run := main_loop (stub_env 200) 0%float 86400%float 3
               (mkWorld [mp] [body] [] [] []) in
  let close x y d := PrimFloat.leb (PrimFloat.abs (x - y))
                       (PrimFloat.abs d / 1125899906842624)%float in
  fst run = inr tt
  /\ map mp_vel (w_mps (snd run)) = [mp_vel mp]
  /\ map (fun mp' =>
            (close (vx (mp_pos mp')) (1 + 0.5 * 86400 * 3) (0.5 * 86400 * 3)
             && close (vy (mp_pos mp')) (2 + -0.25 * 86400 * 3) (-0.25 * 86400 * 3)
             && close (vz (mp_pos mp')) (3 + 0.125 * 86400 * 3) (0.125 * 86400 * 3))%float)
       (w_mps (snd run))
     = [true].
Proof. vm_compute. repeat split. Qed.

(** The run of [config_no_T0]: quit() after the message about T0. *)
Example missing_T0_run :
  exists w',
    main (stub_env 200) false "minorbit.txt" config_no_T0 empty_world
    = (inl SystemExit, w')
    /\ last (w_out w') (Print EmptyString) = Print "ERROR: T0 not assigned!"
    /\ w_trace w' = [] /\ w_result w' = [].
Proof. eexists. split; [vm_compute; reflexivity|]. repeat split. Qed.

(** * Further properties of the program *)

(** X1.  A macro step treats the particles independently of one another:
    the new state of a particle is a function ([step_particle]) of its own
    old state, the bodies and dt; hence stepping a list of particles is
    stepping its parts. *)
Theorem stepYoshida8_particles_independent (T : Type) (ST : Scalar T) (dt : T)
    (mps1 mps2 : list MP) (b : list MainBody) (tr : list event) (o : list output)
    (r : list record) :
  w_mps (snd (stepYoshida8 dt (mkWorld (mps1 ++ mps2) b tr o r)))
  = w_mps (snd (stepYoshida8 dt (mkWorld mps1 b tr o r)))
    ++ w_mps (snd (stepYoshida8 dt (mkWorld mps2 b tr o r)))
  /\ w_mps (snd (stepYoshida8 dt (mkWorld (mps1 ++ mps2) b tr o r)))
     = map (step_particle b dt) (mps1 ++ mps2).
Proof.
  rewrite !stepYoshida8_run. cbn [snd w_mps].
  rewrite !yoshida8_spec_map, map_app. split; reflexivity.
Qed.

(** X2.  A macro step keeps the particles: as many as before, in the same
    order, each with its designation. *)
Theorem stepYoshida8_keeps_designations (T : Type) (ST : Scalar T) (dt : T) (w : world) :
  map mp_des (w_mps (snd (stepYoshida8 dt w))) = map mp_des (w_mps w)
  /\ List.length (w_mps (snd (stepYoshida8 dt w))) = List.length (w_mps w).
Proof.
  destruct w as [mps b tr o r]. rewrite stepYoshida8_run. cbn [snd w_mps].
  rewrite yoshida8_spec_map. split.
  - rewrite map_map. apply map_ext. intros mp. apply step_particle_des.
  - apply length_map.
Qed.

(** X4.  The weights are symmetric, c[i] = c[15-i] and d[i] = d[14-i], and
    every position weight is the mean of the velocity weights next to it
    (the first and the last being half of one) to within 2^-52. *)
Theorem coefficients_symmetric :
  rev Lit.cs = Lit.cs /\ rev Lit.ds = Lit.ds
  /\ (forall T (ST : Scalar T), rev (cs (T:=T)) = cs /\ rev (ds (T:=T)) = ds)
  /\ Forall (fun i => (Qabs.Qabs (nth i Lit.cs 0 - mean_of_neighbours i)
                       <= 1 # 4503599627370496)%Q) (seq 0 16).
Proof.
  split; [reflexivity|]. split; [reflexivity|]. split.
  - intros T ST. split; reflexivity.
  - repeat constructor; apply Qle_bool_iff; vm_compute; reflexivity.
Qed.

(** ** Retrieval of the state vectors *)

Section RetrievalResults.
Context {T : Type} {ST : Scalar T}.
Variable env : Env (T:=T).

Lemma with_out_same (w : world (T:=T)) : with_out (w_out w ++ []) w = w.
Proof. destruct w. unfold with_out. simpl. now rewrite app_nil_r. Qed.

Lemma with_out_app (w : world (T:=T)) (l1 l2 : list output) :
  with_out (w_out (with_out (w_out w ++ l1) w) ++ l2) (with_out (w_out w ++ l1) w)
  = with_out (w_out w ++ l1 ++ l2) w.
Proof. unfold with_out. simpl. now rewrite app_assoc. Qed.

Lemma parses_ret A (a : A) : parses (T:=T) (ret a).
Proof. intros w. split; [reflexivity|simpl; congruence]. Qed.

Lemma parses_raise A : parses (T:=T) (raise (A:=A) ValueError).
Proof. intros w. split; [reflexivity|simpl; congruence]. Qed.

Lemma parses_bind A B (m : M A) (f : A -> M B) :
  parses (T:=T) m -> (forall a, parses (f a)) -> parses (bind m f).
Proof.
  intros Hm Hf w. destruct (Hm w) as [Em He]. destruct (Hm empty_world) as [Em0 _].
  unfold bind. rewrite Em, Em0.
  destruct (fst (m empty_world)) as [e|a].
  - split; [reflexivity|]. intros e' E. simpl in E. injection E as <-. now apply He.
  - apply Hf.
Qed.

Lemma parses_float_ (s : string) : parses (float_ env s).
Proof.
  unfold float_. destruct (float_of_string env s); [apply parses_ret|apply parses_raise].
Qed.

Lemma parses_floats3 (m : string * string * string) : parses (floats3 env m).
Proof.
  destruct m as [[a b] c]. unfold floats3.
  repeat (apply parses_bind; [apply parses_float_|intro]). apply parses_ret.
Qed.

(** parseMPJPL reads and writes nothing of the store, and the only error it
    raises is ValueError. *)
Lemma parses_parseMPJPL (s : string) : parses (parseMPJPL env s).
Proof.
  unfold parseMPJPL.
  destruct (position_findall env s) as [|p0 [|p1 ps]]; try apply parses_raise.
  destruct (velocity_findall env s) as [|v0 [|v1 vs]]; try apply parses_raise.
  cbn [List.length Nat.leb andb index nth_error].
  repeat (apply parses_bind;
          [first [apply parses_ret | apply parses_floats3]|intro]).
  apply parses_ret.
Qed.

End RetrievalResults.

Section RetrievalRuns.
Context {T : Type} {ST : Scalar T}.
Variable env : Env (T:=T).
Variable start_time : T.

Let stop_time : T := (start_time + s_of_int 86400)%sc.
Let status (des : string) : Z :=
  status_code (requests_get env ("DES=" ++ des) start_time stop_time).

Lemma parse_answer (des : string) (w : world (T:=T)) :
  parseMPJPL env (text (requests_get env ("DES=" ++ des) start_time stop_time)) w
  = (state_vector env start_time des, w).
Proof. apply parses_parseMPJPL. Qed.

Lemma state_vector_exn (des : string) (e : exn) :
  state_vector env start_time des = inl e -> e = ValueError.
Proof. apply (parses_parseMPJPL env _ empty_world). Qed.

(** The progress line of a turn, if any. *)
Lemma progress_says (n i : nat) (w : world (T:=T)) :
  exists lines,
    (if ((1 <? i) && (i mod 20 =? 0))%nat
     then print_val "Getting minor planet state vectors: %"
            (s_of_int (Z.of_nat i) / s_of_int (Z.of_nat n) * s_of_int 100)%sc
     else ret tt) w = (inr tt, with_out (w_out w ++ lines) w)
    /\ Forall (retrieval_line (T:=T)) lines
    /\ (i < 20 -> lines = []).
Proof.
  destruct ((1 <? i) && (i mod 20 =? 0))%nat eqn:E.
  - eexists. split; [reflexivity|]. split; [repeat constructor|].
    intros Hi. apply andb_prop in E as [E1 E2].
    apply Nat.ltb_lt in E1. apply Nat.eqb_eq in E2.
    rewrite Nat.mod_small in E2 by exact Hi. lia.
  - exists []. split; [now rewrite with_out_same|]. split; [constructor|reflexivity].
Qed.

(** A turn for a request with the status 200 and an answer that parses. *)
Lemma getMPJPL_body_ok (n i : nat) (des : string) (acc : list (vec * vec))
    (sv : vec * vec) (w : world (T:=T)) :
  status des = 200%Z -> state_vector env start_time des = inr sv ->
  exists lines,
    getMPJPL_body env n i des start_time stop_time acc w
    = (inr (acc ++ [sv]), with_out (w_out w ++ lines) w)
    /\ Forall (retrieval_line (T:=T)) lines.
Proof.
  intros Hs Hv. unfold getMPJPL_body. fold (status des). rewrite Hs.
  cbn [Z.eqb Pos.eqb]. unfold vprint, verbose.
  destruct (progress_says n i w) as (lines & E & HP & _). exists lines.
  split; [|exact HP].
  erewrite bind_inr
    by (erewrite bind_inr by (rewrite parse_answer, Hv; reflexivity);
        erewrite bind_inr by reflexivity; reflexivity).
  erewrite bind_inr by exact E. reflexivity.
Qed.

(** A turn for a request with the status 200 and an answer that does not
    parse. *)
Lemma getMPJPL_body_bad (n i : nat) (des : string) (acc : list (vec * vec))
    (e : exn) (w : world (T:=T)) :
  status des = 200%Z -> state_vector env start_time des = inl e ->
  getMPJPL_body env n i des start_time stop_time acc w = (inl ValueError, w).
Proof.
  intros Hs Hv. unfold getMPJPL_body. fold (status des). rewrite Hs.
  cbn [Z.eqb Pos.eqb]. rewrite (state_vector_exn _ _ Hv) in Hv.
  erewrite bind_inl; [reflexivity|].
  erewrite bind_inl; [reflexivity|]. rewrite parse_answer, Hv. reflexivity.
Qed.

(** A turn for a request with another status. *)
Lemma getMPJPL_body_skip (n i : nat) (des : string) (acc : list (vec * vec))
    (w : world (T:=T)) :
  status des <> 200%Z ->
  exists lines,
    getMPJPL_body env n i des start_time stop_time acc w
    = (inr acc, with_out (w_out w ++ lines) w)
    /\ Forall (retrieval_line (T:=T)) lines
    /\ (known_status (status des) = false -> i < 20 -> lines = []).
Proof.
  intros Hs. unfold getMPJPL_body. fold (status des).
  apply Z.eqb_neq in Hs. rewrite Hs. unfold known_status. cbn [existsb]. rewrite Hs.
  destruct (progress_says n i w) as (l0 & E0 & HP0 & Hl0).
  destruct (status des =? 400)%Z;
    [|destruct (status des =? 405)%Z;
      [|destruct (status des =? 500)%Z; [|destruct (status des =? 503)%Z]]].
  5: { exists l0. split; [|split; [exact HP0|intros _; exact Hl0]].
       erewrite bind_inr by reflexivity. erewrite bind_inr by exact E0. reflexivity. }
  all: match goal with
       | |- context [print ?s] =>
           destruct (progress_says n i (with_out (w_out w ++ [Print s]) w))
             as (lines & E & HP & _);
           exists ([Print s] ++ lines);
           split; [|split; [constructor; [reflexivity|exact HP]
                           |cbn [orb]; try rewrite !orb_true_r; discriminate]];
           erewrite bind_inr by (erewrite bind_inr by reflexivity; reflexivity);
           erewrite bind_inr by exact E; rewrite with_out_app; reflexivity
       end.
Qed.

End RetrievalRuns.

Section RetrievalLoop.
Context {T : Type} {ST : Scalar T}.
Variable env : Env (T:=T).
Variable start_time : T.

Let stop_time : T := (start_time + s_of_int 86400)%sc.
Let status (des : string) : Z :=
  status_code (requests_get env ("DES=" ++ des) start_time stop_time).

Lemma succeeded_head (des : string) (rest : list string) :
  succeeded env start_time stop_time (des :: rest)
  = (if (status des =? 200)%Z then [des] else [])
    ++ succeeded env start_time stop_time rest.
Proof.
  unfold succeeded, status. cbn [filter].
  now destruct (status_code (requests_get env ("DES=" ++ des) start_time stop_time) =? 200)%Z.
Qed.

(** The loop when every answer with the status 200 parses. *)
Lemma getMPJPL_loop_ok (n : nat) (designations : list string) :
  (forall des, In des designations -> status des = 200%Z ->
               exists sv, state_vector env start_time des = inr sv) ->
  forall (i : nat) (acc : list (vec * vec)) (w : world (T:=T)),
  exists svs lines,
    getMPJPL_loop env n i designations start_time stop_time acc w
    = (inr (acc ++ svs), with_out (w_out w ++ lines) w)
    /\ map inr svs
       = map (state_vector env start_time) (succeeded env start_time stop_time designations)
    /\ Forall (retrieval_line (T:=T)) lines.
Proof.
  induction designations as [|des rest IH]; intros H i acc w; cbn [getMPJPL_loop].
  - exists [], []. rewrite app_nil_r, with_out_same.
    split; [reflexivity|]. split; [reflexivity|constructor].
  - rewrite succeeded_head.
    destruct (Z.eq_dec (status des) 200) as [Hs|Hs].
    + destruct (H des (or_introl eq_refl) Hs) as (sv & Hv).
      destruct (getMPJPL_body_ok env start_time n i des acc sv w Hs Hv) as (l1 & E1 & HP1).
      destruct (IH (fun d Hd => H d (or_intror Hd)) (S i) (acc ++ [sv])
                  (with_out (w_out w ++ l1) w)) as (svs & l2 & E2 & Hm & HP2).
      exists (sv :: svs), (l1 ++ l2).
      erewrite bind_inr by exact E1. rewrite E2, with_out_app, <- app_assoc.
      split; [reflexivity|]. split; [|now apply Forall_app].
      apply Z.eqb_eq in Hs. rewrite Hs. cbn [app map]. now rewrite Hm, Hv.
    + destruct (getMPJPL_body_skip env start_time n i des acc w Hs) as (l1 & E1 & HP1 & _).
      destruct (IH (fun d Hd => H d (or_intror Hd)) (S i) acc
                  (with_out (w_out w ++ l1) w)) as (svs & l2 & E2 & Hm & HP2).
      exists svs, (l1 ++ l2).
      erewrite bind_inr by exact E1. rewrite E2, with_out_app.
      split; [reflexivity|]. split; [|now apply Forall_app].
      apply Z.eqb_neq in Hs. rewrite Hs. exact Hm.
Qed.

(** The loop in general: only lines of output are added, and a failure is a
    ValueError for an answer with the status 200 that does not parse. *)
Lemma getMPJPL_loop_says (n : nat) (designations : list string) :
  forall (i : nat) (acc : list (vec * vec)) (w : world (T:=T)),
  exists lines,
    snd (getMPJPL_loop env n i designations start_time stop_time acc w)
    = with_out (w_out w ++ lines) w
    /\ Forall (retrieval_line (T:=T)) lines
    /\ (forall e, fst (getMPJPL_loop env n i designations start_time stop_time acc w) = inl e ->
                  e = ValueError
                  /\ exists des, In des designations /\ status des = 200%Z
                                 /\ state_vector env start_time des = inl ValueError).
Proof.
  induction designations as [|des rest IH]; intros i acc w; cbn [getMPJPL_loop].
  - exists []. rewrite with_out_same. split; [reflexivity|].
    split; [constructor|]. simpl. discriminate.
  - destruct (Z.eq_dec (status des) 200) as [Hs|Hs].
    + destruct (state_vector env start_time des) as [e|sv] eqn:Hv.
      * exists []. erewrite bind_inl by (eapply getMPJPL_body_bad; eassumption).
        rewrite with_out_same. split; [reflexivity|]. split; [constructor|].
        intros e' E. simpl in E. injection E as <-. split; [reflexivity|].
        exists des. split; [now left|]. split; [exact Hs|].
        now rewrite (state_vector_exn env start_time des e Hv) in Hv.
      * destruct (getMPJPL_body_ok env start_time n i des acc sv w Hs Hv)
          as (l1 & E1 & HP1).
        destruct (IH (S i) (acc ++ [sv]) (with_out (w_out w ++ l1) w))
          as (l2 & E2 & HP2 & He).
        exists (l1 ++ l2). erewrite bind_inr by exact E1.
        rewrite E2, with_out_app. split; [reflexivity|]. split; [now apply Forall_app|].
        intros e E. destruct (He e E) as (-> & d & Hd & Hd'). split; [reflexivity|].
        exists d. split; [now right|exact Hd'].
    + destruct (getMPJPL_body_skip env start_time n i des acc w Hs) as (l1 & E1 & HP1 & _).
      destruct (IH (S i) acc (with_out (w_out w ++ l1) w)) as (l2 & E2 & HP2 & He).
      exists (l1 ++ l2). erewrite bind_inr by exact E1.
      rewrite E2, with_out_app. split; [reflexivity|]. split; [now apply Forall_app|].
      intros e E. destruct (He e E) as (-> & d & Hd & Hd'). split; [reflexivity|].
      exists d. split; [now right|exact Hd'].
Qed.

(** The loop over requests whose status is none of the five. *)
Lemma getMPJPL_loop_silent (n : nat) (designations : list string) :
  (forall des, In des designations -> known_status (status des) = false) ->
  forall (i : nat) (acc : list (vec * vec)) (w : world (T:=T)),
    i + List.length designations <= 20 ->
    getMPJPL_loop env n i designations start_time stop_time acc w = (inr acc, w).
Proof.
  induction designations as [|des rest IH]; intros H i acc w Hi; cbn [getMPJPL_loop].
  - reflexivity.
  - cbn [List.length] in Hi.
    assert (Hk := H des (or_introl eq_refl)).
    assert (Hs : status des <> 200%Z).
    { intros E. unfold known_status in Hk. rewrite E in Hk. discriminate. }
    destruct (getMPJPL_body_skip env start_time n i des acc w Hs) as (l1 & E1 & _ & Hl).
    rewrite (Hl Hk ltac:(lia)), with_out_same in E1.
    erewrite bind_inr by exact E1.
    apply IH; [intros d Hd; apply H; now right|lia].
Qed.

End RetrievalLoop.

Section RetrievalUse.
Context {T : Type} {ST : Scalar T}.
Variable env : Env (T:=T).

Lemma succeeded_all (start_time stop_time : T) (designations : list string) :
  (forall des, In des designations ->
     status_code (requests_get env ("DES=" ++ des) start_time stop_time) = 200%Z) ->
  succeeded env start_time stop_time designations = designations.
Proof.
  intros H. unfold succeeded. induction designations as [|des rest IH]; [reflexivity|].
  cbn [filter]. rewrite (H des (or_introl eq_refl)). cbn [Z.eqb Pos.eqb].
  f_equal. apply IH. intros d Hd. apply H. now right.
Qed.

(** The stop date cannot be formed: nothing is requested. *)
Lemma getMPJPL_overflow (designations : list string) (start_time : T) (w : world (T:=T)) :
  s_date_ok (start_time + s_of_int 86400)%sc = false ->
  getMPJPL env designations start_time w = (inl OverflowError, w).
Proof. intros H. unfold getMPJPL. cbv zeta. rewrite H. reflexivity. Qed.

Lemma getMPJPL_ok (designations : list string) (start_time : T) (w : world (T:=T)) :
  s_date_ok (start_time + s_of_int 86400)%sc = true ->
  (forall des, In des designations ->
     status_code (requests_get env ("DES=" ++ des) start_time (start_time + s_of_int 86400)%sc)
     = 200%Z ->
     exists sv, state_vector env start_time des = inr sv) ->
  exists svs lines,
    getMPJPL env designations start_time w = (inr svs, with_out (w_out w ++ lines) w)
    /\ map inr svs
       = map (state_vector env start_time)
           (succeeded env start_time (start_time + s_of_int 86400)%sc designations)
    /\ Forall (retrieval_line (T:=T)) lines.
Proof.
  intros Hd H. unfold getMPJPL, vprint, verbose. cbv zeta. rewrite Hd.
  erewrite bind_inr by reflexivity.
  destruct (getMPJPL_loop_ok env start_time (List.length designations) designations H 0 [] w)
    as (svs & lines & E & Hm & HP).
  exists svs, lines. erewrite bind_inr by exact E.
  erewrite bind_inr by reflexivity. split; [reflexivity|]. split; [exact Hm|exact HP].
Qed.

Lemma getMPJPL_run (designations : list string) (start_time : T) (w : world (T:=T)) :
  exists lines,
    snd (getMPJPL env designations start_time w) = with_out (w_out w ++ lines) w
    /\ Forall (retrieval_line (T:=T)) lines
    /\ (forall e, fst (getMPJPL env designations start_time w) = inl e ->
                  e = ValueError \/ e = OverflowError)
    /\ (s_date_ok (start_time + s_of_int 86400)%sc = true ->
        (forall des, In des designations ->
           status_code (requests_get env ("DES=" ++ des) start_time
                          (start_time + s_of_int 86400)%sc) = 200%Z
           /\ exists sv, state_vector env start_time des = inr sv) ->
        exists svs, fst (getMPJPL env designations start_time w) = inr svs
                    /\ map inr svs = map (state_vector env start_time) designations).
Proof.
  destruct (s_date_ok (start_time + s_of_int 86400)%sc) eqn:Hd.
  2: { exists []. rewrite (getMPJPL_overflow designations start_time w Hd), with_out_same.
       split; [reflexivity|]. split; [constructor|].
       split; [intros e E; simpl in E; injection E as <-; now right|discriminate]. }
  unfold getMPJPL, vprint, verbose. cbv zeta. rewrite Hd.
  erewrite !bind_inr by reflexivity.
  destruct (getMPJPL_loop_says env start_time (List.length designations) designations 0 [] w)
    as (lines & E & HP & He).
  exists lines. split; [|split; [exact HP|split]].
  - unfold bind at 1.
    destruct (getMPJPL_loop env _ 0 designations start_time _ [] w) as [[e|svs] w1];
      simpl in E; subst w1; reflexivity.
  - intros e H. left. apply He. unfold bind in H.
    destruct (getMPJPL_loop env _ 0 designations start_time _ [] w) as [[e1|svs] w1];
      [exact H|discriminate].
  - intros _ H.
    destruct (getMPJPL_loop_ok env start_time (List.length designations) designations
                (fun des Hd _ => proj2 (H des Hd)) 0 [] w) as (svs & l2 & E2 & Hm & _).
    exists svs. erewrite bind_inr by exact E2. split; [reflexivity|].
    rewrite succeeded_all in Hm by (intros des Hd'; apply H, Hd'). exact Hm.
Qed.

Lemma getMPJPL_silent (designations : list string) (start_time : T) (w : world (T:=T)) :
  s_date_ok (start_time + s_of_int 86400)%sc = true ->
  (forall des, In des designations ->
     known_status
       (status_code (requests_get env ("DES=" ++ des) start_time
                       (start_time + s_of_int 86400)%sc)) = false) ->
  List.length designations <= 20 ->
  getMPJPL env designations start_time w = (inr [], w).
Proof.
  intros Hd H Hlen. unfold getMPJPL, vprint, verbose. cbv zeta. rewrite Hd.
  erewrite bind_inr by reflexivity.
  erewrite bind_inr
    by (apply (getMPJPL_loop_silent env start_time _ designations H 0 [] w); simpl; lia).
  reflexivity.
Qed.

End RetrievalUse.

(** X8.  When the day after the start date can be formed and every request
    that gets the status 200 has an answer that parseMPJPL accepts, getMPJPL
    returns, and its list holds exactly the parsed state vectors of the
    designations whose request got the status 200, in the order of the
    designations: a request with another status leaves no entry and no gap.
    The store is changed by lines of output only.  When the day after the
    start date lies past 9999-12-31, getMPJPL raises OverflowError before
    any request. *)
Theorem getMPJPL_returns_the_parsed_answers (T : Type) (ST : Scalar T) (env : Env (T:=T))
    (designations : list string) (start_time : T) (w : world (T:=T)) :
  (s_date_ok (start_time + s_of_int 86400)%sc = true ->
   (forall des, In des designations ->
      status_code (requests_get env ("DES=" ++ des) start_time
                     (start_time + s_of_int 86400)%sc) = 200%Z ->
      exists sv, state_vector env start_time des = inr sv) ->
   exists svs lines,
     getMPJPL env designations start_time w = (inr svs, with_out (w_out w ++ lines) w)
     /\ map inr svs
        = map (state_vector env start_time)
            (succeeded env start_time (start_time + s_of_int 86400)%sc designations))
  /\ (s_date_ok (start_time + s_of_int 86400)%sc = false ->
      getMPJPL env designations start_time w = (inl OverflowError, w)).
Proof.
  split.
  - intros Hd H.
    destruct (getMPJPL_ok env designations start_time w Hd H) as (svs & lines & E & Hm & _).
    exists svs, lines. split; assumption.
  - apply getMPJPL_overflow.
Qed.

(** A run of X8's statement: three designations, the second answered with
    the status 503; the list returned holds the vectors of the first and of
    the third, and one message has been printed. *)
Lemma getMPJPL_returns_the_parsed_answers_witness :
  (exists svs lines,
      getMPJPL mixed_env three_designations (date 2024 1 1) empty_world
      = (inr svs, with_out (w_out empty_world ++ lines) empty_world)
      /\ map inr svs
         = map (state_vector mixed_env (date 2024 1 1))
             (succeeded mixed_env (date 2024 1 1) (date 2024 1 1 + s_of_int 86400)%sc
                three_designations))
  /\ succeeded mixed_env (date 2024 1 1) (date 2024 1 1 + s_of_int 86400)%sc
       three_designations = ["2017 BX232"; "2017 BM230"]%string
  /\ fst (getMPJPL mixed_env three_designations (date 2024 1 1) empty_world)
     = inr [(V3 (float_of_Z 1) (float_of_Z 0) (float_of_Z 0),
             V3 (float_of_Z 0) (float_of_Z 1) (float_of_Z 0));
            (V3 (float_of_Z 2) (float_of_Z 0) (float_of_Z 0),
             V3 (float_of_Z 0) (float_of_Z 1) (float_of_Z 0))]
  /\ w_out (snd (getMPJPL mixed_env three_designations (date 2024 1 1) empty_world))
     = [Print "Error 400 Server Unavailable"].
Proof.
  split; [|split; [|split]; vm_compute; reflexivity].
  apply (proj1 (getMPJPL_returns_the_parsed_answers float float_Scalar mixed_env
                  three_designations (date 2024 1 1) empty_world)).
  - vm_compute. reflexivity.
  - intros des [<-|[<-|[<-|[]]]] Hs;
      [eexists; vm_compute; reflexivity
      |vm_compute in Hs; discriminate
      |eexists; vm_compute; reflexivity].
Defined.

(** X9.  Whatever the answers are, getMPJPL changes the store only by adding
    lines of output, and each line is a progress line or a message that
    starts with Error 400 (also for the statuses 405, 500 and 503); it never
    waits for input.  When the day after the start date can be formed, the
    status of every request is none of 200, 400, 405, 500 and 503 and there
    are at most 20 designations, it returns the empty list and prints
    nothing at all. *)
Theorem getMPJPL_messages (T : Type) (ST : Scalar T) (env : Env (T:=T))
    (designations : list string) (start_time : T) :
  says (retrieval_line (T:=T)) (getMPJPL env designations start_time)
  /\ (s_date_ok (start_time + s_of_int 86400)%sc = true ->
      (forall des, In des designations ->
         known_status
           (status_code (requests_get env ("DES=" ++ des) start_time
                           (start_time + s_of_int 86400)%sc)) = false) ->
      List.length designations <= 20 ->
      forall w, getMPJPL env designations start_time w = (inr [], w)).
Proof.
  split.
  - intros w. destruct (getMPJPL_run env designations start_time w) as (lines & E & HP & _).
    exists lines. split; assumption.
  - intros Hd H Hlen w. now apply getMPJPL_silent.
Qed.

(** A run of X9's statement: two designations and a service that answers
    every request with the status 404. *)
Lemma getMPJPL_messages_witness :
  getMPJPL (stub_env 404) ["2017 BX232"; "2017 AC64"]%string (date 2024 1 1) propagated_world
  = (inr [], propagated_world).
Proof.
  apply (proj2 (getMPJPL_messages float float_Scalar (stub_env 404)
                  ["2017 BX232"; "2017 AC64"]%string (date 2024 1 1))).
  - vm_compute. reflexivity.
  - intros des _. reflexivity.
  - simpl. lia.
Defined.

Section SetupResults.
Context {T : Type} {ST : Scalar T}.
Variable env : Env (T:=T).

(** The set-up loop when there is a state vector for every designation. *)
Lemma setup_loop_ok (MP_des : list string) (svs : list (vec (T:=T) * vec (T:=T))) :
  forall (todo_d done_d : list string) (todo_s done_s : list (vec * vec)) (w : world (T:=T)),
    MP_des = done_d ++ todo_d -> svs = done_s ++ todo_s ->
    List.length done_d = List.length done_s ->
    List.length todo_d = List.length todo_s ->
    for_range (List.length todo_d) (List.length done_d) (fun i =>
      sv <- index svs i ;;
      des <- index MP_des i ;;
      append_mp (mkMP des (fst sv) (snd sv))) w
    = (inr tt,
       with_mps (w_mps w ++ map (fun ds => mkMP (fst ds) (fst (snd ds)) (snd (snd ds)))
                               (combine todo_d todo_s)) w).
Proof.
  induction todo_d as [|des todo_d IH]; intros done_d todo_s done_s w Hd Hs Hl Hl2.
  - destruct w. unfold with_mps. simpl. now rewrite app_nil_r.
  - destruct todo_s as [|sv todo_s]; [discriminate|].
    cbn [List.length for_range].
    erewrite bind_inr.
    2: { erewrite bind_inr
           by (unfold index; rewrite Hs, Hl, nth_error_middle; reflexivity).
         erewrite bind_inr
           by (unfold index; rewrite Hd, nth_error_middle; reflexivity).
         reflexivity. }
    specialize (IH (done_d ++ [des]) todo_s (done_s ++ [sv])
                  (with_mps (w_mps w ++ [mkMP des (fst sv) (snd sv)]) w)).
    rewrite length_app, Nat.add_1_r in IH. rewrite IH.
    + unfold with_mps. cbn [w_mps w_bodies w_trace w_out w_result combine map fst snd].
      now rewrite <- app_assoc.
    + now rewrite <- app_assoc.
    + now rewrite <- app_assoc.
    + rewrite !length_app. simpl. lia.
    + simpl in Hl2. lia.
Qed.

Lemma particles_of (start_time : T) (MP_des : list string) :
  forall svs : list (vec * vec),
    map inr svs = map (state_vector env start_time) MP_des ->
    map Some (map (fun ds => mkMP (fst ds) (fst (snd ds)) (snd (snd ds))) (combine MP_des svs))
    = map (particle_of env start_time) MP_des.
Proof.
  induction MP_des as [|des rest IH]; intros [|sv svs] H; try discriminate; [reflexivity|].
  cbn [map] in H. injection H as H1 H2.
  cbn [combine map fst snd]. rewrite (IH svs H2). unfold particle_of at 2.
  now rewrite <- H1.
Qed.

(** The error loop when a state vector is missing. *)
Lemma collect_errors_short (svs : list (vec (T:=T) * vec (T:=T))) (todo : list MP) :
  forall (done : list MP) (errs : list T) b tr o r,
    List.length done <= List.length svs < List.length done + List.length todo ->
    collect_errors (List.length todo) (List.length done) svs errs
      (mkWorld (done ++ todo) b tr o r)
    = (inl IndexError, mkWorld (done ++ todo) b tr o r).
Proof.
  induction todo as [|x todo IH]; intros done errs b tr o r Hlen; simpl in *; [lia|].
  erewrite bind_inr by apply get_mp_middle.
  destruct (nth_error svs (List.length done)) as [sv|] eqn:E.
  - erewrite bind_inr by (unfold index; rewrite E; reflexivity).
    assert (Hlt : List.length done < List.length svs) by (apply nth_error_Some; congruence).
    specialize (IH (done ++ [x]) (errs ++ [(norm (vsub (mp_pos x) (fst sv)) / AU)%sc])
                  b tr o r).
    rewrite length_app, <- !app_assoc in IH. simpl in IH.
    rewrite Nat.add_1_r in IH. apply IH. lia.
  - erewrite bind_inl by (unfold index; rewrite E; reflexivity). reflexivity.
Qed.

End SetupResults.

Section SetupRun.
Context {T : Type} {ST : Scalar T}.
Variable env : Env (T:=T).

Lemma setup_mps_run (MP_des : list string) (date_init : T) (w : world (T:=T)) :
  s_date_ok (date_init + s_of_int 86400)%sc = true ->
  (forall des, In des MP_des ->
     status_code (requests_get env ("DES=" ++ des) date_init (date_init + s_of_int 86400)%sc)
     = 200%Z
     /\ exists sv, state_vector env date_init des = inr sv) ->
  exists w',
    setup_mps env MP_des date_init w = (inr tt, w')
    /\ map Some (w_mps w') = map (particle_of env date_init) MP_des
    /\ untouched_run w w'.
Proof.
  intros Hd H. unfold setup_mps. erewrite bind_inr by reflexivity.
  destruct (getMPJPL_run env MP_des date_init (with_mps [] w)) as (lines & E & _ & _ & Hok).
  destruct (Hok Hd H) as (svs & E1 & Hm).
  erewrite bind_inr
    by (rewrite (surjective_pairing (getMPJPL env MP_des date_init (with_mps [] w))), E, E1;
        reflexivity).
  assert (Hlen : List.length MP_des = List.length svs).
  { rewrite <- (length_map (state_vector env date_init)), <- Hm. apply length_map. }
  rewrite (setup_loop_ok MP_des svs MP_des [] svs [] _ eq_refl eq_refl eq_refl Hlen).
  eexists. split; [reflexivity|]. split.
  - cbn [w_mps with_mps with_out app]. now apply particles_of.
  - repeat split.
Qed.

End SetupRun.

(** X11.  When the day after T0 can be formed, every request gets the
    status 200 and every answer parses, the set-up returns with one particle
    per designation, in the order of the designations, each with its own
    designation and the position and velocity parsed from the answer to its
    own request; whatever particles the store held before are dropped. *)
Theorem setup_mps_builds_the_particles (T : Type) (ST : Scalar T) (env : Env (T:=T))
    (MP_des : list string) (date_init : T) (w : world (T:=T)) :
  s_date_ok (date_init + s_of_int 86400)%sc = true ->
  (forall des, In des MP_des ->
     status_code (requests_get env ("DES=" ++ des) date_init (date_init + s_of_int 86400)%sc)
     = 200%Z
     /\ exists sv, state_vector env date_init des = inr sv) ->
  exists w',
    setup_mps env MP_des date_init w = (inr tt, w')
    /\ map Some (w_mps w') = map (particle_of env date_init) MP_des
    /\ untouched_run w w'.
Proof. exact (setup_mps_run env MP_des date_init w). Qed.

(** A run of X11's statement: two designations with different answers, in a
    store that holds another particle. *)
Lemma setup_mps_builds_the_particles_witness :
  exists w',
    setup_mps mixed_env ["2017 BM230"; "2017 BX232"]%string (date 2024 1 1) propagated_world
    = (inr tt, w')
    /\ map Some (w_mps w')
       = map (particle_of mixed_env (date 2024 1 1)) ["2017 BM230"; "2017 BX232"]%string
    /\ untouched_run propagated_world w'.
Proof.
  apply (setup_mps_builds_the_particles float float_Scalar mixed_env).
  - vm_compute. reflexivity.
  - intros des [<-|[<-|[]]]; (split; [reflexivity|]); eexists; vm_compute; reflexivity.
Defined.

(** X12.  The final check needs a state vector for every particle.  Let the
    day after the final date be one that can be formed and every answer
    with the status 200 be one that parses, so that the final retrieval
    returns.  When a request of that retrieval gets another status than 200
    and there are as many particles as designations, validation ends with
    the IndexError of the missing vector; up to there only lines of the
    retrieval have been printed: no position error is reported. *)
Theorem validation_needs_every_vector (T : Type) (ST : Scalar T) (env : Env (T:=T))
    (MP_des : list string) (date_final_actual : T) (w : world (T:=T)) (des : string) :
  In des MP_des ->
  status_code (requests_get env ("DES=" ++ des) date_final_actual
                 (date_final_actual + s_of_int 86400)%sc) <> 200%Z ->
  List.length (w_mps w) = List.length MP_des ->
  s_date_ok (date_final_actual + s_of_int 86400)%sc = true ->
  (forall des', In des' MP_des ->
     status_code (requests_get env ("DES=" ++ des') date_final_actual
                    (date_final_actual + s_of_int 86400)%sc) = 200%Z ->
     exists sv, state_vector env date_final_actual des' = inr sv) ->
  exists lines,
    validation env MP_des date_final_actual w
    = (inl IndexError, with_out (w_out w ++ lines) w)
    /\ Forall (retrieval_line (T:=T)) lines.
Proof.
  intros Hin Hst Hlen Hok Hp. unfold validation.
  destruct (getMPJPL_ok env MP_des date_final_actual w Hok Hp)
    as (svs & lines & Eg & _ & HP).
  exists lines. erewrite bind_inr by exact Eg.
  erewrite bind_inr by reflexivity.
  assert (Hs : List.length svs < List.length (w_mps w)).
  { rewrite (getMPJPL_length env MP_des date_final_actual svs _ _ Eg), Hlen.
    eapply succeeded_short; eassumption. }
  destruct w as [mps b tr o r]. cbn [w_mps with_out w_bodies w_trace w_out w_result] in *.
  erewrite bind_inl
    by (apply (collect_errors_short svs mps [] []); simpl; lia).
  split; [reflexivity|exact HP].
Qed.

(** A run of X12's statement: three particles, and the service does not
    deliver the second. *)
Lemma validation_needs_every_vector_witness :
  exists lines,
    validation mixed_env three_designations (date 2024 1 13)
      (mkWorld (map (fun des => mkMP des vzero vzero) three_designations) [] [] [] [])
    = (inl IndexError,
       with_out
         (w_out (mkWorld (map (fun des => mkMP des vzero vzero) three_designations)
                   [] [] [] []) ++ lines)
         (mkWorld (map (fun des => mkMP des vzero vzero) three_designations) [] [] [] []))
    /\ Forall (retrieval_line (T:=float)) lines.
Proof.
  apply (validation_needs_every_vector float float_Scalar mixed_env three_designations
           (date 2024 1 13) _ "2017 AC64"%string).
  - right. left. reflexivity.
  - vm_compute. discriminate.
  - reflexivity.
  - vm_compute. reflexivity.
  - intros des' [<-|[<-|[<-|[]]]] Hs; try (vm_compute in Hs; discriminate Hs);
      eexists; vm_compute; reflexivity.
Defined.

(** ** The number of cycles and the final date *)

(** X14.  A time step of zero (DT 0) is not rejected when the file is read:
    the run goes on to retrieve the state vectors and set the particles up,
    and only then ends, with the ZeroDivisionError of the floor division,
    before any body is created and any cycle is run. *)
Theorem zero_step_fails_after_setup (env : Env (T:=float)) (enter_to_quit : bool)
    (filename : string) (lines : list string) (w w1 w2 : world (T:=float))
    (cfg : config (T:=float)) :
  read_config env enter_to_quit filename lines (snd (banner w)) = (inr cfg, w1) ->
  PrimFloat.is_zero (cfg_dt cfg) = true ->
  setup_mps env (cfg_MPdes cfg) (cfg_t_0 cfg) w1 = (inr tt, w2) ->
  main env enter_to_quit filename lines w = (inl ZeroDivisionError, w2)
  /\ untouched_run w w2.
Proof.
  intros H1 Hz H2. split.
  - unfold main. erewrite bind_inr by apply banner_returns.
    erewrite bind_inr by exact H1. cbv zeta.
    erewrite bind_inr by exact H2.
    erewrite bind_inl; [reflexivity|].
    unfold cycles. cbn [s_floordiv float_Scalar]. unfold float_floordiv. rewrite Hz.
    erewrite bind_inl by reflexivity. reflexivity.
  - eapply frame_trans; [apply (idle_banner untouched_run)|].
    eapply frame_trans;
      [eapply (idle_snd untouched_run);
       [apply (idle_read_config env untouched_run)|exact H1]|].
    eapply (idle_snd untouched_run); [apply idle_setup_mps|exact H2].
Qed.

(** A run of X14's statement: the file of 2024 with DT 0. *)
Lemma zero_step_fails_after_setup_witness :
  exists w2,
    main (stub_env 200) false "minorbit.txt" config_zero_step empty_world
    = (inl ZeroDivisionError, w2)
    /\ untouched_run empty_world w2
    /\ List.length (w_mps w2) = 1.
Proof.
  eexists. 
  assert (H : forall a b c : Prop, (a /\ b) -> c -> a /\ b /\ c) by tauto.
  apply H; [|shelve].
  eapply (zero_step_fails_after_setup (stub_env 200) false "minorbit.txt" config_zero_step
            empty_world).
  - vm_compute. reflexivity.
  - vm_compute. reflexivity.
  - vm_compute. reflexivity.
  Unshelve. vm_compute. reflexivity.
Defined.

(** ** The records of the main loop *)



(** X15.  The main loop returns for every number of cycles, drops the
    records of the store and leaves one record per cycle k = 0, 1, ...: its
    date is T0 + k dt and its elapsed time k dt, its body positions are the
    ephemeris positions at that date, and its particle positions are those
    after k + 1 macro steps (the step of the cycle is made before the record
    is written).  The particles at the end are those after all the steps,
    and the bodies keep their names and GM. *)
Theorem main_loop_result (T : Type) (ST : Scalar T) (env : Env (T:=T))
    (date_init dt : T) (N_cycles : Z) (w : world (T:=T)) :
  exists w',
    main_loop env date_init dt N_cycles w = (inr tt, w')
    /\ w_result w'
       = map (fun k =>
                mkRecord (cycle_date_of date_init dt k) (s_of_int (Z.of_nat k) * dt)%sc
                  (map (fun body =>
                          spkezr env (body_name body) (cycle_date_of date_init dt k))
                     (w_bodies w))
                  (map mp_pos (propagate env date_init dt (w_bodies w) (S k) (w_mps w))))
           (seq 0 (Z.to_nat N_cycles))
    /\ w_mps w' = propagate env date_init dt (w_bodies w) (Z.to_nat N_cycles) (w_mps w)
    /\ w_bodies w' = bodies_after env date_init dt (w_bodies w) (Z.to_nat N_cycles).
Proof. exact (main_loop_run env date_init dt N_cycles w). Qed.

(** ** The lines of the configuration *)

Section LineFacts.
Context {T : Type} {ST : Scalar T}.
Variable env : Env (T:=T).

Lemma prefix_nil (s : string) : String.prefix EmptyString s = true.
Proof. now destruct s. Qed.

Lemma prefix_head (a b : ascii) (p s : string) :
  String.prefix (String a p) (String b s) = true -> a = b.
Proof. cbn [String.prefix]. now destruct (ascii_dec a b). Qed.

Lemma prefix_app (p s t : string) :
  String.prefix p s = true -> String.prefix p (s ++ t) = true.
Proof.
  revert s. induction p as [|a p IH]; intros s H; [apply prefix_nil|].
  destruct s as [|b s]; [discriminate|]. simpl in *.
  destruct (ascii_dec a b); [now apply IH|discriminate].
Qed.

Lemma prefix_app_long (p s t : string) :
  String.length p <= String.length s -> String.prefix p (s ++ t) = String.prefix p s.
Proof.
  revert s. induction p as [|a p IH]; intros s H; [now rewrite !prefix_nil|].
  destruct s as [|b s]; [simpl in H; lia|]. simpl in *.
  destruct (ascii_dec a b); [apply IH; lia|reflexivity].
Qed.

Lemma prefix_length (p s : string) :
  String.prefix p s = true -> String.length p <= String.length s.
Proof.
  revert s. induction p as [|a p IH]; intros s H; [simpl; lia|].
  destruct s as [|b s]; [discriminate|]. simpl in *.
  destruct (ascii_dec a b); [apply IH in H; lia|discriminate].
Qed.

Lemma split_head_app (c : ascii) (s t : string) :
  lacks c s = true -> split_head c (s ++ String c t) = s.
Proof.
  induction s as [|b s IH]; intros H; simpl in *.
  - now rewrite Ascii.eqb_refl.
  - apply andb_prop in H as [H1 H2]. apply negb_true_iff in H1. rewrite H1.
    now rewrite IH.
Qed.

Lemma drop_chars_app (n : nat) (s t : string) :
  n <= String.length s -> drop_chars n (s ++ t) = (drop_chars n s ++ t)%string.
Proof.
  revert s. induction n as [|n IH]; intros s H; [reflexivity|].
  destruct s as [|b s]; [simpl in H; lia|]. simpl in *. apply IH. lia.
Qed.

Lemma lacks_drop_chars (c : ascii) (n : nat) (s : string) :
  lacks c s = true -> lacks c (drop_chars n s) = true.
Proof.
  revert s. induction n as [|n IH]; intros s H; [exact H|].
  destruct s as [|b s]; [reflexivity|]. simpl in *.
  apply andb_prop in H as [_ H]. now apply IH.
Qed.

(** What follows the first semicolon of a T0, TF, DT or RF line is not
    read. *)
Lemma read_line_comment (st : locals) (head c1 c2 : string) :
  lacks ";" head = true -> valued head = true ->
  read_line env st (head ++ String ";" c1) = read_line env st (head ++ String ";" c2).
Proof.
  intros Hl Hv.
  assert (Hlen : 3 <= String.length head).
  { unfold valued, startswith in Hv.
    repeat (apply orb_prop in Hv as [Hv|Hv]); apply prefix_length in Hv; exact Hv. }
  unfold read_line, startswith.
  rewrite !(prefix_app_long _ head) by exact Hlen.
  rewrite !split_head_app by exact Hl.
  rewrite !drop_chars_app by exact Hlen.
  rewrite !split_head_app by (apply lacks_drop_chars; exact Hl).
  destruct (String.prefix "T0 " head); [reflexivity|].
  destruct (String.prefix "TF " head); [reflexivity|].
  destruct (String.prefix "DT " head); [reflexivity|].
  destruct (String.prefix "MP " head) eqn:E; [|reflexivity].
  unfold valued, startswith in Hv.
  destruct head as [|a h]; [discriminate|].
  apply prefix_head in E. subst a. cbv in Hv. discriminate.
Qed.

End LineFacts.

Section ConfigResults.
Context {T : Type} {ST : Scalar T}.
Variable env : Env (T:=T).

Lemma read_lines_app (l1 l2 : list string) :
  forall (st : locals) (w : world (T:=T)),
    read_lines env st (l1 ++ l2) w
    = (st1 <- read_lines env st l1 ;; read_lines env st1 l2) w.
Proof.
  induction l1 as [|x l1 IH]; intros st w; [reflexivity|].
  cbn [app read_lines]. unfold bind at 1 2 3.
  destruct (read_line env st x w) as [[e|st1] w1]; [reflexivity|].
  rewrite IH. reflexivity.
Qed.

Lemma read_lines_comment (pre post : list string) (head c1 c2 : string) :
  lacks ";" head = true -> valued head = true ->
  forall (st : locals) (w : world (T:=T)),
    read_lines env st (pre ++ (head ++ String ";" c1)%string :: post) w
    = read_lines env st (pre ++ (head ++ String ";" c2)%string :: post) w.
Proof.
  intros Hl Hv st w. rewrite !read_lines_app. unfold bind at 1 2.
  destruct (read_lines env st pre w) as [[e|st1] w1]; [reflexivity|].
  cbn [read_lines]. now rewrite (read_line_comment env st1 head c1 c2 Hl Hv).
Qed.

(** What a line does to the list of designations. *)
Lemma read_line_MP (st st' : locals) (line : string) (w w' : world (T:=T)) :
  read_line env st line w = (inr st', w') ->
  exists groups,
    map Some groups
    = map (pattern_search env) (filter (fun line => startswith line "MP ") [line])
    /\ l_MPdes st' = l_MPdes st ++ map (fun g => (fst g ++ " " ++ snd g)%string) groups.
Proof.
  unfold read_line. cbn [filter].
  destruct (startswith line "T0 ") eqn:E0.
  { assert (E : startswith line "MP " = false).
    { unfold startswith in *. destruct line as [|a l]; [discriminate|].
      apply prefix_head in E0. subst a. reflexivity. }
    rewrite E. intros H. apply bind_inr_inv in H as (t & w1 & _ & H).
    injection H as <- _. exists []. now rewrite app_nil_r. }
  destruct (startswith line "TF ") eqn:E1.
  { assert (E : startswith line "MP " = false).
    { unfold startswith in *. destruct line as [|a l]; [discriminate|].
      apply prefix_head in E1. subst a. reflexivity. }
    rewrite E. intros H. apply bind_inr_inv in H as (t & w1 & _ & H).
    injection H as <- _. exists []. now rewrite app_nil_r. }
  destruct (startswith line "DT ") eqn:E2.
  { assert (E : startswith line "MP " = false).
    { unfold startswith in *. destruct line as [|a l]; [discriminate|].
      apply prefix_head in E2. subst a. reflexivity. }
    rewrite E. intros H. apply bind_inr_inv in H as (t & w1 & _ & H).
    injection H as <- _. exists []. now rewrite app_nil_r. }
  destruct (startswith line "MP ") eqn:E3.
  { destruct (pattern_search env line) as [[g1 g2]|] eqn:Ep; [|discriminate].
    intros H. injection H as <- _. exists [(g1, g2)]. cbn [map]. rewrite Ep.
    split; reflexivity. }
  destruct (startswith line "RF ") eqn:E4.
  { intros H. injection H as <- _. exists []. now rewrite app_nil_r. }
  intros H. injection H as <- _. exists []. now rewrite app_nil_r.
Qed.

Lemma read_lines_MP (lines : list string) :
  forall (st st' : locals) (w w' : world (T:=T)),
    read_lines env st lines w = (inr st', w') ->
    exists groups,
      map Some groups
      = map (pattern_search env) (filter (fun line => startswith line "MP ") lines)
      /\ l_MPdes st' = l_MPdes st ++ map (fun g => (fst g ++ " " ++ snd g)%string) groups.
Proof.
  induction lines as [|line rest IH]; intros st st' w w' H.
  - injection H as <- _. exists []. now rewrite app_nil_r.
  - cbn [read_lines] in H. apply bind_inr_inv in H as (st1 & w1 & H1 & H2).
    apply read_line_MP in H1 as (g1 & Hg1 & Hd1).
    apply IH in H2 as (g2 & Hg2 & Hd2).
    exists (g1 ++ g2). split.
    + change (line :: rest) with ([line] ++ rest).
      rewrite filter_app, !map_app. now rewrite Hg1, Hg2.
    + rewrite Hd2, Hd1, map_app. now rewrite app_assoc.
Qed.

Lemma for_each_print (l : list string) :
  forall (w : world (T:=T)),
    for_each l print w = (inr tt, with_out (w_out w ++ map Print l) w).
Proof.
  induction l as [|x l IH]; intros [mps b tr o r]; simpl.
  - unfold ret, with_out. simpl. now rewrite app_nil_r.
  - erewrite bind_inr by reflexivity. rewrite IH.
    unfold with_out. simpl. now rewrite <- app_assoc.
Qed.

(** With the four variables bound, the report of the inputs returns them. *)
Lemma report_inputs_ok (enter_to_quit : bool) (filename : string) (st : locals (T:=T))
    (w : world (T:=T)) (t_0 t_f dt : T) (result_filename : string) :
  l_t_0 st = Some t_0 -> l_t_f st = Some t_f -> l_dt st = Some dt ->
  l_result_filename st = Some result_filename ->
  exists w',
    report_inputs enter_to_quit filename st w
    = (inr (mkConfig t_0 t_f dt (l_MPdes st) result_filename enter_to_quit), w').
Proof.
  intros H0 H1 H2 H3. unfold report_inputs. rewrite H0, H1, H2, H3.
  destruct (l_MPdes st) as [|des0 rest] eqn:E;
    repeat (erewrite bind_inr by reflexivity); cbv beta.
  - eexists. reflexivity.
  - destruct (List.length (des0 :: rest) <? 20).
    + erewrite bind_inr
        by (erewrite bind_inr by reflexivity;
            erewrite bind_inr by apply for_each_print; reflexivity).
      erewrite bind_inr by reflexivity. eexists. reflexivity.
    + repeat (erewrite bind_inr by reflexivity). eexists. reflexivity.
Qed.

(** What read_config returns is what the loop over the lines left. *)
Lemma report_inputs_result (enter_to_quit : bool) (filename : string) (st : locals (T:=T))
    (w w' : world (T:=T)) (cfg : config) :
  report_inputs enter_to_quit filename st w = (inr cfg, w') ->
  l_t_0 st = Some (cfg_t_0 cfg) /\ l_t_f st = Some (cfg_t_f cfg)
  /\ l_dt st = Some (cfg_dt cfg)
  /\ l_result_filename st = Some (cfg_result_filename cfg)
  /\ cfg_MPdes cfg = l_MPdes st /\ cfg_enter_to_quit cfg = enter_to_quit.
Proof.
  intros H.
  destruct (l_t_0 st) as [t0|] eqn:E0;
    [|destruct (report_inputs_missing enter_to_quit filename st w (or_introl E0))
        as (w1 & n & E & _); congruence].
  destruct (l_t_f st) as [tf|] eqn:E1;
    [|destruct (report_inputs_missing enter_to_quit filename st w
                  (or_intror (or_introl E1))) as (w1 & n & E & _); congruence].
  destruct (l_dt st) as [dt|] eqn:E2;
    [|destruct (report_inputs_missing enter_to_quit filename st w
                  (or_intror (or_intror (or_introl E2)))) as (w1 & n & E & _); congruence].
  destruct (l_result_filename st) as [rf|] eqn:E3;
    [|destruct (report_inputs_missing enter_to_quit filename st w
                  (or_intror (or_intror (or_intror E3)))) as (w1 & n & E & _); congruence].
  destruct (report_inputs_ok enter_to_quit filename st w t0 tf dt rf E0 E1 E2 E3)
    as (w1 & E).
  rewrite E in H. injection H as <- _. repeat split.
Qed.

(** A run of read_config that returns, taken apart. *)
Lemma read_config_inv (enter_to_quit : bool) (filename : string) (lines : list string)
    (w w' : world (T:=T)) (cfg : config) :
  read_config env enter_to_quit filename lines w = (inr cfg, w') ->
  exists st w1,
    read_lines env (mkLocals None None None [] None) lines w1 = (inr st, w1)
    /\ l_t_0 st = Some (cfg_t_0 cfg) /\ l_t_f st = Some (cfg_t_f cfg)
    /\ l_dt st = Some (cfg_dt cfg)
    /\ l_result_filename st = Some (cfg_result_filename cfg)
    /\ cfg_MPdes cfg = l_MPdes st /\ cfg_enter_to_quit cfg = enter_to_quit.
Proof.
  unfold read_config. intros H.
  apply bind_inr_inv in H as (u1 & w1 & _ & H).
  apply bind_inr_inv in H as (u2 & w2 & _ & H).
  apply bind_inr_inv in H as (st & w3 & H3 & H).
  apply report_inputs_result in H.
  destruct (read_lines_spec env lines (mkLocals None None None [] None) w2) as (r & E & _).
  rewrite E in H3. injection H3 as -> <-.
  exists st, w2. split; [exact E|exact H].
Qed.

End ConfigResults.

(** X16.  On a T0, TF, DT or RF line, what follows the first semicolon is a
    comment: read_config does the same whatever text stands there. *)
Theorem comments_are_not_read (T : Type) (ST : Scalar T) (env : Env (T:=T))
    (enter_to_quit : bool) (filename : string) (pre post : list string)
    (head c1 c2 : string) (w : world (T:=T)) :
  lacks ";" head = true -> valued head = true ->
  read_config env enter_to_quit filename (pre ++ (head ++ String ";" c1)%string :: post) w
  = read_config env enter_to_quit filename (pre ++ (head ++ String ";" c2)%string :: post) w.
Proof.
  intros Hl Hv. unfold read_config.
  erewrite !bind_inr by reflexivity. unfold bind.
  now rewrite (read_lines_comment env pre post head c1 c2 Hl Hv).
Qed.

(** A run of X16's statement: the DT line of the file of 2024, with and
    without its comment. *)
Lemma comments_are_not_read_witness :
  read_config (stub_env 200) false "minorbit.txt"
    (["T0 2024-01-01" ++ nl; "TF 2024-01-11" ++ nl]%string
     ++ ("DT 2 " ++ String ";" (" days" ++ nl))%string :: ["RF out.txt" ++ nl]%string)
    empty_world
  = read_config (stub_env 200) false "minorbit.txt"
      (["T0 2024-01-01" ++ nl; "TF 2024-01-11" ++ nl]%string
       ++ ("DT 2 " ++ String ";" nl)%string :: ["RF out.txt" ++ nl]%string)
      empty_world.
Proof.
  apply (comments_are_not_read float float_Scalar (stub_env 200) false "minorbit.txt"
           ["T0 2024-01-01" ++ nl; "TF 2024-01-11" ++ nl]%string ["RF out.txt" ++ nl]%string
           "DT 2 " (" days" ++ nl)%string nl empty_world); reflexivity.
Defined.

(** X17.  The designations that read_config returns are those of the MP
    lines, one per line, in the order of the file; a designation that is
    listed twice is returned twice. *)
Theorem designations_in_file_order (T : Type) (ST : Scalar T) (env : Env (T:=T))
    (enter_to_quit : bool) (filename : string) (lines : list string)
    (w w' : world (T:=T)) (cfg : config) :
  read_config env enter_to_quit filename lines w = (inr cfg, w') ->
  exists groups,
    map Some groups
    = map (pattern_search env) (filter (fun line => startswith line "MP ") lines)
    /\ cfg_MPdes cfg = map (fun g => (fst g ++ " " ++ snd g)%string) groups.
Proof.
  intros H. apply read_config_inv in H as (st & w1 & E & _ & _ & _ & _ & Hd & _).
  apply read_lines_MP in E as (groups & Hg & Hm).
  exists groups. split; [exact Hg|]. now rewrite Hd, Hm.
Qed.

(** A run of X17's statement: the file of 2024 with its MP line twice. *)
Lemma designations_in_file_order_witness :
  exists groups,
    map Some groups
    = map (pattern_search (stub_env 200))
        (filter (fun line => startswith line "MP ")
           (config_2024 ++ ["MP 2017 BX232" ++ nl]%string))
    /\ ["2017 BX232"; "2017 BX232"]%string
       = map (fun g => (fst g ++ " " ++ snd g)%string) groups.
Proof.
  eapply (designations_in_file_order float float_Scalar (stub_env 200) false "minorbit.txt"
            (config_2024 ++ ["MP 2017 BX232" ++ nl]%string) empty_world _
            (mkConfig (date 2024 1 1) (date 2024 1 11) two_days
               ["2017 BX232"; "2017 BX232"]%string "out.txt" false)).
  vm_compute. reflexivity.
Defined.

(** X18.  When a directive is given more than once, the last line counts: the
    value that read_config returns for T0, TF, DT or RF is read from the
    last line with that directive. *)
Theorem last_directive_counts (T : Type) (ST : Scalar T) (env : Env (T:=T))
    (enter_to_quit : bool) (filename : string) (pre post : list string) (line : string)
    (w w' : world (T:=T)) (cfg : config) :
  read_config env enter_to_quit filename (pre ++ line :: post) w = (inr cfg, w') ->
  (startswith line "T0 " = true -> absent "T0 " post ->
   strptime env (remove_spaces (remove_spaces (substring 3 10 (split_head ";" line))))
   = Some (cfg_t_0 cfg))
  /\ (startswith line "TF " = true -> absent "TF " post ->
      strptime env (remove_spaces (remove_spaces
                      (split_head " " (substring 3 10 (split_head ";" line)))))
      = Some (cfg_t_f cfg))
  /\ (startswith line "DT " = true -> absent "DT " post ->
      exists x,
        float_of_string env (remove_spaces (remove_spaces
                               (split_head " " (split_head ";" (drop_chars 3 line)))))
        = Some x
        /\ cfg_dt cfg = (x * s_of_int day)%sc)
  /\ (startswith line "RF " = true -> absent "RF " post ->
      cfg_result_filename cfg = strip (split_head ";" (drop_chars 3 line))).
Proof.
  intros H. apply read_config_inv in H as (st & w1 & E & H0 & H1 & H2 & H3 & _).
  rewrite read_lines_app in E. apply bind_inr_inv in E as (st1 & w2 & _ & E).
  cbn [read_lines] in E. apply bind_inr_inv in E as (st2 & w3 & EL & E).
  destruct (read_lines_spec env post st2 w3) as (r & E' & Hk).
  rewrite E' in E. injection E as -> _.
  destruct Hk as (k0 & k1 & k2 & k3).
  assert (P : forall a b : string,
             String.prefix a line = true -> String.prefix b line = true ->
             String.length a = String.length b -> a = b).
  { clear. induction line as [|c l IH]; intros [|x a] [|y b] Ha Hb Hl;
      try reflexivity; try discriminate.
    assert (Hx := prefix_head _ _ _ _ Ha). assert (Hy := prefix_head _ _ _ _ Hb).
    subst x y. cbn [String.prefix] in Ha, Hb.
    destruct (ascii_dec c c) as [_|N]; [|now destruct N].
    f_equal. apply IH; [exact Ha|exact Hb|]. simpl in Hl. lia. }
  unfold read_line, startswith in EL. unfold startswith.
  repeat split.
  - intros S A. rewrite S in EL. unfold bind, strptime_ in EL.
    destruct (strptime env _) as [t|]; [|discriminate].
    injection EL as <- _. rewrite <- H0, (k0 A). reflexivity.
  - intros S A.
    destruct (String.prefix "T0 " line) eqn:S0; [specialize (P _ _ S0 S eq_refl); discriminate|].
    rewrite S in EL. unfold bind, strptime_ in EL.
    destruct (strptime env _) as [t|]; [|discriminate].
    injection EL as <- _. rewrite <- H1, (k1 A). reflexivity.
  - intros S A.
    destruct (String.prefix "T0 " line) eqn:S0; [specialize (P _ _ S0 S eq_refl); discriminate|].
    destruct (String.prefix "TF " line) eqn:S1; [specialize (P _ _ S1 S eq_refl); discriminate|].
    rewrite S in EL. unfold bind, float_ in EL.
    destruct (float_of_string env _) as [x|]; [|discriminate].
    injection EL as <- _. exists x. split; [reflexivity|].
    rewrite (k2 A) in H2. cbn [l_dt] in H2. now injection H2.
  - intros S A.
    destruct (String.prefix "T0 " line) eqn:S0; [specialize (P _ _ S0 S eq_refl); discriminate|].
    destruct (String.prefix "TF " line) eqn:S1; [specialize (P _ _ S1 S eq_refl); discriminate|].
    destruct (String.prefix "DT " line) eqn:S2; [specialize (P _ _ S2 S eq_refl); discriminate|].
    destruct (String.prefix "MP " line) eqn:S3; [specialize (P _ _ S3 S eq_refl); discriminate|].
    rewrite S in EL. injection EL as <- _.
    rewrite (k3 A) in H3. cbn [l_result_filename] in H3. now injection H3.
Qed.

(** A run of X18's statement: a second DT line of 5 days after the file of
    2024. *)
Lemma last_directive_counts_witness :
  exists x,
    float_decimal (remove_spaces (remove_spaces
                     (split_head " " (split_head ";" (drop_chars 3 "DT 5 ; days")))))
    = Some x
    /\ (float_of_Z 5 * float_of_Z day)%float = (x * s_of_int day)%sc.
Proof.
  assert (H : read_config (stub_env 200) false "minorbit.txt"
                (config_2024 ++ ["DT 5 ; days"%string]) empty_world
              = (inr (mkConfig (date 2024 1 1) (date 2024 1 11)
                        (float_of_Z 5 * float_of_Z day)%float
                        ["2017 BX232"%string] "out.txt" false),
                 snd (read_config (stub_env 200) false "minorbit.txt"
                        (config_2024 ++ ["DT 5 ; days"%string]) empty_world)))
    by (vm_compute; reflexivity).
  apply (proj1 (proj2 (proj2
           (last_directive_counts float float_Scalar (stub_env 200) false "minorbit.txt"
              config_2024 [] "DT 5 ; days" empty_world _ _ H)))).
  - reflexivity.
  - constructor.
Defined.

(** ** A run of main that completes *)

Section MainRun.
Context {T : Type} {ST : Scalar T}.
Variable env : Env (T:=T).







End MainRun.



(** ** The choice of the configuration file *)

Section FileNames.

Lemma lower_char_dot (c : ascii) : Ascii.eqb (lower_char c) "." = Ascii.eqb c ".".
Proof. destruct c as [[] [] [] [] [] [] [] []]; reflexivity. Qed.

Lemma contains_lower (s : string) : contains "." (lower s) = contains "." s.
Proof.
  induction s as [|c s IH]; [reflexivity|]. cbn [lower contains].
  now rewrite lower_char_dot, IH.
Qed.

Lemma contains_app (c : ascii) (s t : string) :
  contains c (s ++ t) = contains c s || contains c t.
Proof.
  induction s as [|b s IH]; [reflexivity|]. cbn [append contains].
  now rewrite IH, orb_assoc.
Qed.

Lemma among_true (s : string) (keys : list string) : among s keys = true -> In s keys.
Proof.
  unfold among. intros H. apply existsb_exists in H as (k & Hk & E).
  apply String.eqb_eq in E. now subst k.
Qed.

(** No key has a dot. *)
Lemma dotted_is_no_key (s : string) :
  contains "." s = true ->
  among (lower s) (help_keys ++ citation_keys ++ license_keys) = false.
Proof.
  intros H. destruct (among (lower s) _) eqn:E; [|reflexivity].
  apply among_true in E. rewrite <- contains_lower in H.
  simpl in E.
  repeat (destruct E as [E|E]; [rewrite <- E in H; discriminate|]). contradiction.
Qed.

Lemma among_app (s : string) (k1 k2 : list string) :
  among s (k1 ++ k2) = among s k1 || among s k2.
Proof. apply existsb_app. Qed.

Lemma substring_end (s t : string) :
  substring (String.length s) (String.length t) (s ++ t) = t.
Proof.
  induction s as [|c s IH]; cbn [String.length append].
  - induction t as [|c t IH]; [reflexivity|]. cbn [String.length substring]. now rewrite IH.
  - cbn [substring]. exact IH.
Qed.

Lemma length_append (s t : string) :
  String.length (s ++ t) = String.length s + String.length t.
Proof. induction s as [|c s IH]; [reflexivity|]. cbn [append String.length]. now rewrite IH. Qed.

Lemma endswith_app (s t : string) : endswith (s ++ t) t = true.
Proof.
  unfold endswith. rewrite length_append.
  replace (String.length s + String.length t - String.length t) with (String.length s) by lia.
  rewrite substring_end, String.eqb_refl, andb_true_r. apply Nat.leb_le. lia.
Qed.

End FileNames.

Section ChoiceFacts.
Context {T : Type} {ST : Scalar T}.
Variable env : Env (T:=T).
Variable files : string -> option (list string).

Lemma show_and_exit_run A (text : string) (w : world (T:=T)) :
  show_and_exit (A:=A) text w
  = (inl SystemExit, with_out (w_out w ++ [Print text; Input "Press Enter to quit..."]) w).
Proof.
  destruct w as [mps b tr o r].
  cbv [show_and_exit bind print input modify raise with_out
       w_mps w_bodies w_trace w_out w_result].
  now rewrite <- app_assoc.
Qed.

(** The keys and their texts. *)
Lemma check_keys_exit (name : string) (keys : list string) (text : string)
    (w : world (T:=T)) :
  In (keys, text)
     [(help_keys, help_text); (citation_keys, citation_text); (license_keys, license_text)] ->
  among (lower name) keys = true ->
  check_keys name w
  = (inl SystemExit, with_out (w_out w ++ [Print text; Input "Press Enter to quit..."]) w).
Proof.
  intros Hin Ha. unfold check_keys.
  destruct Hin as [E|[E|[E|[]]]]; injection E as <- <-.
  - rewrite Ha. apply show_and_exit_run.
  - assert (H : among (lower name) help_keys = false).
    { apply among_true in Ha. simpl in Ha. destruct Ha as [<-|[<-|[]]]; reflexivity. }
    rewrite H, Ha. apply show_and_exit_run.
  - assert (H : among (lower name) help_keys = false
                /\ among (lower name) citation_keys = false).
    { apply among_true in Ha. simpl in Ha. destruct Ha as [<-|[<-|[]]]; split; reflexivity. }
    destruct H as [H1 H2]. rewrite H1, H2, Ha. apply show_and_exit_run.
Qed.

Lemma check_keys_pass (name : string) (w : world (T:=T)) :
  among (lower name) (help_keys ++ citation_keys ++ license_keys) = false ->
  check_keys name w = (inr tt, w).
Proof.
  rewrite !among_app. intros H.
  apply orb_false_elim in H as [H1 H]. apply orb_false_elim in H as [H2 H3].
  unfold check_keys. now rewrite H1, H2, H3.
Qed.

(** One turn of the loop is enough for a name that ends with .txt. *)
Lemma open_loop_txt (fuel : nat) (enter_to_quit : bool) (filename : string)
    (w : world (T:=T)) :
  endswith filename ".txt" = true ->
  open_loop env files (S fuel) enter_to_quit filename w
  = open_loop env files 1 enter_to_quit filename w
  /\ fst (open_loop env files 1 enter_to_quit filename w) <> inr None.
Proof.
  intros He. cbn [open_loop].
  destruct (files filename) as [lines|].
  - split; [reflexivity|]. unfold bind.
    destruct (read_lines env (mkLocals None None None [] None) lines w) as [[e|st] w1];
      simpl; discriminate.
  - rewrite He. cbn [negb]. split; [reflexivity|].
    destruct enter_to_quit; cbv [bind print input modify raise ret fst]; discriminate.
Qed.

(** Two turns of the loop are enough: the second name ends with .txt. *)
Lemma open_loop_two (fuel : nat) (enter_to_quit : bool) (filename : string)
    (w : world (T:=T)) :
  2 <= fuel ->
  open_loop env files fuel enter_to_quit filename w
  = open_loop env files 2 enter_to_quit filename w
  /\ fst (open_loop env files 2 enter_to_quit filename w) <> inr None.
Proof.
  intros Hf. destruct fuel as [|[|fuel]]; try lia.
  change (open_loop env files (S (S fuel)) enter_to_quit filename)
    with (match files filename with
          | Some lines =>
              st <- read_lines env (mkLocals None None None [] None) lines ;;
              ret (Some (filename, st))
          | None =>
              print ("File '" ++ filename ++ "' not found!") ;;
              if negb (endswith filename ".txt") then
                open_loop env files (S fuel) enter_to_quit (filename ++ ".txt")%string
              else
                (if enter_to_quit then input "Press Enter to quit." else ret tt) ;;
                raise SystemExit
          end).
  change (open_loop env files 2 enter_to_quit filename)
    with (match files filename with
          | Some lines =>
              st <- read_lines env (mkLocals None None None [] None) lines ;;
              ret (Some (filename, st))
          | None =>
              print ("File '" ++ filename ++ "' not found!") ;;
              if negb (endswith filename ".txt") then
                open_loop env files 1 enter_to_quit (filename ++ ".txt")%string
              else
                (if enter_to_quit then input "Press Enter to quit." else ret tt) ;;
                raise SystemExit
          end).
  destruct (files filename) as [lines|].
  - split; [reflexivity|]. unfold bind.
    destruct (read_lines env (mkLocals None None None [] None) lines w) as [[e|st] w1];
      simpl; discriminate.
  - erewrite !bind_inr by reflexivity.
    destruct (negb (endswith filename ".txt")).
    + apply open_loop_txt. apply endswith_app.
    + split; [reflexivity|].
      destruct enter_to_quit; cbv [bind print input modify raise ret fst]; discriminate.
Qed.

Lemma read_config_args_two (fuel : nat) (sys_args : list string) (answer : string)
    (w : world (T:=T)) :
  2 <= fuel ->
  read_config_args env files fuel sys_args answer w
  = read_config_args env files 2 sys_args answer w
  /\ fst (read_config_args env files 2 sys_args answer w) <> inr None.
Proof.
  intros Hf. unfold read_config_args.
  destruct (choose_file sys_args answer w) as [[e|[etq filename]] w1] eqn:Ec.
  - rewrite !(bind_inl _ _ (choose_file sys_args answer) _ w w1 e Ec).
    split; [reflexivity|simpl; discriminate].
  - rewrite !(bind_inr _ _ (choose_file sys_args answer) _ w w1 (etq, filename) Ec).
    cbn [fst snd].
    rewrite !(bind_inr _ _ (print EmptyString) _ w1 _ tt eq_refl).
    rewrite !(bind_inr _ _ (print ("Reading inputs from " ++ filename ++ "...")) _ _ _ tt
                eq_refl).
    match goal with
    | |- bind _ _ ?w0 = _ /\ _ =>
        destruct (open_loop_two fuel etq filename w0 Hf) as [E N];
        unfold bind; rewrite E;
        destruct (open_loop env files 2 etq filename w0) as [[e|[[f st]|]] w2]
    end.
    + split; [reflexivity|simpl; discriminate].
    + split; [reflexivity|].
      destruct (report_inputs etq f st w2) as [[e|cfg] w3]; simpl; discriminate.
    + now destruct N.
Qed.


(** Without the file, and without the file of that name with .txt at its
    end, the run ends. *)
Lemma read_config_args_missing (fuel : nat) (sys_args : list string) (answer : string)
    (w w1 : world (T:=T)) (enter_to_quit : bool) (filename : string) :
  choose_file sys_args answer w = (inr (enter_to_quit, filename), w1) ->
  files filename = None ->
  endswith filename ".txt" = true \/ files (filename ++ ".txt") = None ->
  2 <= fuel ->
  read_config_args env files fuel sys_args answer w
  = (inl SystemExit,
     with_out
       (w_out w1
        ++ [Print EmptyString; Print ("Reading inputs from " ++ filename ++ "...");
            Print ("File '" ++ filename ++ "' not found!")]
        ++ (if endswith filename ".txt" then []
            else [Print ("File '" ++ (filename ++ ".txt") ++ "' not found!")])
        ++ (if enter_to_quit then [Input "Press Enter to quit."] else [])) w1).
Proof.
  intros Hc Hfile Hsecond Hf.
  rewrite (proj1 (read_config_args_two fuel sys_args answer w Hf)).
  unfold read_config_args. erewrite bind_inr by exact Hc.
  cbn [fst snd open_loop]. rewrite Hfile.
  destruct w1 as [mps b tr o r].
  destruct (endswith filename ".txt") eqn:Ee.
  - destruct enter_to_quit;
      cbv [bind print input modify raise ret negb with_out
           w_mps w_bodies w_trace w_out w_result];
      repeat rewrite <- app_assoc; reflexivity.
  - destruct Hsecond as [Hs|Hs]; [discriminate|]. rewrite Hs, endswith_app.
    destruct enter_to_quit;
      cbv [bind print input modify raise ret negb with_out
           w_mps w_bodies w_trace w_out w_result];
      repeat rewrite <- app_assoc; reflexivity.
Qed.

End ChoiceFacts.

(** X20.  A file name that is, in any spelling of upper and lower case, one
    of the help, citation or license keys makes read_config print the text
    of that key, wait for Enter and exit, on the command line as well as at
    the prompt; no file is opened (the outcome is the same for every
    directory). *)
Theorem keys_show_and_exit (T : Type) (ST : Scalar T) (env : Env (T:=T))
    (files : string -> option (list string)) (fuel : nat) (name : string)
    (keys : list string) (text : string) (w : world (T:=T)) :
  In (keys, text)
     [(help_keys, help_text); (citation_keys, citation_text); (license_keys, license_text)] ->
  among (lower name) keys = true ->
  (forall prog rest answer,
      read_config_args env files fuel (prog :: name :: rest) answer w
      = (inl SystemExit,
         with_out (w_out w ++ [Print text; Input "Press Enter to quit..."]) w))
  /\ (forall sys_args,
         List.length sys_args < 2 ->
         read_config_args env files fuel sys_args name w
         = (inl SystemExit,
            with_out (w_out w ++ [Input "Input filename (type 'help' for help): ";
                                  Print text; Input "Press Enter to quit..."]) w)).
Proof.
  intros Hin Ha. split.
  - intros prog rest answer. unfold read_config_args.
    erewrite bind_inl; [reflexivity|]. unfold choose_file.
    cbn [List.length Nat.ltb Nat.leb index nth_error].
    erewrite bind_inr by reflexivity.
    erewrite bind_inl; [reflexivity|]. now apply check_keys_exit with (keys := keys).
  - intros sys_args Hlen. unfold read_config_args.
    erewrite bind_inl; [reflexivity|]. unfold choose_file.
    apply Nat.ltb_lt in Hlen. rewrite Hlen.
    erewrite bind_inr by reflexivity.
    destruct name as [|c name].
    { exfalso. apply among_true in Ha. cbn [lower] in Ha.
      destruct Hin as [E|[E|[E|[]]]]; injection E as <- _; simpl in Ha;
        repeat (destruct Ha as [Ha|Ha]; [discriminate|]); contradiction. }
    erewrite bind_inl; [reflexivity|].
    rewrite (check_keys_exit (String c name) keys text _ Hin Ha).
    change [Input "Input filename (type 'help' for help): "; Print text;
            Input "Press Enter to quit..."]
      with ([Input (T:=T) "Input filename (type 'help' for help): "]
            ++ [Print text; Input "Press Enter to quit..."]).
    now rewrite <- with_out_app.
Qed.

(** A run of X20's statement: the key --HELP. *)
Lemma keys_show_and_exit_witness :
  read_config_args (stub_env 200) files_2024 2 ["minorbit2.py"; "--HELP"]%string
    EmptyString empty_world
  = (inl SystemExit,
     with_out (w_out empty_world ++ [Print help_text; Input "Press Enter to quit..."])
       empty_world)
  /\ read_config_args (stub_env 200) files_2024 2 [] "--HELP" empty_world
     = (inl SystemExit,
        with_out (w_out empty_world
                  ++ [Input "Input filename (type 'help' for help): ";
                      Print help_text; Input "Press Enter to quit..."]) empty_world).
Proof.
  assert (H1 : In (help_keys, help_text)
                 [(help_keys, help_text); (citation_keys, citation_text);
                  (license_keys, license_text)]) by (left; reflexivity).
  assert (H2 : among (lower "--HELP") help_keys = true) by reflexivity.
  split.
  - exact (proj1 (keys_show_and_exit float float_Scalar (stub_env 200) files_2024 2
                    "--HELP" help_keys help_text empty_world H1 H2)
             "minorbit2.py"%string [] EmptyString).
  - apply (proj2 (keys_show_and_exit float float_Scalar (stub_env 200) files_2024 2
                    "--HELP" help_keys help_text empty_world H1 H2) []).
    simpl. lia.
Defined.

(** X21.  The file name that read_config settles on.  A name given on the
    command line is taken as it is when it has a dot and gets .txt at its
    end when it has none (enter_to_quit is off); a name typed at the prompt
    is taken as it is, with or without a dot, and an empty answer stands
    for minorbit.txt (enter_to_quit is on).  The name is assumed not to be
    a key, which a name with a dot never is. *)
Theorem file_name_rule (T : Type) (ST : Scalar T) (name : string) (w : world (T:=T)) :
  contains "." name = true \/ among (lower name) all_keys = false ->
  (forall prog rest answer,
      choose_file (prog :: name :: rest) answer w
      = (inr (false, if contains "." name then name else (name ++ ".txt")%string), w))
  /\ (forall sys_args,
         List.length sys_args < 2 -> name <> EmptyString ->
         choose_file sys_args name w
         = (inr (true, name),
            with_out (w_out w ++ [Input "Input filename (type 'help' for help): "]) w))
  /\ (forall sys_args,
         List.length sys_args < 2 ->
         choose_file sys_args EmptyString w
         = (inr (true, "minorbit.txt"%string),
            with_out (w_out w ++ [Input "Input filename (type 'help' for help): "]) w)).
Proof.
  intros H.
  assert (Hk : among (lower name) all_keys = false).
  { destruct H as [H|H]; [now apply dotted_is_no_key|exact H]. }
  split; [|split].
  - intros prog rest answer. unfold choose_file.
    cbn [List.length Nat.ltb Nat.leb index nth_error].
    erewrite bind_inr by reflexivity.
    erewrite bind_inr by (apply check_keys_pass; exact Hk).
    destruct (contains "." name); reflexivity.
  - intros sys_args Hlen Hne. unfold choose_file.
    apply Nat.ltb_lt in Hlen. rewrite Hlen.
    erewrite bind_inr by reflexivity.
    destruct name as [|c name]; [contradiction|].
    erewrite bind_inr by (apply check_keys_pass; exact Hk). reflexivity.
  - intros sys_args Hlen. unfold choose_file.
    apply Nat.ltb_lt in Hlen. rewrite Hlen.
    erewrite bind_inr by reflexivity. reflexivity.
Qed.

(** A run of X21's statement: the name run. *)
Lemma file_name_rule_witness :
  choose_file (T:=float) ["minorbit2.py"; "run"]%string EmptyString empty_world
  = (inr (false, "run.txt"%string), empty_world)
  /\ choose_file (T:=float) [] "run" empty_world
     = (inr (true, "run"%string),
        with_out (w_out empty_world ++ [Input "Input filename (type 'help' for help): "])
          empty_world).
Proof.
  assert (H : contains "." "run" = true \/ among (lower "run") all_keys = false)
    by (right; reflexivity).
  split.
  - exact (proj1 (file_name_rule float float_Scalar "run" empty_world H)
             "minorbit2.py"%string ["run"%string] EmptyString).
  - apply (proj1 (proj2 (file_name_rule float float_Scalar "run" empty_world H)) []).
    + simpl. lia.
    + discriminate.
Defined.

(** X22.  The loop that opens the file ends: it makes at most two turns (the
    second with .txt at the end of the name), so that read_config is the
    same for every bound of two turns or more, and never comes out of the
    loop undecided. *)
Theorem file_loop_ends (T : Type) (ST : Scalar T) (env : Env (T:=T))
    (files : string -> option (list string)) (fuel : nat) (sys_args : list string)
    (answer : string) (w : world (T:=T)) :
  2 <= fuel ->
  read_config_args env files fuel sys_args answer w
  = read_config_args env files 2 sys_args answer w
  /\ fst (read_config_args env files 2 sys_args answer w) <> inr None.
Proof. apply read_config_args_two. Qed.

(** A run of X22's statement: a bound of five turns, and a file that is
    missing under both names. *)
Lemma file_loop_ends_witness :
  read_config_args (stub_env 200) files_2024 5 ["minorbit2.py"; "other.dat"]%string
    EmptyString empty_world
  = read_config_args (stub_env 200) files_2024 2 ["minorbit2.py"; "other.dat"]%string
      EmptyString empty_world
  /\ fst (read_config_args (stub_env 200) files_2024 2 ["minorbit2.py"; "other.dat"]%string
            EmptyString empty_world) <> inr None.
Proof.
  apply (file_loop_ends float float_Scalar (stub_env 200) files_2024 5). lia.
Defined.



(** X24.  When the file of the settled name cannot be opened, and the name
    ends with .txt or the file of that name with .txt at its end cannot be
    opened either, read_config says which files were not found (one line per
    name tried), asks for Enter if the name was typed at the prompt, and
    exits; nothing else is printed after the announcement of the reading. *)
Theorem missing_file_exits (T : Type) (ST : Scalar T) (env : Env (T:=T))
    (files : string -> option (list string)) (fuel : nat) (sys_args : list string)
    (answer : string) (w w1 : world (T:=T)) (enter_to_quit : bool) (filename : string) :
  choose_file sys_args answer w = (inr (enter_to_quit, filename), w1) ->
  files filename = None ->
  endswith filename ".txt" = true \/ files (filename ++ ".txt")%string = None ->
  2 <= fuel ->
  read_config_args env files fuel sys_args answer w
  = (inl SystemExit,
     with_out
       (w_out w1
        ++ [Print EmptyString; Print ("Reading inputs from " ++ filename ++ "...");
            Print ("File '" ++ filename ++ "' not found!")]
        ++ (if endswith filename ".txt" then []
            else [Print ("File '" ++ (filename ++ ".txt") ++ "' not found!")%string])
        ++ (if enter_to_quit then [Input "Press Enter to quit."] else [])) w1).
Proof. apply read_config_args_missing. Qed.

(** A run of X24's statement: the name other.dat. *)
Lemma missing_file_exits_witness :
  read_config_args (stub_env 200) files_2024 2 ["minorbit2.py"; "other.dat"]%string
    EmptyString empty_world
  = (inl SystemExit,
     with_out
       (w_out empty_world
        ++ [Print EmptyString; Print "Reading inputs from other.dat...";
            Print "File 'other.dat' not found!"]
        ++ (if endswith "other.dat" ".txt" then []
            else [Print "File 'other.dat.txt' not found!"])
        ++ (if false then [Input "Press Enter to quit."] else [])) empty_world).
Proof.
  apply (missing_file_exits float float_Scalar (stub_env 200) files_2024 2
           ["minorbit2.py"; "other.dat"]%string EmptyString empty_world empty_world false
           "other.dat").
  - reflexivity.
  - reflexivity.
  - right. reflexivity.
  - lia.
Defined.
